(** * Senza template modules: [postgresapp] and [webappmultiregion]

    A shallow embedding of [senza/templates/postgresapp.py] and
    [senza/templates/webappmultiregion.py], and the properties their
    specification states about them.

    Python values are modelled by the type [value], the variable mapping
    by an insertion-ordered association list (a Python [dict] keeps the
    order in which its keys were first bound, and [gather_user_variables]
    iterates over it), exceptions by the sum type [result]. *)

From Stdlib Require Import String Ascii List ZArith Bool Lia Sorted.
From Stdlib Require Import DecimalString.
Import ListNotations.

Local Open Scope string_scope.
Local Open Scope bool_scope.

(* ================================================================== *)
(** * Part I. Definitions *)
(* ================================================================== *)

(** ** Python values and dictionaries *)

(** The scalars a variable mapping holds: [None], booleans, integers
    and strings. *)
Inductive value : Type :=
| VNone
| VBool (b : bool)
| VInt (z : Z)
| VStr (s : string).

Definition value_eqb (a b : value) : bool :=
  match a, b with
  | VNone, VNone => true
  | VBool x, VBool y => Bool.eqb x y
  | VInt x, VInt y => Z.eqb x y
  | VStr x, VStr y => String.eqb x y
  | _, _ => false
  end.

(** Python truthiness: [None], [False], [0] and [''] are falsy. *)
Definition truthy (v : value) : bool :=
  match v with
  | VNone => false
  | VBool b => b
  | VInt z => negb (Z.eqb z 0)
  | VStr s => negb (String.eqb s "")
  end.

(** [str(v)], which is also what ['{}'.format(v)] writes. *)
Definition py_str (v : value) : string :=
  match v with
  | VNone => "None"
  | VBool true => "True"
  | VBool false => "False"
  | VInt z => NilZero.string_of_int (Z.to_int z)
  | VStr s => s
  end.

(** A [dict] with string keys, in insertion order. *)
Definition dict : Type := list (string * value).

(** [d.get(k)]: the binding of [k], if any. *)
Fixpoint get (k : string) (d : dict) : option value :=
  match d with
  | [] => None
  | (k', v) :: d' => if String.eqb k k' then Some v else get k d'
  end.

(** [k in d]. *)
Definition contains_key (k : string) (d : dict) : bool :=
  match get k d with
  | Some _ => true
  | None => false
  end.

(** [d[k] = v]: rebinds [k] where it stands, or appends a new binding. *)
Fixpoint setitem (k : string) (v : value) (d : dict) : dict :=
  match d with
  | [] => [(k, v)]
  | (k', v') :: d' =>
      if String.eqb k k' then (k', v) :: d' else (k', v') :: setitem k v d'
  end.

(** [d.setdefault(k, v)]: binds [k] to [v] only when [k] is not in [d]. *)
Definition setdefault (k : string) (v : value) (d : dict) : dict :=
  if contains_key k d then d else setitem k v d.

(** The keys of [d], in iteration order. *)
Definition keys (d : dict) : list string := map fst d.

(** ** Exceptions *)

(** The exceptions the modelled code can meet.  [External] stands for
    whatever a collaborator outside these modules raises (network,
    AWS, operator abort); its argument names the failure. *)
Inductive exn : Type :=
| IndexError
| KeyError (k : string)
| TypeError
| AttributeError
| ValueError
| UsageError (msg : string)
| ParsingError
| External (what : string).

Inductive result (A : Type) : Type :=
| Ok (a : A)
| Raise (e : exn).

Arguments Ok {A} a.
Arguments Raise {A} e.

Definition rbind {A B : Type} (r : result A) (f : A -> result B) : result B :=
  match r with
  | Ok a => f a
  | Raise e => Raise e
  end.

Notation "'let?' x := c 'in' k" := (rbind c (fun x => k))
  (at level 10, x name, c at level 100, k at level 200).

(** ** Strings *)

(** [needle in hay] for two strings. *)
Fixpoint str_contains (needle hay : string) : bool :=
  String.prefix needle hay
  || match hay with
     | EmptyString => false
     | String _ hay' => str_contains needle hay'
     end.

(** Membership of a character in a string. *)
Fixpoint char_in (c : ascii) (s : string) : bool :=
  match s with
  | EmptyString => false
  | String c' s' => Ascii.eqb c c' || char_in c s'
  end.

Fixpoint all_chars (p : ascii -> bool) (s : string) : bool :=
  match s with
  | EmptyString => true
  | String c s' => p c && all_chars p s'
  end.

(** ** Decoded JSON *)

(** What [r.json()] returns: [None], booleans, numbers, strings, lists
    and dicts with string keys.  Numbers are the integers (a JSON
    number with a fraction decodes to a float, which this model leaves
    out); the keys of an object are distinct, as in a [dict]. *)
#[warning="-register-all"]
Inductive json : Type :=
| JNull
| JBool (b : bool)
| JNum (z : Z)
| JStr (s : string)
| JArr (items : list json)
| JObj (fields : list (string * json)).

Fixpoint lookup (k : string) (fields : list (string * json)) : option json :=
  match fields with
  | [] => None
  | (k', v) :: rest => if String.eqb k k' then Some v else lookup k rest
  end.

(** [a == b]; [True == 1] and [False == 0] hold, two dicts are equal
    when they bind the same keys to equal values. *)
Fixpoint py_eq (a b : json) : bool :=
  match a, b with
  | JNull, JNull => true
  | JBool x, JBool y => Bool.eqb x y
  | JBool x, JNum y => Z.eqb (Z.b2z x) y
  | JNum x, JBool y => Z.eqb x (Z.b2z y)
  | JNum x, JNum y => Z.eqb x y
  | JStr x, JStr y => String.eqb x y
  | JArr l, JArr m =>
      (fix items_eq (l m : list json) : bool :=
         match l, m with
         | [], [] => true
         | x :: l', y :: m' => py_eq x y && items_eq l' m'
         | _, _ => false
         end) l m
  | JObj o, JObj p =>
      Nat.eqb (List.length o) (List.length p)
      && (fix fields_eq (o : list (string * json)) : bool :=
            match o with
            | [] => true
            | (k, v) :: o' =>
                match lookup k p with
                | Some w => py_eq v w
                | None => false
                end && fields_eq o'
            end) o
  | _, _ => false
  end.

(** [a < b]: numbers (and booleans) by value, strings by code point,
    lists lexicographically; a [TypeError] for every other pair. *)
Fixpoint py_lt (a b : json) : result bool :=
  match a, b with
  | JBool x, JBool y => Ok (Z.ltb (Z.b2z x) (Z.b2z y))
  | JBool x, JNum y => Ok (Z.ltb (Z.b2z x) y)
  | JNum x, JBool y => Ok (Z.ltb x (Z.b2z y))
  | JNum x, JNum y => Ok (Z.ltb x y)
  | JStr x, JStr y => Ok (String.ltb x y)
  | JArr l, JArr m =>
      (fix items_lt (l m : list json) : result bool :=
         match l, m with
         | [], [] => Ok false
         | [], _ :: _ => Ok true
         | _ :: _, [] => Ok false
         | x :: l', y :: m' => if py_eq x y then items_lt l' m' else py_lt x y
         end) l m
  | _, _ => Raise TypeError
  end.

(** Truthiness of a decoded value. *)
Definition json_truthy (j : json) : bool :=
  match j with
  | JNull => false
  | JBool b => b
  | JNum z => negb (Z.eqb z 0)
  | JStr s => negb (String.eqb s "")
  | JArr l => match l with [] => false | _ => true end
  | JObj o => match o with [] => false | _ => true end
  end.

(** [iter(j)]: the items of a list, the keys of a dict, the characters
    of a string; a [TypeError] otherwise. *)
Definition py_iter (j : json) : result (list json) :=
  match j with
  | JArr l => Ok l
  | JObj o => Ok (map (fun kv => JStr (fst kv)) o)
  | JStr s => Ok (map (fun c => JStr (String c "")) (list_ascii_of_string s))
  | _ => Raise TypeError
  end.

(** [j[k]] for a string key [k]: defined on dicts only. *)
Definition getitem (j : json) (k : string) : result json :=
  match j with
  | JObj o => match lookup k o with
              | Some v => Ok v
              | None => Raise (KeyError k)
              end
  | _ => Raise TypeError
  end.

(** [needle in j] for a string [needle]. *)
Definition py_in (needle : string) (j : json) : result bool :=
  match j with
  | JStr s => Ok (str_contains needle s)
  | JArr l => Ok (existsb (py_eq (JStr needle)) l)
  | JObj o => Ok (match lookup needle o with Some _ => true | None => false end)
  | _ => Raise TypeError
  end.

(** [sorted(items, key=key, reverse=True)].  The keys are computed
    first, item by item; the sort is stable, so that items with equal
    keys keep their order.  It is modelled as an insertion sort, which
    agrees with every stable sort when [<] orders the keys, as it does
    for keys that are all numbers or all strings; when [<] raises for
    a pair the insertion compares, the sort raises.  CPython's sort
    compares other pairs than an insertion does: both raise for keys
    of two kinds among [None], numbers, strings and dicts, but for
    keys that are lists of mixed content they may differ. *)
Fixpoint insert_desc {A : Type} (x : json * A) (acc : list (json * A))
  : result (list (json * A)) :=
  match acc with
  | [] => Ok [x]
  | y :: acc' =>
      let? b := py_lt (fst y) (fst x) in
      if b then Ok (x :: y :: acc')
      else let? r := insert_desc x acc' in Ok (y :: r)
  end.

Fixpoint sort_desc {A : Type} (todo acc : list (json * A))
  : result (list (json * A)) :=
  match todo with
  | [] => Ok acc
  | x :: todo' => let? acc' := insert_desc x acc in sort_desc todo' acc'
  end.

Fixpoint with_keys {A : Type} (key : A -> result json) (items : list A)
  : result (list (json * A)) :=
  match items with
  | [] => Ok []
  | x :: items' =>
      let? k := key x in
      let? r := with_keys key items' in
      Ok ((k, x) :: r)
  end.

Definition sorted_reverse {A : Type} (items : list A) (key : A -> result json)
  : result (list A) :=
  let? keyed := with_keys key items in
  let? s := sort_desc keyed [] in
  Ok (map snd s).

(** The text of a decoded value in [str.format].  The text of a list
    or of a dict (Python's [repr] of each item) is not modelled: it is
    the parameter [container_text]. *)
Definition json_str (container_text : json -> string) (j : json) : string :=
  match j with
  | JNull => "None"
  | JBool true => "True"
  | JBool false => "False"
  | JNum z => NilZero.string_of_int (Z.to_int z)
  | JStr s => s
  | JArr _ | JObj _ => container_text j
  end.

(** An HTTP response: its [ok] flag and what [json()] gives, a decoded
    value or an exception. *)
Record response : Type := { ok : bool; json_body : result json }.

(** ** The template renderer *)

Definition nl : string := String (ascii_of_nat 10) "".
Definition dq : string := String (ascii_of_nat 34) "".

(** [s] between double quotes. *)
Definition q (s : string) : string := dq ++ s ++ dq.

(** The text whose lines are [lines], each ended by a newline. *)
Fixpoint unlines (lines : list string) : string :=
  match lines with
  | [] => ""
  | l :: rest => l ++ nl ++ unlines rest
  end.

Definition is_space (c : ascii) : bool :=
  match nat_of_ascii c with
  | 32 | 9 | 10 | 13 => true
  | _ => false
  end.

Fixpoint lstrip (s : string) : string :=
  match s with
  | String c s' => if is_space c then lstrip s' else s
  | EmptyString => EmptyString
  end.

Definition rev_string (s : string) : string :=
  string_of_list_ascii (rev (list_ascii_of_string s)).

Definition strip (s : string) : string :=
  rev_string (lstrip (rev_string (lstrip s))).

(** The words of [s], split at white space. *)
Fixpoint words_from (s : string) (word : string) : list string :=
  let flush := match word with
               | EmptyString => []
               | _ => [rev_string word]
               end in
  match s with
  | EmptyString => flush
  | String c s' =>
      if is_space c then flush ++ words_from s' ""
      else words_from s' (String c word)
  end.

Definition words (s : string) : list string := words_from s "".

(** Modelled from the spec: [senza.utils.pystache_render] and the
    template engine behind it are not among the sources.  The spec
    names interpolation [{{key}}] (a missing key gives the empty
    string), boolean sections [{{#key}}...{{/key}}], rendered iff the
    value of [key] is truthy, inverted sections [{{^key}}...{{/key}}],
    rendered iff it is falsy or absent, and the change of delimiters
    [{{=<% %>=}}], after which the old markers are plain text.
    Rendering raises for a malformed template only.  The spec is
    silent on escaping and on the white space around a tag that stands
    alone on its line: values are written as [str] gives them, the
    white space is kept, and any tag content without one of the marks
    [#], [^], [/], [=] is read as a key. *)
Inductive token : Type :=
| TText (s : string)
| TVar (k : string)
| TOpen (k : string)
| TInverted (k : string)
| TClose (k : string).

Record delimiters : Type := { d_open : string; d_close : string }.

Definition default_delimiters : delimiters :=
  {| d_open := "{{"; d_close := "}}" |}.

Inductive tag : Type :=
| Tok (t : token)
| SetDelimiters (d : delimiters)
| BadTag.

(** What a tag says, from the text between its delimiters. *)
Definition classify (content : string) : tag :=
  match content with
  | String "#" k => Tok (TOpen (strip k))
  | String "^" k => Tok (TInverted (strip k))
  | String "/" k => Tok (TClose (strip k))
  | String "=" rest =>
      match rev_string rest with
      | String "=" inner =>
          match words (rev_string inner) with
          | [o; c] => SetDelimiters {| d_open := o; d_close := c |}
          | _ => BadTag
          end
      | _ => BadTag
      end
  | _ => Tok (TVar (strip content))
  end.

Definition flush_text (acc : string) (out : list token) : list token :=
  match acc with
  | EmptyString => out
  | _ => TText (rev_string acc) :: out
  end.

(** The scanner.  [skip] characters of a delimiter just recognised are
    still to be passed over; [acc] holds, in reverse, the text or the
    tag content read so far; a text token ends with its line. *)
Fixpoint scan (s : string) (skip : nat) (d : delimiters) (in_tag : bool)
    (acc : string) (out : list token) : option (list token) :=
  match s with
  | EmptyString =>
      if in_tag then None else Some (rev (flush_text acc out))
  | String c s' =>
      match skip with
      | S n => scan s' n d in_tag acc out
      | O =>
          if in_tag then
            if String.prefix (d_close d) s then
              match classify (strip (rev_string acc)) with
              | Tok t =>
                  scan s' (String.length (d_close d) - 1) d false "" (t :: out)
              | SetDelimiters d' =>
                  scan s' (String.length (d_close d) - 1) d' false "" out
              | BadTag => None
              end
            else scan s' 0 d true (String c acc) out
          else
            if String.prefix (d_open d) s then
              scan s' (String.length (d_open d) - 1) d true "" (flush_text acc out)
            else if Ascii.eqb c (ascii_of_nat 10) then
              scan s' 0 d false "" (TText (rev_string (String c acc)) :: out)
            else scan s' 0 d false (String c acc) out
      end
  end.

#[warning="-register-all"]
Inductive node : Type :=
| Text (s : string)
| Var (k : string)
| Section (k : string) (body : list node)
| Inverted (k : string) (body : list node).

(** The tree of sections.  [cur] holds, in reverse, the nodes of the
    section being read; [stack] the sections around it, each with its
    kind, its key and the nodes read before it. *)
Fixpoint build (ts : list token) (cur : list node)
    (stack : list (bool * string * list node)) : option (list node) :=
  match ts with
  | [] => match stack with
          | [] => Some (rev cur)
          | _ :: _ => None
          end
  | TText s :: ts' => build ts' (Text s :: cur) stack
  | TVar k :: ts' => build ts' (Var k :: cur) stack
  | TOpen k :: ts' => build ts' [] ((false, k, cur) :: stack)
  | TInverted k :: ts' => build ts' [] ((true, k, cur) :: stack)
  | TClose k :: ts' =>
      match stack with
      | (inverted, k', parent) :: stack' =>
          if String.eqb k k' then
            build ts'
                  ((if inverted then Inverted k (rev cur)
                    else Section k (rev cur)) :: parent)
                  stack'
          else None
      | [] => None
      end
  end.

(** The nodes of a template, or nothing when a tag is left open, a
    section is not closed or is closed under another key. *)
Definition parse (template : string) : option (list node) :=
  match scan template 0 default_delimiters false "" [] with
  | Some ts => build ts [] []
  | None => None
  end.

(** The value of [k] is truthy; an absent key is falsy. *)
Definition truthy_at (k : string) (variables : dict) : bool :=
  match get k variables with
  | Some v => truthy v
  | None => false
  end.

(** The text written for [{{k}}]. *)
Definition interpolate (k : string) (variables : dict) : string :=
  match get k variables with
  | Some v => py_str v
  | None => ""
  end.

(** The text of a node: a section is rendered, with the same mapping,
    iff the value of its key is truthy; an inverted section iff it is
    not. *)
Fixpoint render_node (variables : dict) (n : node) : string :=
  match n with
  | Text s => s
  | Var k => interpolate k variables
  | Section k body =>
      if truthy_at k variables then
        (fix render_body (l : list node) : string :=
           match l with
           | [] => ""
           | n' :: l' => render_node variables n' ++ render_body l'
           end) body
      else ""
  | Inverted k body =>
      if truthy_at k variables then ""
      else
        (fix render_body (l : list node) : string :=
           match l with
           | [] => ""
           | n' :: l' => render_node variables n' ++ render_body l'
           end) body
  end.

Fixpoint render_nodes (variables : dict) (l : list node) : string :=
  match l with
  | [] => ""
  | n :: l' => render_node variables n ++ render_nodes variables l'
  end.

(** Modelled from the spec: [pystache_render(template, variables)] of
    [senza.utils], which is not among the sources.  The template is
    parsed and its nodes are rendered with the mapping; by the spec
    rendering raises for a malformed template only, never for a
    missing key. *)
Definition pystache_render (template : string) (variables : dict)
  : result string :=
  match parse template with
  | Some nodes => Ok (render_nodes variables nodes)
  | None => Raise ParsingError
  end.

(** The nodes of a template, none for a malformed one. *)
Definition nodes_of (template : string) : list node :=
  match parse template with
  | Some nodes => nodes
  | None => []
  end.

(** [nodes] with the body of every section on [k] emptied: the boolean
    sections for [inverted = false], the inverted ones otherwise;
    sections nested in other sections are left as they are. *)
Definition drop_body (inverted : bool) (k : string) (nodes : list node)
  : list node :=
  map (fun n =>
         match n with
         | Section k' _ =>
             if negb inverted && String.eqb k k' then Section k' [] else n
         | Inverted k' _ =>
             if inverted && String.eqb k k' then Inverted k' [] else n
         | _ => n
         end) nodes.

(** ** The system random source *)

(** [random.SystemRandom()] draws from the operating system's entropy.
    The source is modelled as the sequence of its raw draws and a
    position in it; [_randbelow(n)] consumes one draw and returns a
    number below [n].  The draws that CPython repeats to keep that
    number uniform are not modelled: here each number costs one
    draw. *)
Record rng : Type := { draws : nat -> nat; pos : nat }.

Definition randbelow (n : nat) (g : rng) : nat * rng :=
  (Nat.modulo (draws g (pos g)) n, {| draws := draws g; pos := S (pos g) |}).

(** [SystemRandom().choice(seq)]: [seq[_randbelow(len(seq))]], an
    [IndexError] on an empty sequence. *)
Definition choice (seq : string) (g : rng) : result ascii * rng :=
  match String.length seq with
  | O => (Raise IndexError, g)
  | n =>
      let (i, g') := randbelow n g in
      match String.get i seq with
      | Some c => (Ok c, g')
      | None => (Raise IndexError, g')
      end
  end.

Definition ascii_uppercase : string := "ABCDEFGHIJKLMNOPQRSTUVWXYZ".
Definition digits : string := "0123456789".

(** ** Operations on values *)

(** [v.attr] for a string method, an [AttributeError] on any other
    value. *)
Definition as_str (v : value) : result string :=
  match v with
  | VStr s => Ok s
  | _ => Raise AttributeError
  end.

(** [v[-1:]] and [v[:-1]]: defined on strings, a [TypeError] on the
    other scalars. *)
Fixpoint last_char (s : string) : string :=
  match s with
  | EmptyString => ""
  | String c EmptyString => String c ""
  | String _ s' => last_char s'
  end.

Fixpoint drop_last (s : string) : string :=
  match s with
  | EmptyString => ""
  | String _ EmptyString => ""
  | String c s' => String c (drop_last s')
  end.

Definition slice_last (v : value) : result string :=
  match v with
  | VStr s => Ok (last_char s)
  | _ => Raise TypeError
  end.

Definition slice_init (v : value) : result string :=
  match v with
  | VStr s => Ok (drop_last s)
  | _ => Raise TypeError
  end.

(** [v + s] for a string [s]. *)
Definition add_str (v : value) (s : string) : result value :=
  match v with
  | VStr t => Ok (VStr (t ++ s))
  | _ => Raise TypeError
  end.

Fixpoint repeat_string (s : string) (n : nat) : string :=
  match n with
  | O => ""
  | S n' => s ++ repeat_string s n'
  end.

(** [v * n] for an integer [n]. *)
Definition mul_int (v : value) (n : Z) : result value :=
  match v with
  | VInt z => Ok (VInt (z * n))
  | VBool b => Ok (VInt (Z.b2z b * n))
  | VStr s => Ok (VStr (repeat_string s (Z.to_nat n)))
  | VNone => Raise TypeError
  end.

(** [needle in v] for a string [needle]: a substring test on a string,
    a [TypeError] on the other scalars. *)
Definition value_contains (needle : string) (v : value) : result bool :=
  match v with
  | VStr s => Ok (str_contains needle s)
  | _ => Raise TypeError
  end.

Definition is_upper (c : ascii) : bool :=
  let n := nat_of_ascii c in Nat.leb 65 n && Nat.leb n 90.

Definition is_lower (c : ascii) : bool :=
  let n := nat_of_ascii c in Nat.leb 97 n && Nat.leb n 122.

Definition to_lower (c : ascii) : ascii :=
  if is_upper c then ascii_of_nat (nat_of_ascii c + 32) else c.

Definition to_upper (c : ascii) : ascii :=
  if is_lower c then ascii_of_nat (nat_of_ascii c - 32) else c.

(** [s.lower()], on ASCII letters. *)
Fixpoint lower (s : string) : string :=
  match s with
  | EmptyString => ""
  | String c s' => String (to_lower c) (lower s')
  end.

(** [s.title()], on ASCII letters: a letter that follows a letter is
    lowered, any other letter is raised. *)
Fixpoint title_from (after_letter : bool) (s : string) : string :=
  match s with
  | EmptyString => ""
  | String c s' =>
      let letter := is_upper c || is_lower c in
      String (if after_letter then to_lower c else to_upper c)
             (title_from letter s')
  end.

Definition title (s : string) : string := title_from false s.

(** [s.split(sep)] for a one-character separator. *)
Fixpoint split_from (sep : ascii) (s : string) (part : string) : list string :=
  match s with
  | EmptyString => [rev_string part]
  | String c s' =>
      if Ascii.eqb c sep then rev_string part :: split_from sep s' ""
      else split_from sep s' (String c part)
  end.

Definition split (sep : ascii) (s : string) : list string :=
  split_from sep s "".

(** [''.join(parts)]. *)
Definition join (parts : list string) : string := String.concat "" parts.

(** [s.startswith(p)]. *)
Definition startswith (p s : string) : bool := String.prefix p s.

(** [s.rfind(c)] for a character [c]: the index of its last
    occurrence, or [-1]. *)
Fixpoint rfind (c : ascii) (s : string) : Z :=
  match s with
  | EmptyString => (-1)%Z
  | String c' s' =>
      let r := rfind c s' in
      if Z.eqb r (-1) then (if Ascii.eqb c' c then 0%Z else (-1)%Z)
      else (r + 1)%Z
  end.

(** [s[:n]] for [0 <= n]. *)
Definition take (n : Z) (s : string) : string :=
  String.substring 0 (Z.to_nat n) s.

(** ** State and exceptions *)

(** What a run of [gather_user_variables] acts on: the variable
    mapping it was given, which it updates in place and returns; the
    files written; the lines sent to the terminal; the entropy source;
    and the outside world [W] of the operator and the services. *)
Record state (W : Type) : Type := {
  variables : dict;
  files : list (string * string);
  terminal : list string;
  entropy : rng;
  world : W
}.

Arguments variables {W} s.
Arguments files {W} s.
Arguments terminal {W} s.
Arguments entropy {W} s.
Arguments world {W} s.

(** A computation: from a state to a value or an exception, and the
    state reached. *)
Definition M (W A : Type) : Type := state W -> result A * state W.

Definition ret {W A : Type} (a : A) : M W A := fun st => (Ok a, st).

Definition raise {W A : Type} (e : exn) : M W A := fun st => (Raise e, st).

Definition bind {W A B : Type} (m : M W A) (k : A -> M W B) : M W B :=
  fun st =>
    match m st with
    | (Ok a, st') => k a st'
    | (Raise e, st') => (Raise e, st')
    end.

Declare Scope monad_scope.
Delimit Scope monad_scope with monad.

Notation "x <- m ;; k" := (bind m (fun x => k))
  (at level 61, m at next level, right associativity) : monad_scope.
Notation "m ;; k" := (bind m (fun _ => k))
  (at level 61, right associativity) : monad_scope.

(** A pure step that may raise. *)
Definition lift {W A : Type} (r : result A) : M W A := fun st => (r, st).

(** A call to the outside world. *)
Definition call {W A : Type} (f : W -> result A * W) : M W A :=
  fun st =>
    let (r, w) := f (world st) in
    (r, {| variables := variables st; files := files st;
           terminal := terminal st; entropy := entropy st; world := w |}).

(** [variables[k]]. *)
Definition getvar {W : Type} (k : string) : M W value :=
  fun st =>
    match get k (variables st) with
    | Some v => (Ok v, st)
    | None => (Raise (KeyError k), st)
    end.

Definition update {W : Type} (f : dict -> dict) : M W unit :=
  fun st =>
    (Ok tt, {| variables := f (variables st); files := files st;
               terminal := terminal st; entropy := entropy st;
               world := world st |}).

(** [variables[k] = v]. *)
Definition setvar {W : Type} (k : string) (v : value) : M W unit :=
  update (setitem k v).

(** The whole mapping, as [return variables] gives it. *)
Definition getvars {W : Type} : M W dict := fun st => (Ok (variables st), st).

(** A line on the terminal. *)
Definition echo {W : Type} (line : string) : M W unit :=
  fun st =>
    (Ok tt, {| variables := variables st; files := files st;
               terminal := terminal st ++ [line]; entropy := entropy st;
               world := world st |}).

(** A draw from the entropy source. *)
Definition random {W A : Type} (f : rng -> result A * rng) : M W A :=
  fun st =>
    let (r, g) := f (entropy st) in
    (r, {| variables := variables st; files := files st;
           terminal := terminal st; entropy := g; world := world st |}).

(** [path] bound to [content] in the files, in place of any earlier
    content. *)
Fixpoint put_file (path content : string) (fs : list (string * string))
  : list (string * string) :=
  match fs with
  | [] => [(path, content)]
  | (p, c) :: fs' =>
      if String.eqb path p then (p, content) :: fs'
      else (p, c) :: put_file path content fs'
  end.

Definition store {W : Type} (path content : string) : M W unit :=
  fun st =>
    (Ok tt, {| variables := variables st;
               files := put_file path content (files st);
               terminal := terminal st; entropy := entropy st;
               world := world st |}).

(** ** The collaborators *)

(** [account_info]: the fields the templates read. *)
Record account_info : Type := {
  Domain : option string;
  VpcID : string;
  Region : string
}.

(** A key as [list_kms_keys] describes it. *)
Record kms_key : Type := {
  KeyId : string;
  Description : string;
  Arn : string;
  aliases : list string
}.

(** A security group attached to an instance, as [describe_instances]
    describes it. *)
Record group_ref : Type := { GroupId : string; GroupName : string }.

(** The keyword arguments of a prompt. *)
Record prompt_args : Type := {
  default : option value;
  show_default : bool;
  hide_input : bool;
  confirmation_prompt : bool;
  as_int : bool;
  value_proc : option (nat * string)
}.

(** A prompt with the default [d] and nothing else. *)
Definition with_default (d : value) : prompt_args :=
  {| default := Some d; show_default := true; hide_input := false;
     confirmation_prompt := false; as_int := false; value_proc := None |}.

Definition no_default : prompt_args :=
  {| default := None; show_default := true; hide_input := false;
     confirmation_prompt := false; as_int := false; value_proc := None |}.

(** A masked prompt, asked twice, with the default [d]. *)
Definition secret (show : bool) (d : value) : prompt_args :=
  {| default := Some d; show_default := show; hide_input := true;
     confirmation_prompt := true; as_int := false; value_proc := None |}.

(** The libraries and services the templates call ([click],
    [clickclick], [requests], [boto3], [senza.aws]) and the helpers of
    [senza.templates._helper] that reach them.  Each is a function of
    the outside world, which it may change, and may raise.
    [container_text] and [list_text] are the texts Python writes for a
    decoded list or dict and for a list of strings. *)
Record collaborators (W : Type) : Type := {
  click_confirm : string -> bool -> W -> result bool * W;
  click_prompt : string -> prompt_args -> W -> result value * W;
  clickclick_choice :
    string -> list (string * string) -> option string -> W -> result string * W;
  requests_get : string -> W -> result response * W;
  get_account_alias : W -> result string * W;
  get_vpc_attribute : string -> string -> string -> W -> result value * W;
  get_security_group : string -> string -> W -> result (option string) * W;
  describe_instances :
    string -> list (string * list string) -> W
    -> result (list (list (list group_ref))) * W;
  list_kms_keys : string -> W -> result (list kms_key) * W;
  encrypt : string -> string -> value -> W -> result string * W;
  check_s3_bucket : value -> string -> W -> result unit * W;
  get_mint_bucket_name : string -> W -> result value * W;
  open_for_writing : string -> W -> result unit * W;
  container_text : json -> string;
  list_text : list string -> string
}.

Arguments click_confirm {W} c _ _ _.
Arguments click_prompt {W} c _ _ _.
Arguments clickclick_choice {W} c _ _ _ _.
Arguments requests_get {W} c _ _.
Arguments get_account_alias {W} c _.
Arguments get_vpc_attribute {W} c _ _ _ _.
Arguments get_security_group {W} c _ _ _.
Arguments describe_instances {W} c _ _ _.
Arguments list_kms_keys {W} c _ _.
Arguments encrypt {W} c _ _ _ _.
Arguments check_s3_bucket {W} c _ _ _.
Arguments get_mint_bucket_name {W} c _ _.
Arguments open_for_writing {W} c _ _.
Arguments container_text {W} c _.
Arguments list_text {W} c _.

Section Helpers.

Context {W : Type} (c : collaborators W).

Local Open Scope monad_scope.

(** The default of a prompt: a literal, or a function without
    arguments that is called when the prompt is made. *)
Inductive default_arg : Type :=
| Literal (v : value)
| Callable (f : M W value).

(** Modelled from the spec: [prompt] of [senza.templates._helper] is
    not among the sources.  By the spec a prompt solicits a value for
    its key from the operator, with a default that is a literal or a
    function evaluated lazily, an optional validation, masking and
    confirmation; the value obtained is bound to the key. *)
Definition prompt (var_name text : string) (d : default_arg)
    (args : value -> prompt_args) : M W unit :=
  dv <- match d with
        | Literal v => ret v
        | Callable f => f
        end ;;
  v <- call (click_prompt c text (args dv)) ;;
  setvar var_name v.

(** A prompt without a default. *)
Definition prompt_bare (var_name text : string) : M W unit :=
  v <- call (click_prompt c text no_default) ;;
  setvar var_name v.

(** Modelled from the spec: [choice] of [senza.templates._helper] is
    not among the sources; the value of the option chosen is bound to
    the key. *)
Definition choice_var (var_name text : string)
    (options : list (string * string)) (d : string) : M W unit :=
  v <- call (clickclick_choice c text options (Some d)) ;;
  setvar var_name (VStr v).

(** Modelled from the spec: [confirm] of [senza.templates._helper] is
    not among the sources; a yes/no question to the operator. *)
Definition confirm (text : string) : M W bool :=
  call (click_confirm c text false).

(** [warning], [info] and the head line of [Action] of [clickclick]:
    a line on the terminal. *)
Definition warning (msg : string) : M W unit := echo msg.
Definition info (msg : string) : M W unit := echo msg.

(** [with Action(msg): body]: the message, then the body; what the
    body raises goes on to the caller. *)
Definition Action {A : Type} (msg : string) (body : M W A) : M W A :=
  echo msg ;; body.

(** [with open(path, 'w') as file: file.write(content)].  The opening
    may raise; that it empties the file before anything is written,
    and that the writing may fail after it, is not modelled: the
    content is stored in one step. *)
Definition write_file (path content : string) : M W unit :=
  call (open_for_writing c path) ;;
  store path content.

End Helpers.

(** ** [postgresapp]: constants and the defaulting step *)

Module Postgresapp.

Definition POSTGRES_PORT : Z := 5432.
Definition HEALTHCHECK_PORT : Z := 8008.
Definition SPILO_IMAGE_ADDRESS : string :=
  "registry.opensource.zalan.do/acid/spilo-9.4".

(** [TEMPLATE], from its first line to the opening of the first [{{^docker_image}}] section. *)
Definition TEMPLATE_info : list string :=
  [
    "";
    "# basic information for generating and executing this definition";
    "SenzaInfo:";
    "  StackName: spilo";
    "  {{^docker_image}}" ].

(** The [ImageVersion] parameter block, the body of that section. *)
Definition TEMPLATE_image_version : list string :=
  [
    "  Parameters:";
    "    - ImageVersion:";
    "        Description: " ++ q "Docker image version of spilo." ].

(** From the end of that section to the opening of [{{#use_ebs}}]. *)
Definition TEMPLATE_components : list string :=
  [
    "  {{/docker_image}}";
    "  Tags:";
    "    - SpiloCluster: " ++ q "{{version}}";
    "";
    "# a list of senza components to apply to the definition";
    "SenzaComponents:";
    "";
    "  # this basic configuration is required for the other components";
    "  - Configuration:";
    "      Type: Senza::StupsAutoConfiguration # auto-detect network setup";
    "";
    "  # will create a launch configuration and auto scaling group with scaling triggers";
    "  - AppServer:";
    "      Type: Senza::TaupageAutoScalingGroup";
    "      AutoScaling:";
    "        Minimum: 3";
    "        Maximum: 3";
    "        MetricType: CPU";
    "      InstanceType: {{instance_type}}";
    "      {{#ebs_optimized}}";
    "      EbsOptimized: True";
    "      {{/ebs_optimized}}";
    "      BlockDeviceMappings:";
    "        - DeviceName: /dev/xvdk";
    "          {{#use_ebs}}" ].

(** The [Ebs:] block, the body of the [{{#use_ebs}}] section. *)
Definition TEMPLATE_ebs : list string :=
  [
    "          Ebs:";
    "            VolumeSize: {{volume_size}}";
    "            VolumeType: {{volume_type}}";
    "            {{#snapshot_id}}";
    "            SnapshotId: {{snapshot_id}}";
    "            {{/snapshot_id}}";
    "            {{#volume_iops}}";
    "            Iops: {{volume_iops}}";
    "            {{/volume_iops}}" ].

(** The end of [{{#use_ebs}}] and the opening of [{{^use_ebs}}]. *)
Definition TEMPLATE_ebs_else : list string :=
  [
    "          {{/use_ebs}}";
    "          {{^use_ebs}}" ].

(** The body of the [{{^use_ebs}}] section. *)
Definition TEMPLATE_ephemeral : list string :=
  [
    "          VirtualName: ephemeral0" ].

(** From the end of [{{^use_ebs}}] to the opening of [{{#docker_image}}]. *)
Definition TEMPLATE_taupage : list string :=
  [
    "          {{/use_ebs}}";
    "      ElasticLoadBalancer:";
    "        - PostgresLoadBalancer";
    "        {{#add_replica_loadbalancer}}";
    "        - PostgresReplicaLoadBalancer";
    "        {{/add_replica_loadbalancer}}";
    "      HealthCheckType: EC2";
    "      SecurityGroups:";
    "        - Fn::GetAtt:";
    "          - SpiloMemberSG";
    "          - GroupId";
    "      IamRoles:";
    "        - Ref: PostgresAccessRole";
    "      AssociatePublicIpAddress: false # change for standalone deployment in default VPC";
    "      TaupageConfig:";
    "        runtime: Docker";
    "        {{#docker_image}}" ].

(** The body of the [{{#docker_image}}] section. *)
Definition TEMPLATE_source_image : list string :=
  [
    "        source: {{docker_image}}" ].

(** The end of [{{#docker_image}}] and the opening of the second [{{^docker_image}}]. *)
Definition TEMPLATE_source_else : list string :=
  [
    "        {{/docker_image}}";
    "        {{^docker_image}}" ].

(** The body of the second [{{^docker_image}}] section. *)
Definition TEMPLATE_source_parameter : list string :=
  [
    "        source: " ++ q "{{ImageVersion}}" ].

(** The rest of [TEMPLATE], from the end of that section. *)
Definition TEMPLATE_resources : list string :=
  [
    "        {{/docker_image}}";
    "        ports:";
    "          {{postgres_port}}: {{postgres_port}}";
    "          {{healthcheck_port}}: {{healthcheck_port}}";
    "        etcd_discovery_domain: " ++ q "{{discovery_domain}}";
    "        environment:";
    "          SCOPE: " ++ q "{{version}}";
    "          ETCD_DISCOVERY_DOMAIN: " ++ q "{{discovery_domain}}";
    "          WAL_S3_BUCKET: " ++ q "{{wal_s3_bucket}}";
    "          PGPASSWORD_SUPERUSER: " ++ q "{{pgpassword_superuser}}";
    "          PGPASSWORD_ADMIN: " ++ q "{{pgpassword_admin}}";
    "          PGPASSWORD_STANDBY: " ++ q "{{pgpassword_standby}}";
    "        root: True";
    "        mounts:";
    "          /home/postgres/pgdata:";
    "            partition: /dev/xvdk";
    "            filesystem: {{fstype}}";
    "            {{#snapshot_id}}";
    "            erase_on_boot: false";
    "            {{/snapshot_id}}";
    "            {{^snapshot_id}}";
    "            erase_on_boot: true";
    "            {{/snapshot_id}}";
    "            options: {{fsoptions}}";
    "        {{#scalyr_account_key}}";
    "        scalyr_account_key: {{scalyr_account_key}}";
    "        {{/scalyr_account_key}}";
    "Resources:";
    "  {{#add_replica_loadbalancer}}";
    "  PostgresReplicaRoute53Record:";
    "    Type: AWS::Route53::RecordSet";
    "    Properties:";
    "      Type: CNAME";
    "      TTL: 20";
    "      HostedZoneName: {{hosted_zone}}";
    "      Name: " ++ q "{{version}}-replica.{{hosted_zone}}";
    "      ResourceRecords:";
    "        - Fn::GetAtt:";
    "           - PostgresReplicaLoadBalancer";
    "           - DNSName";
    "  PostgresReplicaLoadBalancer:";
    "    Type: AWS::ElasticLoadBalancing::LoadBalancer";
    "    Properties:";
    "      CrossZone: true";
    "      HealthCheck:";
    "        HealthyThreshold: 2";
    "        Interval: 5";
    "        Target: HTTP:{{healthcheck_port}}/replica";
    "        Timeout: 3";
    "        UnhealthyThreshold: 2";
    "      Listeners:";
    "        - InstancePort: {{postgres_port}}";
    "          LoadBalancerPort: {{postgres_port}}";
    "          Protocol: TCP";
    "      LoadBalancerName: " ++ q "spilo-{{version}}-replica";
    "      ConnectionSettings:";
    "        IdleTimeout: 3600";
    "      SecurityGroups:";
    "        - Fn::GetAtt:";
    "          - SpiloReplicaSG";
    "          - GroupId";
    "      Scheme: internal";
    "      Subnets:";
    "        Fn::FindInMap:";
    "          - LoadBalancerSubnets";
    "          - Ref: AWS::Region";
    "          - Subnets";
    "  {{/add_replica_loadbalancer}}";
    "  PostgresRoute53Record:";
    "    Type: AWS::Route53::RecordSet";
    "    Properties:";
    "      Type: CNAME";
    "      TTL: 20";
    "      HostedZoneName: {{hosted_zone}}";
    "      Name: " ++ q "{{version}}.{{hosted_zone}}";
    "      ResourceRecords:";
    "        - Fn::GetAtt:";
    "           - PostgresLoadBalancer";
    "           - DNSName";
    "  PostgresLoadBalancer:";
    "    Type: AWS::ElasticLoadBalancing::LoadBalancer";
    "    Properties:";
    "      CrossZone: true";
    "      HealthCheck:";
    "        HealthyThreshold: 2";
    "        Interval: 5";
    "        Target: HTTP:{{healthcheck_port}}/master";
    "        Timeout: 3";
    "        UnhealthyThreshold: 2";
    "      Listeners:";
    "        - InstancePort: {{postgres_port}}";
    "          LoadBalancerPort: {{postgres_port}}";
    "          Protocol: TCP";
    "      LoadBalancerName: " ++ q "spilo-{{version}}";
    "      ConnectionSettings:";
    "        IdleTimeout: 3600";
    "      SecurityGroups:";
    "        - Fn::GetAtt:";
    "          - SpiloMasterSG";
    "          - GroupId";
    "      Scheme: internal";
    "      Subnets:";
    "        Fn::FindInMap:";
    "          - LoadBalancerSubnets";
    "          - Ref: AWS::Region";
    "          - Subnets";
    "  PostgresAccessRole:";
    "    Type: AWS::IAM::Role";
    "    Properties:";
    "      AssumeRolePolicyDocument:";
    "        Version: " ++ q "2012-10-17";
    "        Statement:";
    "        - Effect: Allow";
    "          Principal:";
    "            Service: ec2.amazonaws.com";
    "          Action: sts:AssumeRole";
    "      Path: /";
    "      Policies:";
    "      - PolicyName: SpiloEC2S3KMSAccess";
    "        PolicyDocument:";
    "          Version: " ++ q "2012-10-17";
    "          Statement:";
    "          - Effect: Allow";
    "            Action:";
    "              - s3:ListBucket";
    "            Resource:";
    "              - " ++ q "arn:aws:s3:::{{wal_s3_bucket}}";
    "              - " ++ q "arn:aws:s3:::{{wal_s3_bucket}}/*";
    "          - Effect: Allow";
    "            Action:";
    "              - s3:*";
    "            Resource:";
    "              - " ++ q "arn:aws:s3:::{{wal_s3_bucket}}/spilo/{{version}}/*";
    "          - Effect: Allow";
    "            Action: ec2:CreateTags";
    "            Resource: " ++ q "*";
    "          - Effect: Allow";
    "            Action: ec2:Describe*";
    "            Resource: " ++ q "*";
    "          {{#kms_arn}}";
    "          - Effect: Allow";
    "            Action:";
    "              - " ++ q "kms:Decrypt";
    "              - " ++ q "kms:Encrypt";
    "            Resource:";
    "              - {{kms_arn}}";
    "          {{/kms_arn}}";
    "  SpiloMasterSG:";
    "    Type: " ++ q "AWS::EC2::SecurityGroup";
    "    Properties:";
    "      GroupDescription: " ++ q "Security Group for the master ELB of Spilo: {{version}}";
    "      SecurityGroupIngress:";
    "        - IpProtocol: tcp";
    "          FromPort: {{postgres_port}}";
    "          ToPort: {{postgres_port}}";
    "          CidrIp: {{elb_access_cidr}}";
    "  {{#add_replica_loadbalancer}}";
    "  SpiloReplicaSG:";
    "    Type: " ++ q "AWS::EC2::SecurityGroup";
    "    Properties:";
    "      GroupDescription: " ++ q "Security Group for the replica ELB of Spilo: {{version}}";
    "      SecurityGroupIngress:";
    "        - IpProtocol: tcp";
    "          FromPort: {{postgres_port}}";
    "          ToPort: {{postgres_port}}";
    "          CidrIp: {{elb_access_cidr}}";
    "  {{/add_replica_loadbalancer}}";
    "  SpiloMemberSG:";
    "    Type: " ++ q "AWS::EC2::SecurityGroup";
    "    Properties:";
    "      GroupDescription: " ++ q "Security Group for members of Spilo: {{version}}";
    "      SecurityGroupIngress:";
    "        - IpProtocol: tcp";
    "          FromPort: {{postgres_port}}";
    "          ToPort: {{postgres_port}}";
    "          SourceSecurityGroupId:";
    "            Fn::GetAtt:";
    "              - SpiloMasterSG";
    "              - GroupId";
    "        - IpProtocol: tcp";
    "          FromPort: {{healthcheck_port}}";
    "          ToPort: {{healthcheck_port}}";
    "          SourceSecurityGroupId:";
    "            Fn::GetAtt:";
    "              - SpiloMasterSG";
    "              - GroupId";
    "";
    "        {{#add_replica_loadbalancer}}";
    "        - IpProtocol: tcp";
    "          FromPort: {{postgres_port}}";
    "          ToPort: {{postgres_port}}";
    "          SourceSecurityGroupId:";
    "            Fn::GetAtt:";
    "              - SpiloReplicaSG";
    "              - GroupId";
    "        - IpProtocol: tcp";
    "          FromPort: {{healthcheck_port}}";
    "          ToPort: {{healthcheck_port}}";
    "          SourceSecurityGroupId:";
    "            Fn::GetAtt:";
    "              - SpiloReplicaSG";
    "              - GroupId";
    "        {{/add_replica_loadbalancer}}";
    "        {{#zmon_sg_id}}";
    "        - IpProtocol: tcp";
    "          FromPort: {{postgres_port}}";
    "          ToPort: {{postgres_port}}";
    "          SourceSecurityGroupId: " ++ q "{{zmon_sg_id}}";
    "        - IpProtocol: tcp";
    "          FromPort: {{healthcheck_port}}";
    "          ToPort: {{healthcheck_port}}";
    "          SourceSecurityGroupId: " ++ q "{{zmon_sg_id}}";
    "        {{/zmon_sg_id}}";
    "        {{#odd_sg_id}}";
    "        - IpProtocol: tcp";
    "          FromPort: 0";
    "          ToPort: 65535";
    "          SourceSecurityGroupId: " ++ q "{{odd_sg_id}}";
    "        {{/odd_sg_id}}";
    "  SpiloMemberIngressMembers:";
    "    Type: " ++ q "AWS::EC2::SecurityGroupIngress";
    "    Properties:";
    "      GroupId:";
    "        Fn::GetAtt:";
    "          - SpiloMemberSG";
    "          - GroupId";
    "      IpProtocol: tcp";
    "      FromPort: 0";
    "      ToPort: 65535";
    "      SourceSecurityGroupId:";
    "        Fn::GetAtt:";
    "          - SpiloMemberSG";
    "          - GroupId" ].

Definition TEMPLATE_parts : list (list string) :=
  [ TEMPLATE_info; TEMPLATE_image_version; TEMPLATE_components;
    TEMPLATE_ebs; TEMPLATE_ebs_else; TEMPLATE_ephemeral; TEMPLATE_taupage;
    TEMPLATE_source_image; TEMPLATE_source_else; TEMPLATE_source_parameter;
    TEMPLATE_resources ].

(** [TEMPLATE]: the lines of its parts, in their order. *)
Definition TEMPLATE : string := unlines (concat TEMPLATE_parts).

(** [TEMPLATE] with the body of one of its sections taken out. *)
Definition TEMPLATE_without_ebs : string :=
  unlines (concat
    [ TEMPLATE_info; TEMPLATE_image_version; TEMPLATE_components;
      TEMPLATE_ebs_else; TEMPLATE_ephemeral; TEMPLATE_taupage;
      TEMPLATE_source_image; TEMPLATE_source_else; TEMPLATE_source_parameter;
      TEMPLATE_resources ]).

Definition TEMPLATE_without_ephemeral : string :=
  unlines (concat
    [ TEMPLATE_info; TEMPLATE_image_version; TEMPLATE_components;
      TEMPLATE_ebs; TEMPLATE_ebs_else; TEMPLATE_taupage;
      TEMPLATE_source_image; TEMPLATE_source_else; TEMPLATE_source_parameter;
      TEMPLATE_resources ]).

Definition TEMPLATE_without_image_version : string :=
  unlines (concat
    [ TEMPLATE_info; TEMPLATE_components;
      TEMPLATE_ebs; TEMPLATE_ebs_else; TEMPLATE_ephemeral; TEMPLATE_taupage;
      TEMPLATE_source_image; TEMPLATE_source_else;
      TEMPLATE_resources ]).

Definition TEMPLATE_without_source_image : string :=
  unlines (concat
    [ TEMPLATE_info; TEMPLATE_image_version; TEMPLATE_components;
      TEMPLATE_ebs; TEMPLATE_ebs_else; TEMPLATE_ephemeral; TEMPLATE_taupage;
      TEMPLATE_source_else; TEMPLATE_source_parameter;
      TEMPLATE_resources ]).

(** [generate_definition(variables)]. *)
Definition generate_definition (variables : dict) : result string :=
  pystache_render TEMPLATE variables.

(** [set_default_variables(variables)]: the source's sequence of
    [setdefault] calls, in its order; the mapping is updated and
    returned. *)
Definition set_default_variables (variables : dict) : dict :=
  let variables := setdefault "version" (VStr "{{Arguments.version}}") variables in
  let variables := setdefault "ImageVersion" (VStr "{{Arguments.ImageVersion}}") variables in
  let variables := setdefault "discovery_domain" (VStr "postgres.example.com") variables in
  let variables := setdefault "docker_image" VNone variables in
  let variables := setdefault "ebs_optimized" VNone variables in
  let variables := setdefault "elb_access_cidr" (VStr "0.0.0.0/0") variables in
  let variables := setdefault "fsoptions" (VStr "noatime,nodiratime,nobarrier") variables in
  let variables := setdefault "fstype" (VStr "ext4") variables in
  let variables := setdefault "healthcheck_port" (VInt HEALTHCHECK_PORT) variables in
  let variables := setdefault "hosted_zone" (VStr "example.com") variables in
  let variables := setdefault "add_replica_loadbalancer" (VBool false) variables in
  let variables := setdefault "instance_type" (VStr "t2.micro") variables in
  let variables := setdefault "kms_arn" VNone variables in
  let variables := setdefault "odd_sg_id" VNone variables in
  let variables := setdefault "pgpassword_admin" (VStr "admin") variables in
  let variables := setdefault "pgpassword_standby" (VStr "standby") variables in
  let variables := setdefault "pgpassword_superuser" (VStr "zalando") variables in
  let variables := setdefault "postgres_port" (VInt POSTGRES_PORT) variables in
  let variables := setdefault "scalyr_account_key" VNone variables in
  let variables := setdefault "snapshot_id" VNone variables in
  let variables := setdefault "use_ebs" (VBool true) variables in
  let variables := setdefault "volume_iops" (VInt 300) variables in
  let variables := setdefault "volume_size" (VInt 10) variables in
  let variables := setdefault "volume_type" (VStr "gp2") variables in
  let variables := setdefault "wal_s3_bucket" VNone variables in
  let variables := setdefault "zmon_sg_id" VNone variables in
  variables.

(** The default table: each key [set_default_variables] names, with
    the default declared for it. *)
Definition default_table : list (string * value) :=
  [ ("version", VStr "{{Arguments.version}}");
    ("ImageVersion", VStr "{{Arguments.ImageVersion}}");
    ("discovery_domain", VStr "postgres.example.com");
    ("docker_image", VNone);
    ("ebs_optimized", VNone);
    ("elb_access_cidr", VStr "0.0.0.0/0");
    ("fsoptions", VStr "noatime,nodiratime,nobarrier");
    ("fstype", VStr "ext4");
    ("healthcheck_port", VInt 8008);
    ("hosted_zone", VStr "example.com");
    ("add_replica_loadbalancer", VBool false);
    ("instance_type", VStr "t2.micro");
    ("kms_arn", VNone);
    ("odd_sg_id", VNone);
    ("pgpassword_admin", VStr "admin");
    ("pgpassword_standby", VStr "standby");
    ("pgpassword_superuser", VStr "zalando");
    ("postgres_port", VInt 5432);
    ("scalyr_account_key", VNone);
    ("snapshot_id", VNone);
    ("use_ebs", VBool true);
    ("volume_iops", VInt 300);
    ("volume_size", VInt 10);
    ("volume_type", VStr "gp2");
    ("wal_s3_bucket", VNone);
    ("zmon_sg_id", VNone) ].

(** The generator expression of [generate_random_password]: [n] draws
    from [ascii_uppercase + digits], joined in the order drawn. *)
Fixpoint random_chars (n : nat) (g : rng) : result string * rng :=
  match n with
  | O => (Ok "", g)
  | S n' =>
      match choice (ascii_uppercase ++ digits) g with
      | (Ok c, g1) =>
          match random_chars n' g1 with
          | (Ok s, g2) => (Ok (String c s), g2)
          | (Raise e, g2) => (Raise e, g2)
          end
      | (Raise e, g1) => (Raise e, g1)
      end
  end.

(** [generate_random_password(length=64)]; [range(length)] is empty for
    a negative [length]. *)
Definition generate_random_password (length : Z) (g : rng) : result string * rng :=
  random_chars (Z.to_nat length) g.

(** The [for] loop of [get_latest_spilo_image] over the sorted entries:
    the first tag without ['SNAPSHOT'] ends the loop; until then
    [latest] keeps the first tag seen. *)
Fixpoint latest_tag (entries : list json) (latest : json) : result json :=
  match entries with
  | [] => Ok latest
  | entry :: rest =>
      let? tag := getitem entry "name" in
      let? snapshot := py_in "SNAPSHOT" tag in
      if negb snapshot then Ok tag
      else latest_tag rest (if json_truthy latest then latest else tag)
  end.

Definition DEFAULT_REGISTRY_URL : string := "https://registry.opensource.zalan.do".
Definition DEFAULT_ADDRESS : string := "/teams/acid/artifacts/spilo-9.4/tags".

(** The selection of [latest] from the decoded body: the entries
    sorted by creation date, newest first, then the loop. *)
Definition select_latest (body : json) : result json :=
  let? items := py_iter body in
  let? entries := sorted_reverse items (fun t => getitem t "created") in
  latest_tag entries JNull.

(** The body of the [try] block: [Ok (Some image)] when the [return]
    inside it is reached, [Ok None] when [r.ok] is false and control
    leaves the block, [Raise e] when a step raises. *)
Definition spilo_image_attempt (container_text : json -> string)
    (requests_get : string -> result response)
    (registry_url address : string) : result (option string) :=
  let? r := requests_get (registry_url ++ address) in
  if ok r then
    let? body := json_body r in
    let? latest := select_latest body in
    Ok (Some (SPILO_IMAGE_ADDRESS ++ ":" ++ json_str container_text latest))
  else Ok None.

(** [get_latest_spilo_image(registry_url, address)]: the bare [except]
    swallows whatever the block raises, and the function then returns
    the empty string.  [requests_get] is the outcome of
    [requests.get]. *)
Definition get_latest_spilo_image (container_text : json -> string)
    (requests_get : string -> result response)
    (registry_url address : string) : string :=
  match spilo_image_attempt container_text requests_get registry_url address with
  | Ok (Some image) => image
  | Ok None => ""
  | Raise _ => ""
  end.

(** [ebs_optimized_supported(instance_type)]: membership in the
    source's tuple; a value that is not a string is in no tuple of
    strings. *)
Definition ebs_optimized_supported (instance_type : value) : bool :=
  match instance_type with
  | VStr s =>
      existsb (String.eqb s)
        [ "c1.large"; "c3.xlarge"; "c3.2xlarge"; "c3.4xlarge";
          "c4.large"; "c4.xlarge"; "c4.2xlarge"; "c4.4xlarge"; "c4.8xlarge";
          "d2.xlarge"; "d2.2xlarge"; "d2.4xlarge"; "d2.8xlarge";
          "g2.2xlarge"; "i2.xlarge"; "i2.2xlarge"; "i2.4xlarge";
          "m1.large"; "m1.xlarge"; "m2.2xlarge"; "m2.4xlarge";
          "m3.xlarge"; "m3.2xlarge"; "r3.xlarge"; "r3.2xlarge";
          "r3.4xlarge" ]
  | _ => false
  end.

(** [d[k]] on a mapping held in a local variable. *)
Definition item (d : dict) (k : string) : result value :=
  match get k d with
  | Some v => Ok v
  | None => Raise (KeyError k)
  end.

Section Gather.

Context {W : Type} (c : collaborators W).

Local Open Scope monad_scope.

(** [get_latest_spilo_image()] with its default arguments, the
    registry being part of the outside world. *)
Definition latest_spilo_image : M W string :=
  call (fun w =>
          let (r, w') := requests_get c (DEFAULT_REGISTRY_URL ++ DEFAULT_ADDRESS) w in
          (Ok (get_latest_spilo_image (container_text c) (fun _ => r)
                 DEFAULT_REGISTRY_URL DEFAULT_ADDRESS), w')).

(** [generate_random_password()] as the default of a prompt. *)
Definition random_password : M W value :=
  s <- random (generate_random_password 64) ;;
  ret (VStr s).

(** The docker image, the WAL bucket and the instance type. *)
Definition choose_image_and_bucket (region : string) : M W unit :=
  now <- call (click_confirm c "Do you want to set the docker image now? [No]" false) ;;
  (if now then
     image <- latest_spilo_image ;;
     prompt c "docker_image" "Docker Image Version" (Literal (VStr image)) with_default
   else ret tt) ;;
  alias <- call (get_account_alias c) ;;
  prompt c "wal_s3_bucket" "Postgres WAL S3 bucket to use"
         (Literal (VStr (alias ++ "-" ++ region ++ "-spilo-app"))) with_default ;;
  prompt c "instance_type" "EC2 instance type" (Literal (VStr "t2.micro")) with_default.

(** The hosted zone: the domain of the account, or the default, with
    a dot at its end. *)
Definition choose_hosted_zone (account : account_info) (defaults : dict)
  : M W unit :=
  zone <- match Domain account with
          | Some d => if String.eqb d "" then lift (item defaults "hosted_zone")
                      else ret (VStr d)
          | None => lift (item defaults "hosted_zone")
          end ;;
  setvar "hosted_zone" zone ;;
  zone <- getvar "hosted_zone" ;;
  last <- lift (slice_last zone) ;;
  if negb (String.eqb last ".") then
    zone <- getvar "hosted_zone" ;;
    dotted <- lift (add_str zone ".") ;;
    setvar "hosted_zone" dotted
  else ret tt.

(** The discovery domain, the replica load balancer and the network
    that may reach the load balancers. *)
Definition choose_network (region : string) (account : account_info)
  : M W unit :=
  zone <- getvar "hosted_zone" ;;
  host <- lift (slice_init zone) ;;
  prompt c "discovery_domain" "ETCD Discovery Domain"
         (Literal (VStr ("postgres." ++ host))) with_default ;;
  replica <- call (click_confirm c "Do you want a replica ELB?" false) ;;
  setvar "add_replica_loadbalancer" (VBool replica) ;;
  cidr <- call (get_vpc_attribute c region (VpcID account) "cidr_block") ;;
  prompt c "elb_access_cidr"
         "Which network should be allowed to access the ELBs? (default=vpc)"
         (Literal cidr) with_default.

(** The security groups of the bastion host and of the zmon workers. *)
Definition choose_security_groups (region : string) : M W unit :=
  let odd_sg_name := "Odd (SSH Bastion Host)" in
  odd_sg <- call (get_security_group c region odd_sg_name) ;;
  match odd_sg with
  | Some group_id =>
      allow <- call (click_confirm c
                 ("Do you want to allow access to the Spilo nodes from "
                  ++ odd_sg_name ++ "?") true) ;;
      if allow then setvar "odd_sg_id" (VStr group_id) else ret tt
  | None => ret tt
  end ;;
  let filters := [ ("tag-key", ["StackName"]); ("tag-value", ["zmon-worker"]) ] in
  reservations <- call (describe_instances c region filters) ;;
  let zmon_sgs :=
    flat_map (fun reservation =>
      flat_map (fun instance =>
        map GroupId
            (filter (fun sg => str_contains "zmon" (GroupName sg)) instance))
        reservation) reservations in
  match zmon_sgs with
  | [] => warning "Could not find zmon security group"
  | first :: others =>
      call (click_confirm c
              "Do you want to allow access to the Spilo nodes from zmon?" true) ;;
      match others with
      | _ :: _ =>
          prompt_bare c "zmon_sg_id"
            ("Which Security Group should we allow access from? "
             ++ list_text c zmon_sgs)
      | [] => setvar "zmon_sg_id" (VStr first)
      end
  end.

(** The storage of the data directory, the file system and the
    scalyr key. *)
Definition choose_storage (defaults : dict) : M W unit :=
  instance_type <- getvar "instance_type" ;;
  name <- lift (as_str instance_type) ;;
  (if existsb (String.eqb (hd "" (split "." (lower name))))
              ["c3"; "g2"; "hi1"; "i2"; "m3"; "r3"] then
     d <- lift (item defaults "use_ebs") ;;
     ebs <- call (click_confirm c
               "Do you want database data directory on external (EBS) storage? [Yes]"
               (truthy d)) ;;
     setvar "use_ebs" (VBool ebs)
   else setvar "use_ebs" (VBool true)) ;;
  use_ebs <- getvar "use_ebs" ;;
  (if truthy use_ebs then
     d <- lift (item defaults "volume_size") ;;
     prompt c "volume_size" "Database volume size (GB, 10 or more)"
            (Literal d) with_default ;;
     d <- lift (item defaults "volume_type") ;;
     prompt c "volume_type" "Database volume type (gp2, io1 or standard)"
            (Literal d) with_default ;;
     volume_type <- getvar "volume_type" ;;
     (if value_eqb volume_type (VStr "io1") then
        volume_size <- getvar "volume_size" ;;
        pio_max <- lift (mul_int volume_size 30) ;;
        prompt c "volume_iops"
               ("Provisioned I/O operations per second (100 - "
                ++ py_str pio_max ++ ")")
               (Literal (VStr (py_str pio_max))) with_default
      else ret tt) ;;
     prompt c "snapshot_id" "ID of the snapshot to populate EBS volume from"
            (Literal (VStr "")) with_default ;;
     instance_type <- getvar "instance_type" ;;
     if ebs_optimized_supported instance_type
     then setvar "ebs_optimized" (VBool true) else ret tt
   else ret tt) ;;
  d <- lift (item defaults "fstype") ;;
  prompt c "fstype" "Filesystem for the data partition" (Literal d) with_default ;;
  d <- lift (item defaults "fsoptions") ;;
  prompt c "fsoptions" "Filesystem mount options (comma-separated)"
         (Literal d) with_default ;;
  prompt c "scalyr_account_key" "Account key for your scalyr account"
         (Literal (VStr "")) with_default.

(** The three passwords. *)
Definition choose_passwords (defaults : dict) : M W unit :=
  prompt c "pgpassword_superuser" "Password for PostgreSQL superuser [random]"
         (Callable random_password) (secret false) ;;
  prompt c "pgpassword_standby" "Password for PostgreSQL user standby [random]"
         (Callable random_password) (secret false) ;;
  d <- lift (item defaults "pgpassword_admin") ;;
  prompt c "pgpassword_admin" "Password for PostgreSQL user admin"
         (Literal d) (secret true).

(** The keys that can be used: those without the alias
    [alias/aws/ebs]. *)
Definition usable_keys (ks : list kms_key) : list kms_key :=
  filter (fun k => negb (existsb (String.eqb "alias/aws/ebs") (aliases k))) ks.

Definition NO_KMS_KEY : string :=
  "No KMS key is available for encrypting and decrypting. "
  ++ "Ensure you have at least 1 key available.".

(** The loop that encrypts every [pgpassword_] variable. *)
Fixpoint encrypt_each (region kms_keyid : string) (names : list string)
  : M W unit :=
  match names with
  | [] => ret tt
  | key :: rest =>
      plaintext <- getvar key ;;
      encrypted <- call (encrypt c region kms_keyid plaintext) ;;
      setvar key (VStr ("aws:kms:" ++ encrypted)) ;;
      encrypt_each region kms_keyid rest
  end.

(** The encryption of the passwords with KMS, on request. *)
Definition encrypt_passwords (region : string) : M W unit :=
  wanted <- call (click_confirm c
              "Do you wish to encrypt these passwords using KMS?" false) ;;
  if wanted then
    all_keys <- call (list_kms_keys c region) ;;
    let kms_keys := usable_keys all_keys in
    match kms_keys with
    | [] => raise (UsageError NO_KMS_KEY)
    | _ :: _ =>
        let options :=
          map (fun k => KeyId k ++ ": " ++ Description k) kms_keys in
        kms_key <- call (clickclick_choice c "Please select the encryption key"
                           (map (fun o => (o, o)) options) None) ;;
        let kms_keyid := hd "" (split ":" kms_key) in
        match map Arn (filter (fun k => String.eqb (KeyId k) kms_keyid) kms_keys) with
        | arn :: _ =>
            setvar "kms_arn" (VStr arn) ;;
            vars <- getvars ;;
            encrypt_each region kms_keyid
                         (filter (startswith "pgpassword_") (keys vars))
        | [] => raise IndexError
        end
    end
  else ret tt.

(** Everything [gather_user_variables] asks before the encryption of
    the passwords. *)
Definition choose_settings (region : string) (account : account_info)
    (defaults : dict) : M W unit :=
  choose_image_and_bucket region ;;
  choose_hosted_zone account defaults ;;
  choose_network region account ;;
  choose_security_groups region ;;
  choose_storage defaults ;;
  choose_passwords defaults.

(** [gather_user_variables(variables, region, account_info)]; the
    mapping [variables] is the one of the state. *)
Definition gather_user_variables (region : string) (account : account_info)
  : M W dict :=
  let defaults := set_default_variables [] in
  choose_settings region account defaults ;;
  encrypt_passwords region ;;
  update set_default_variables ;;
  bucket <- getvar "wal_s3_bucket" ;;
  call (check_s3_bucket c bucket region) ;;
  getvars.

End Gather.

End Postgresapp.

(** ** [webappmultiregion]: the templates *)

Module Webappmultiregion.

(** The lines of [TEMPLATE]. *)
Definition TEMPLATE_lines : list string :=
  [
    "";
    "# basic information for generating and executing this definition";
    "SenzaInfo:";
    "  StackName: {{application_id}}";
    "  Parameters:";
    "    - ImageVersion:";
    "        Description: " ++ q "Docker image version of {{ application_id }}.";
    "";
    "# a list of senza components to apply to the definition";
    "SenzaComponents:";
    "";
    "  # this basic configuration is required for the other components";
    "  - Configuration:";
    "      Type: Senza::StupsAutoConfiguration # auto-detect network setup";
    "";
    "  # will create a launch configuration and auto scaling group with scaling triggers";
    "  - AppServer:";
    "      Type: Senza::TaupageAutoScalingGroup";
    "      InstanceType: {{ instance_type }}";
    "      SecurityGroups:";
    "        - Stack: {{application_id}}-base-resources";
    "          LogicalId: {{application_id_camel}}SecurityGroup";
    "      IamRoles:";
    "        - Stack: {{application_id}}-base-resources";
    "          LogicalId: {{application_id_camel}}Role";
    "      ElasticLoadBalancer: AppLoadBalancer";
    "      AssociatePublicIpAddress: false # change for standalone deployment in default VPC";
    "      TaupageConfig:";
    "        application_version: " ++ q "{{=<% %>=}}{{Arguments.ImageVersion}}<%={{ }}=%>";
    "        runtime: Docker";
    "        source: " ++ q "{{ docker_image }}:{{=<% %>=}}{{Arguments.ImageVersion}}<%={{ }}=%>";
    "        health_check_path: {{http_health_check_path}}";
    "        ports:";
    "          {{http_port}}: {{http_port}}";
    "        {{#mint_bucket}}";
    "        mint_bucket: " ++ q "{{ mint_bucket }}";
    "        {{/mint_bucket}}";
    "";
    "  # creates an ELB entry and Route53 domains to this ELB";
    "  - AppLoadBalancer:";
    "      Type: Senza::WeightedDnsElasticLoadBalancer";
    "      HTTPPort: {{http_port}}";
    "      HealthCheckPath: {{http_health_check_path}}";
    "      SecurityGroups:";
    "        - Stack: {{application_id}}-base-resources";
    "          LogicalId: {{application_id_camel}}LoadBalancerSecurityGroup";
    "      Scheme: {{loadbalancer_scheme}}";
    "      Domains:";
    "        MainDomain:";
    "          Type: weighted";
    "          Zone: " ++ q "{{hosted_zone}}";
    "          Subdomain: {{application_id}}-{{=<% %>=}}{{AccountInfo.Region}}<%={{ }}=%>";
    "        VersionDomain:";
    "          Type: standalone";
    "          Zone: " ++ q "{{hosted_zone}}";
    "          Subdomain: {{application_id}}-{{=<% %>=}}{{AccountInfo.Region}}-{{SenzaInfo.StackVersion}}<%={{ }}=%>" ].

(** The lines of [BASE_TEMPLATE]. *)
Definition BASE_TEMPLATE_lines : list string :=
  [
    "";
    "SenzaInfo:";
    "  StackName: {{application_id}}-base";
    "";
    "Resources:";
    "  {{application_id_camel}}RegionRecord:";
    "    Type: AWS::Route53::RecordSet";
    "    Properties:";
    "      Type: CNAME";
    "      TTL: 20";
    "      HostedZoneName: " ++ q "{{hosted_zone}}";
    "      Name: " ++ q "{{application_id}}.{{hosted_zone}}";
    "      Region: " ++ q "{{=<% %>=}}{{AccountInfo.Region}}<%={{ }}=%>";
    "      SetIdentifier: " ++ q "{{application_id}}-{{=<% %>=}}{{AccountInfo.Region}}<%={{ }}=%>";
    "      ResourceRecords:";
    "        - " ++ q "{{application_id}}-{{=<% %>=}}{{AccountInfo.Region}}<%={{ }}=%>.{{hosted_zone}}";
    "  {{application_id_camel}}Role:";
    "    Type: AWS::IAM::Role";
    "    Properties:";
    "      AssumeRolePolicyDocument:";
    "        Version: " ++ q "2012-10-17";
    "        Statement:";
    "        - Effect: Allow";
    "          Principal:";
    "            Service: ec2.amazonaws.com";
    "          Action: sts:AssumeRole";
    "      Path: /";
    "      {{#mint_bucket}}";
    "      Policies:";
    "      - PolicyName: AllowMintRead";
    "        PolicyDocument:";
    "          Version: " ++ q "2012-10-17";
    "          Statement:";
    "          - Effect: Allow";
    "            Action: " ++ q "s3:GetObject";
    "            Resource: [" ++ q "arn:aws:s3:::{{ mint_bucket }}/{{application_id}}/*" ++ "]";
    "      {{/mint_bucket}}";
    "  {{application_id_camel}}SecurityGroup:";
    "    Type: AWS::EC2::SecurityGroup";
    "    Properties:";
    "      GroupDescription: " ++ q "app-{{application_id}}";
    "      Tags:";
    "        - Key: Name";
    "          Value: app-{{application_id}}";
    "      SecurityGroupIngress:";
    "        - IpProtocol: tcp";
    "          FromPort: 22";
    "          ToPort: 22";
    "          CidrIp: " ++ q "0.0.0.0/0";
    "        - IpProtocol: tcp";
    "          FromPort: 8080";
    "          ToPort: 8080";
    "          CidrIp: " ++ q "0.0.0.0/0";
    "        - IpProtocol: tcp";
    "          FromPort: 9100";
    "          ToPort: 9100";
    "          CidrIp: " ++ q "0.0.0.0/0";
    "  {{application_id_camel}}LoadBalancerSecurityGroup:";
    "    Type: AWS::EC2::SecurityGroup";
    "    Properties:";
    "      GroupDescription: " ++ q "app-{{application_id}}-lb";
    "      Tags:";
    "        - Key: Name";
    "          Value: app-{{application_id}}-lb";
    "      SecurityGroupIngress:";
    "        - IpProtocol: tcp";
    "          FromPort: 443";
    "          ToPort: 443";
    "          CidrIp: " ++ q "0.0.0.0/0" ].

Definition TEMPLATE : string := unlines TEMPLATE_lines.
Definition BASE_TEMPLATE : string := unlines BASE_TEMPLATE_lines.

Section Gather.

Context {W : Type} (c : collaborators W).

Local Open Scope monad_scope.

(** [name[:name.rfind('.') if name.rfind('.') > 0 else len(name)]]:
    the name of the definition file up to its last dot, the whole name
    when it has no dot after its first character. *)
Definition stem (name : string) : string :=
  take (if Z.ltb 0 (rfind "." name) then rfind "." name
        else Z.of_nat (String.length name)) name.

(** ['{}-base.yaml'.format(...)]. *)
Definition base_file_name_of (name : string) : string :=
  stem name ++ "-base.yaml".

(** The prompts for the application. *)
Definition choose_application (region : string) : M W unit :=
  prompt c "application_id" "Application ID" (Literal (VStr "hello-world"))
         (fun d => {| default := Some d; show_default := true;
                      hide_input := false; confirmation_prompt := false;
                      as_int := false;
                      value_proc := Some (60, "^[a-zA-Z][-a-zA-Z0-9]*$") |}) ;;
  prompt c "docker_image"
         ("Docker image without tag/version (e.g. "
          ++ q "pierone.example.org/myteam/myapp" ++ ")")
         (Literal (VStr "stups/hello-world")) with_default ;;
  prompt c "http_port" "HTTP port" (Literal (VInt 8080))
         (fun d => {| default := Some d; show_default := true;
                      hide_input := false; confirmation_prompt := false;
                      as_int := true; value_proc := None |}) ;;
  prompt c "http_health_check_path" "HTTP health check path"
         (Literal (VStr "/")) with_default ;;
  prompt c "instance_type" "EC2 instance type" (Literal (VStr "t2.micro"))
         with_default ;;
  docker_image <- getvar "docker_image" ;;
  pierone <- lift (value_contains "pierone" docker_image) ;;
  mint <- (if pierone then ret true
           else confirm c "Did you need OAuth-Credentials from Mint?") ;;
  (if mint then
     prompt c "mint_bucket" "Mint S3 bucket name"
            (Callable (call (get_mint_bucket_name c region))) with_default
   else setvar "mint_bucket" VNone) ;;
  choice_var c "loadbalancer_scheme" "Please select the load balancer scheme"
             [ ("internal", "internal: only accessible from the own VPC");
               ("internet-facing",
                "internet-facing: accessible from the public internet") ]
             "internal" ;;
  application_id <- getvar "application_id" ;;
  id <- lift (as_str application_id) ;;
  setvar "application_id_camel" (VStr (join (map title (split "-" id)))).

(** The hosted zone: the domain of the account, or [example.com], with
    a dot at its end. *)
Definition choose_hosted_zone (account : account_info) : M W unit :=
  setvar "hosted_zone"
         (match Domain account with
          | Some d => if String.eqb d "" then VStr "example.com" else VStr d
          | None => VStr "example.com"
          end) ;;
  zone <- getvar "hosted_zone" ;;
  last <- lift (slice_last zone) ;;
  if negb (String.eqb last ".") then
    zone <- getvar "hosted_zone" ;;
    dotted <- lift (add_str zone ".") ;;
    setvar "hosted_zone" dotted
  else ret tt.

(** The base definition file, rendered and written at once. *)
Definition write_base_definition (account : account_info) : M W unit :=
  definition_file <- getvar "definition_file" ;;
  name <- lift (as_str definition_file) ;;
  let base_file_name := base_file_name_of name in
  Action ("Generating Senza base definition file " ++ base_file_name ++ "..")
    (vars <- getvars ;;
     base_yaml <- lift (pystache_render BASE_TEMPLATE vars) ;;
     write_file c base_file_name base_yaml) ;;
  info ("Prepare the your stacks by executing: "
        ++ q ("senza create " ++ base_file_name ++ " resources --region "
              ++ Region account)).

(** [gather_user_variables(variables, region, account_info)]; the
    mapping [variables] is the one of the state. *)
Definition gather_user_variables (region : string) (account : account_info)
  : M W dict :=
  choose_application region ;;
  choose_hosted_zone account ;;
  write_base_definition account ;;
  getvars.

End Gather.

(** [generate_definition(variables)]. *)
Definition generate_definition (variables : dict) : result string :=
  pystache_render TEMPLATE variables.

End Webappmultiregion.

(** ** Auxiliary definitions *)

(** [set_default_variables] is the left-to-right application of
    [setdefault] along the default table. *)
Definition apply_defaults (tbl : list (string * value)) (d : dict) : dict :=
  fold_left (fun acc kv => setdefault (fst kv) (snd kv) acc) tbl d.

(** A table of expected bindings can be checked against a mapping by
    computation. *)
Definition bound_as (d : dict) (kv : string * value) : bool :=
  match get (fst kv) d with
  | Some v => value_eqb v (snd kv)
  | None => false
  end.

(** The text rendered, and the empty text if rendering raised. *)
Definition text_of (r : result string) : string :=
  match r with
  | Ok s => s
  | Raise _ => ""
  end.

(** ** Registry tags *)

(** A well-formed entry of the registry's tag list: a name and a
    creation time, which the registry writes as an ISO 8601 string. *)
Module Registry.

Record tag_entry : Type := { name : string; created : string }.

Definition entry_json (e : tag_entry) : json :=
  JObj [("name", JStr (name e)); ("created", JStr (created e))].

(** An entry paired with its sort key. *)
Definition keyed (e : tag_entry) : json * json :=
  (JStr (created e), entry_json e).

(** A registry that answers every request with the tag list
    [entries]. *)
Definition serving (entries : list tag_entry) : string -> result response :=
  fun _ => Ok {| ok := true; json_body := Ok (JArr (map entry_json entries)) |}.

Definition is_snapshot (e : tag_entry) : bool :=
  str_contains "SNAPSHOT" (name e).

(** [e] was created no earlier than any entry of [entries] that
    satisfies [p]. *)
Definition newest_among (p : tag_entry -> bool) (entries : list tag_entry)
    (e : tag_entry) : Prop :=
  In e entries /\ p e = true
  /\ forall e', In e' entries -> p e' = true ->
                String.leb (created e') (created e) = true.

(** What the sort of [get_latest_spilo_image] does on well-formed
    entries: a stable insertion sort by decreasing creation time. *)
Fixpoint insert_entry (x : tag_entry) (acc : list tag_entry) : list tag_entry :=
  match acc with
  | [] => [x]
  | y :: acc' =>
      if String.ltb (created y) (created x) then x :: y :: acc'
      else y :: insert_entry x acc'
  end.

Fixpoint sort_entries (todo acc : list tag_entry) : list tag_entry :=
  match todo with
  | [] => acc
  | x :: todo' => sort_entries todo' (insert_entry x acc)
  end.

(** [a] is no older than [b]. *)
Definition no_older (a b : tag_entry) : Prop :=
  String.ltb (created a) (created b) = false.

End Registry.

(** [st] with the outside world [w]. *)
Definition with_world {W : Type} (st : state W) (w : W) : state W :=
  {| variables := variables st; files := files st; terminal := terminal st;
     entropy := entropy st; world := w |}.

(** [m] leaves the files as they are, whether it returns or raises. *)
Definition leaves_files {W A : Type} (m : M W A) : Prop :=
  forall st, files (snd (m st)) = files st.

(** The reading of "the only hard-fail path" that is tested against
    the code: whatever [gather_user_variables] raises is a usage
    error. *)
Definition raises_usage_errors_only : Prop :=
  forall (W : Type) (c : collaborators W) (region : string)
         (account : account_info) (st : state W) (e : exn),
    fst (Postgresapp.gather_user_variables c region account st) = Raise e ->
    exists msg, e = UsageError msg.

(** ** A scripted environment *)

(** An operator who accepts every default, next to services that
    answer as the scenario says; used to run the templates on concrete
    inputs. *)
Module Example.

Record scenario : Type := {
  wants_kms : bool;
  keys_offered : list kms_key;
  s3_fails : bool
}.

Definition KMS_QUESTION : string :=
  "Do you wish to encrypt these passwords using KMS?".

Definition scripted (s : scenario) : collaborators unit :=
  {| click_confirm := fun text d w =>
       (Ok (if String.eqb text KMS_QUESTION then wants_kms s else d), w);
     click_prompt := fun _ args w =>
       (Ok (match default args with Some v => v | None => VStr "" end), w);
     clickclick_choice := fun _ options d w =>
       (Ok (match d with
            | Some v => v
            | None => match options with (v, _) :: _ => v | [] => "" end
            end), w);
     requests_get := fun _ w => (Raise (External "ConnectionError"), w);
     get_account_alias := fun w => (Ok "myaccount", w);
     get_vpc_attribute := fun _ _ _ w => (Ok (VStr "172.31.0.0/16"), w);
     get_security_group := fun _ _ w => (Ok None, w);
     describe_instances := fun _ _ w => (Ok [], w);
     list_kms_keys := fun _ w => (Ok (keys_offered s), w);
     encrypt := fun _ _ _ w => (Ok "AQECAHh", w);
     check_s3_bucket := fun _ _ w =>
       (if s3_fails s then Raise (External "S3") else Ok tt, w);
     get_mint_bucket_name := fun _ w => (Ok (VStr "mint-bucket"), w);
     open_for_writing := fun _ w => (Ok tt, w);
     container_text := fun _ => "";
     list_text := fun l => String.concat ", " l |}.

(** No encryption, a working bucket. *)
Definition plain : scenario :=
  {| wants_kms := false; keys_offered := []; s3_fails := false |}.

(** Encryption wanted, and the only key is the one of EBS. *)
Definition no_usable_key : scenario :=
  {| wants_kms := true;
     keys_offered :=
       [ {| KeyId := "1234abcd"; Description := "Default EBS key";
            Arn := "arn:aws:kms:eu-west-1:123:key/1234abcd";
            aliases := ["alias/aws/ebs"] |} ];
     s3_fails := false |}.

(** No encryption, and the bucket check fails. *)
Definition broken_bucket : scenario :=
  {| wants_kms := false; keys_offered := []; s3_fails := true |}.

Definition account : account_info :=
  {| Domain := Some "db.example.org"; VpcID := "vpc-1"; Region := "eu-west-1" |}.

(** The state before the run, for the definition file [file]. *)
Definition start (file : string) : state unit :=
  {| variables := [("definition_file", VStr file)];
     files := [];
     terminal := [];
     entropy := {| draws := fun i => i; pos := 0 |};
     world := tt |}.

(** What a run returned, and the empty mapping if it raised. *)
Definition returned {A : Type} (r : result A * state unit) (fallback : A) : A :=
  match fst r with
  | Ok a => a
  | Raise _ => fallback
  end.

End Example.

(** ** Invariants of the variable mapping *)

(** [m] keeps the property [I] of the variable mapping, whether it
    returns or raises. *)
Definition keeps {W A : Type} (I : dict -> Prop) (m : M W A) : Prop :=
  forall st, I (variables st) -> I (variables (snd (m st))).

(** [s] ends with a dot. *)
Definition ends_with_dot (s : string) : Prop := exists t, s = t ++ ".".

(** The hosted zone is bound to a string that ends with a dot. *)
Definition dotted_zone (d : dict) : Prop :=
  exists s, get "hosted_zone" d = Some (VStr s) /\ ends_with_dot s.

(** ** Further definitions *)

(** The entry kept after [e] has been seen, [best] being the one kept
    before: an entry that satisfies [p] replaces an older one. *)
Definition newer_or_first (p : Registry.tag_entry -> bool)
    (best : option Registry.tag_entry) (e : Registry.tag_entry)
  : option Registry.tag_entry :=
  if p e then
    match best with
    | None => Some e
    | Some b =>
        if String.ltb (Registry.created b) (Registry.created e)
        then Some e else Some b
    end
  else best.

(** The first of the newest entries of [entries] that satisfy [p]. *)
Definition first_newest (p : Registry.tag_entry -> bool)
    (entries : list Registry.tag_entry) : option Registry.tag_entry :=
  fold_left (newer_or_first p) entries None.

(** A property of what the mapping binds to the key [k0]. *)
Definition about (k0 : string) (Q : option value -> Prop) (d : dict) : Prop :=
  Q (get k0 d).

(** [s] with a dot at its end, added when it has none. *)
Definition dotted (s : string) : string :=
  if String.eqb (last_char s) "." then s else s ++ ".".

(** The domain of the account, or [example.com] when it has none or an
    empty one. *)
Definition zone_of (account : account_info) : string :=
  match Domain account with
  | Some d => if String.eqb d "" then "example.com" else d
  | None => "example.com"
  end.

(** The hosted zone is bound to the string [z]. *)
Definition zone_is (z : string) : dict -> Prop :=
  about "hosted_zone" (fun o => o = Some (VStr z)).

(** The keys that the tags of a template name, sections included. *)
Fixpoint node_keys (n : node) : list string :=
  match n with
  | Text _ => []
  | Var k => [k]
  | Section k body | Inverted k body =>
      k :: (fix body_keys (l : list node) : list string :=
              match l with
              | [] => []
              | n' :: l' => (node_keys n' ++ body_keys l')%list
              end) body
  end.

Definition template_keys (template : string) : list string :=
  flat_map node_keys (nodes_of template).

(** [c not in s] for a character [c]. *)
Fixpoint lacks (c : ascii) (s : string) : bool :=
  match s with
  | EmptyString => true
  | String x s' => negb (Ascii.eqb x c) && lacks c s'
  end.

(** The key is bound. *)
Definition bound (k : string) : dict -> Prop :=
  about k (fun o => o <> None).

(** Encryption wanted, and a key of the account can be used. *)
Definition with_kms_key : Example.scenario :=
  {| Example.wants_kms := true;
     Example.keys_offered :=
       [ {| KeyId := "1234abcd"; Description := "Default EBS key";
            Arn := "arn:aws:kms:eu-west-1:123:key/1234abcd";
            aliases := ["alias/aws/ebs"] |};
         {| KeyId := "5678efgh"; Description := "Database passwords";
            Arn := "arn:aws:kms:eu-west-1:123:key/5678efgh";
            aliases := ["alias/spilo"] |} ];
     Example.s3_fails := false |}.

(** The scripted environment of [s] with an operator who answers [t]
    when asked for the instance type. *)
Definition with_instance_type (t : string) (s : Example.scenario)
  : collaborators unit :=
  let base := Example.scripted s in
  {| click_confirm := click_confirm base;
     click_prompt := fun text args w =>
       if String.eqb text "EC2 instance type" then (Ok (VStr t), w)
       else click_prompt base text args w;
     clickclick_choice := clickclick_choice base;
     requests_get := requests_get base;
     get_account_alias := get_account_alias base;
     get_vpc_attribute := get_vpc_attribute base;
     get_security_group := get_security_group base;
     describe_instances := describe_instances base;
     list_kms_keys := list_kms_keys base;
     encrypt := encrypt base;
     check_s3_bucket := check_s3_bucket base;
     get_mint_bucket_name := get_mint_bucket_name base;
     open_for_writing := open_for_writing base;
     container_text := container_text base;
     list_text := list_text base |}.

(** Two computations that do the same on every state. *)
Definition same {W A : Type} (m m' : M W A) : Prop :=
  forall st, m st = m' st.

Definition ZMON_QUESTION : string :=
  "Do you want to allow access to the Spilo nodes from zmon?".

(** The collaborators [c] with an operator who gives the other answer
    to the question on zmon, and the same answers otherwise. *)
Definition contrary_on_zmon {W : Type} (c : collaborators W) : collaborators W :=
  {| click_confirm := fun text d w =>
       if String.eqb text ZMON_QUESTION then
         match click_confirm c text d w with
         | (Ok b, w') => (Ok (negb b), w')
         | (Raise e, w') => (Raise e, w')
         end
       else click_confirm c text d w;
     click_prompt := click_prompt c;
     clickclick_choice := clickclick_choice c;
     requests_get := requests_get c;
     get_account_alias := get_account_alias c;
     get_vpc_attribute := get_vpc_attribute c;
     get_security_group := get_security_group c;
     describe_instances := describe_instances c;
     list_kms_keys := list_kms_keys c;
     encrypt := encrypt c;
     check_s3_bucket := check_s3_bucket c;
     get_mint_bucket_name := get_mint_bucket_name c;
     open_for_writing := open_for_writing c;
     container_text := container_text c;
     list_text := list_text c |}.

(** ** Bodies of the registry's answer *)

(** An entry as the registry sends it: an object that binds [name]
    and [created] to strings. *)
Definition is_tag (j : json) : bool :=
  match getitem j "name", getitem j "created" with
  | Ok (JStr _), Ok (JStr _) => true
  | _, _ => false
  end.

(** A well-formed body: a list of such entries. *)
Definition is_tag_list (body : json) : bool :=
  match body with
  | JArr items => forallb is_tag items
  | _ => false
  end.

(** The reading of "a malformed response body gives the empty string"
    that is tested against the code: whenever the decoded body of an
    OK answer is not a list of tag entries, the result is empty. *)
Definition malformed_body_gives_empty : Prop :=
  forall (container_text : json -> string) (body : json)
         (registry_url address : string),
    is_tag_list body = false ->
    Postgresapp.get_latest_spilo_image container_text
      (fun _ => Ok {| ok := true; json_body := Ok body |})
      registry_url address
    = "".

(** An item without a ['created'] field, or that is no object. *)
Definition lacks_created (j : json) : bool :=
  match getitem j "created" with
  | Ok _ => false
  | Raise _ => true
  end.

(** The malformed bodies on which a step of the [try] block raises,
    whatever else they hold: [null], a boolean, a number, a string or
    an object that is not empty, a list with an item that is not an
    object or has no ['created'] field. *)
Definition trips_the_block (body : json) : bool :=
  match body with
  | JNull | JBool _ | JNum _ => true
  | JStr s => negb (String.eqb s "")
  | JObj fields => match fields with [] => false | _ :: _ => true end
  | JArr items => existsb lacks_created items
  end.

(** ** The files after a run *)



(** Every character of [s] is an ASCII character. *)
Definition is_ascii (s : string) : bool :=
  forallb (fun x => Nat.ltb (nat_of_ascii x) 128) (list_ascii_of_string s).

(* ================================================================== *)
(** * Part II. Properties *)
(* ================================================================== *)

(** ** Dictionaries *)

Lemma value_eqb_eq (a b : value) : value_eqb a b = true <-> a = b.
Proof.
  destruct a, b; simpl; split; intros H; try discriminate; try reflexivity.
  - apply Bool.eqb_prop in H. now subst.
  - injection H as ->. apply Bool.eqb_reflx.
  - apply Z.eqb_eq in H. now subst.
  - injection H as ->. apply Z.eqb_refl.
  - apply String.eqb_eq in H. now subst.
  - injection H as ->. apply String.eqb_refl.
Qed.

Lemma get_setitem_same (k : string) (v : value) (d : dict) :
  get k (setitem k v d) = Some v.
Proof.
  induction d as [|[k' v'] d IH]; simpl.
  - now rewrite String.eqb_refl.
  - destruct (String.eqb k k') eqn:E; simpl; rewrite E; [reflexivity | exact IH].
Qed.

Lemma get_setitem_other (k k' : string) (v : value) (d : dict) :
  k <> k' -> get k (setitem k' v d) = get k d.
Proof.
  intros Hne. induction d as [|[k0 v0] d IH]; simpl.
  - destruct (String.eqb k k') eqn:E; [|reflexivity].
    apply String.eqb_eq in E. contradiction.
  - destruct (String.eqb k' k0) eqn:E; simpl.
    + apply String.eqb_eq in E. subst k0.
      apply String.eqb_neq in Hne. now rewrite Hne.
    + now rewrite IH.
Qed.

Lemma setdefault_present (k : string) (v : value) (d : dict) :
  contains_key k d = true -> setdefault k v d = d.
Proof. unfold setdefault. now intros ->. Qed.

Lemma get_setdefault_kept (k k' : string) (v v' : value) (d : dict) :
  get k d = Some v -> get k (setdefault k' v' d) = Some v.
Proof.
  intros H. unfold setdefault, contains_key.
  destruct (get k' d) eqn:E; [exact H|].
  destruct (String.eqb k k') eqn:Ek.
  - apply String.eqb_eq in Ek. subst. congruence.
  - rewrite get_setitem_other; [exact H|].
    intros ->. now rewrite String.eqb_refl in Ek.
Qed.

Lemma contains_key_setdefault_same (k : string) (v : value) (d : dict) :
  contains_key k (setdefault k v d) = true.
Proof.
  unfold setdefault. destruct (contains_key k d) eqn:E; [exact E|].
  unfold contains_key. now rewrite get_setitem_same.
Qed.

Lemma contains_key_setdefault_kept (k k' : string) (v : value) (d : dict) :
  contains_key k d = true -> contains_key k (setdefault k' v d) = true.
Proof.
  unfold contains_key at 1. destruct (get k d) eqn:E; [|discriminate].
  intros _. unfold contains_key.
  now rewrite (get_setdefault_kept _ _ _ _ _ E).
Qed.

(** ** The defaulting step *)

Lemma set_default_variables_fold (d : dict) :
  Postgresapp.set_default_variables d
  = apply_defaults Postgresapp.default_table d.
Proof.
  cbv [Postgresapp.set_default_variables apply_defaults
       Postgresapp.default_table fold_left fst snd
       Postgresapp.HEALTHCHECK_PORT Postgresapp.POSTGRES_PORT].
  reflexivity.
Qed.

Lemma apply_defaults_kept (tbl : list (string * value)) :
  forall (d : dict) (k : string) (v : value),
    get k d = Some v -> get k (apply_defaults tbl d) = Some v.
Proof.
  induction tbl as [|[k' v'] tbl IH]; intros d k v H; simpl; [exact H|].
  apply IH. now apply get_setdefault_kept.
Qed.

Lemma apply_defaults_contains_kept (tbl : list (string * value)) :
  forall (d : dict) (k : string),
    contains_key k d = true -> contains_key k (apply_defaults tbl d) = true.
Proof.
  induction tbl as [|[k' v'] tbl IH]; intros d k H; simpl; [exact H|].
  apply IH. now apply contains_key_setdefault_kept.
Qed.

Lemma apply_defaults_contains (tbl : list (string * value)) :
  forall (d : dict) (k : string),
    In k (map fst tbl) -> contains_key k (apply_defaults tbl d) = true.
Proof.
  induction tbl as [|[k' v'] tbl IH]; intros d k H; simpl in *; [contradiction|].
  destruct H as [<- | H].
  - apply apply_defaults_contains_kept, contains_key_setdefault_same.
  - now apply IH.
Qed.

Lemma apply_defaults_fixed (tbl : list (string * value)) :
  forall d : dict,
    (forall k, In k (map fst tbl) -> contains_key k d = true) ->
    apply_defaults tbl d = d.
Proof.
  induction tbl as [|[k' v'] tbl IH]; intros d H; simpl; [reflexivity|].
  rewrite setdefault_present by (apply H; now left).
  apply IH. intros k Hk. apply H. now right.
Qed.

Lemma bound_as_all (d : dict) (tbl : list (string * value)) :
  forallb (bound_as d) tbl = true ->
  Forall (fun kv => get (fst kv) d = Some (snd kv)) tbl.
Proof.
  intros H. apply Forall_forall. intros kv Hin.
  rewrite forallb_forall in H. specialize (H kv Hin).
  unfold bound_as in H. destruct (get (fst kv) d); [|discriminate].
  apply value_eqb_eq in H. now subst.
Qed.

(** C4. Applying [set_default_variables] to the empty mapping yields a
    mapping in which every key of the default table is present and
    bound to its declared default value. *)
Theorem set_default_variables_empty :
  Forall (fun kv => get (fst kv) (Postgresapp.set_default_variables [])
                    = Some (snd kv))
         Postgresapp.default_table.
Proof.
  refine (bound_as_all (Postgresapp.set_default_variables [])
                       Postgresapp.default_table _).
  vm_compute. reflexivity.
Qed.

(** C5. [set_default_variables] leaves the value of every key that is
    already present in its input unchanged, and applying it twice
    yields the same mapping as applying it once. *)
Theorem set_default_variables_non_overwrite (variables : dict) :
  (forall (k : string) (v : value),
      get k variables = Some v ->
      get k (Postgresapp.set_default_variables variables) = Some v)
  /\ Postgresapp.set_default_variables
       (Postgresapp.set_default_variables variables)
     = Postgresapp.set_default_variables variables.
Proof.
  split.
  - intros k v H.
    rewrite (set_default_variables_fold variables).
    exact (apply_defaults_kept _ _ _ _ H).
  - rewrite (set_default_variables_fold variables).
    rewrite (set_default_variables_fold (apply_defaults _ variables)).
    refine (apply_defaults_fixed _ _ _). intros k Hk.
    exact (apply_defaults_contains _ _ _ Hk).
Qed.

Lemma set_default_variables_non_overwrite_witness :
  get "use_ebs" (Postgresapp.set_default_variables [("use_ebs", VBool false)])
  = Some (VBool false).
Proof.
  apply (proj1 (set_default_variables_non_overwrite [("use_ebs", VBool false)])).
  reflexivity.
Defined.

(** ** Random passwords *)

Lemma get_char_in (s : string) :
  forall (i : nat) (c : ascii), String.get i s = Some c -> char_in c s = true.
Proof.
  induction s as [|c' s IH]; intros i c H; simpl in *; [discriminate|].
  destruct i as [|i].
  - injection H as <-. now rewrite Ascii.eqb_refl.
  - rewrite (IH _ _ H). apply orb_true_r.
Qed.

Lemma get_in_range (s : string) :
  forall i : nat, i < String.length s -> exists c, String.get i s = Some c.
Proof.
  induction s as [|c' s IH]; intros i H; simpl in *; [lia|].
  destruct i as [|i]; [now exists c'|].
  apply IH. lia.
Qed.

Lemma choice_nonempty (seq : string) (g : rng) :
  String.length seq <> 0 ->
  exists c, choice seq g = (Ok c, snd (randbelow (String.length seq) g))
            /\ char_in c seq = true.
Proof.
  intros Hn. unfold choice.
  destruct (String.length seq) as [|n] eqn:E; [contradiction|].
  unfold randbelow. cbn [fst snd].
  destruct (get_in_range seq (Nat.modulo (draws g (pos g)) (S n))) as [c Hc].
  - rewrite E. apply Nat.mod_upper_bound. discriminate.
  - exists c. rewrite Hc. split; [reflexivity|].
    exact (get_char_in _ _ _ Hc).
Qed.

Lemma random_chars_spec (n : nat) :
  forall g : rng,
    exists (s : string) (g' : rng),
      Postgresapp.random_chars n g = (Ok s, g')
      /\ String.length s = n
      /\ all_chars (fun c => char_in c (ascii_uppercase ++ digits)) s = true.
Proof.
  induction n as [|n IH]; intros g.
  - exists "", g. repeat split.
  - cbn [Postgresapp.random_chars].
    destruct (choice_nonempty (ascii_uppercase ++ digits) g) as [c [Hc Hin]];
      [discriminate|].
    rewrite Hc.
    destruct (IH (snd (randbelow (String.length (ascii_uppercase ++ digits)) g)))
      as [s [g' [Hs [Hlen Hall]]]].
    rewrite Hs. exists (String c s), g'. repeat split.
    + simpl. now rewrite Hlen.
    + cbn [all_chars]. now rewrite Hin, Hall.
Qed.

(** C8. For every requested length [L], [generate_random_password(L)]
    returns a string of exactly [L] characters, each of them an
    uppercase ASCII letter or a decimal digit. *)
Theorem generate_random_password_spec (L : Z) (g : rng) :
  (0 <= L)%Z ->
  exists (password : string) (g' : rng),
    Postgresapp.generate_random_password L g = (Ok password, g')
    /\ Z.of_nat (String.length password) = L
    /\ all_chars (fun c => char_in c "ABCDEFGHIJKLMNOPQRSTUVWXYZ0123456789")
                 password = true.
Proof.
  intros HL. unfold Postgresapp.generate_random_password.
  destruct (random_chars_spec (Z.to_nat L) g) as [s [g' [Hs [Hlen Hall]]]].
  exists s, g'. repeat split; [exact Hs | lia | exact Hall].
Qed.

Lemma generate_random_password_spec_witness :
  exists (password : string) (g' : rng),
    Postgresapp.generate_random_password 61 {| draws := fun i => 7 * i; pos := 0 |}
    = (Ok password, g')
    /\ Z.of_nat (String.length password) = 61%Z
    /\ all_chars (fun c => char_in c "ABCDEFGHIJKLMNOPQRSTUVWXYZ0123456789")
                 password = true.
Proof.
  apply (generate_random_password_spec 61 {| draws := fun i => 7 * i; pos := 0 |}).
  lia.
Defined.

(** A negative length yields the empty password. *)
Lemma generate_random_password_negative (L : Z) (g : rng) :
  (L < 0)%Z -> Postgresapp.generate_random_password L g = (Ok "", g).
Proof.
  intros HL. unfold Postgresapp.generate_random_password.
  destruct L; try lia. reflexivity.
Qed.

(** ** The order on strings *)

Lemma string_compare_refl (s : string) : String.compare s s = Eq.
Proof.
  induction s as [|c s IH]; simpl; [reflexivity|].
  unfold Ascii.compare. now rewrite N.compare_refl.
Qed.

Lemma string_compare_lt_trans (a : string) :
  forall b c : string,
    String.compare a b = Lt -> String.compare b c = Lt -> String.compare a c = Lt.
Proof.
  induction a as [|x a IH]; intros [|y b] [|z c]; simpl; try discriminate;
    try reflexivity.
  unfold Ascii.compare.
  destruct (N.compare (N_of_ascii x) (N_of_ascii y)) eqn:E1; try discriminate;
    destruct (N.compare (N_of_ascii y) (N_of_ascii z)) eqn:E2; try discriminate;
    intros H1 H2.
  - apply N.compare_eq_iff in E1, E2. rewrite E1, E2, N.compare_refl.
    now apply (IH b c).
  - apply N.compare_eq_iff in E1. now rewrite E1, E2.
  - apply N.compare_eq_iff in E2. now rewrite <- E2, E1.
  - rewrite N.compare_lt_iff in E1, E2.
    assert (E : N.compare (N_of_ascii x) (N_of_ascii z) = Lt)
      by (apply N.compare_lt_iff; lia).
    now rewrite E.
Qed.

Lemma string_ltb_irrefl (s : string) : String.ltb s s = false.
Proof. unfold String.ltb. now rewrite string_compare_refl. Qed.

Lemma string_ltb_trans (a b c : string) :
  String.ltb a b = true -> String.ltb b c = true -> String.ltb a c = true.
Proof.
  unfold String.ltb. intros H1 H2.
  destruct (String.compare a b) eqn:E1; try discriminate.
  destruct (String.compare b c) eqn:E2; try discriminate.
  now rewrite (string_compare_lt_trans _ _ _ E1 E2).
Qed.

Lemma string_ltb_asym (a b : string) :
  String.ltb a b = true -> String.ltb b a = false.
Proof.
  unfold String.ltb. rewrite (String.compare_antisym a b).
  now destruct (String.compare b a).
Qed.

Lemma string_ltb_false_leb (a b : string) :
  String.ltb a b = false -> String.leb b a = true.
Proof.
  unfold String.ltb, String.leb. rewrite (String.compare_antisym a b).
  now destruct (String.compare b a).
Qed.

(** ** Substrings *)

Lemma prefix_app (n : string) : forall h : string,
  String.prefix n h = true <-> exists b, h = n ++ b.
Proof.
  induction n as [|c n IH]; intros h; simpl.
  - split; [intros _; now exists h | now destruct h].
  - destruct h as [|c' h]; simpl.
    + split; [discriminate | intros [b H]; discriminate].
    + destruct (Ascii.ascii_dec c c') as [<- | Hne].
      * rewrite IH. split; intros [b H]; exists b; [now subst | now injection H].
      * split; [discriminate|]. intros [b H]. congruence.
Qed.

Lemma str_contains_spec (n : string) : forall h : string,
  str_contains n h = true <-> exists a b, h = a ++ n ++ b.
Proof.
  induction h as [|c h IH]; cbn [str_contains].
  - rewrite orb_false_r, (prefix_app n ""). split.
    + intros [b H]. now exists "", b.
    + intros [a [b H]]. destruct a; simpl in H; [now exists b | discriminate].
  - rewrite orb_true_iff, IH, (prefix_app n (String c h)). split.
    + intros [[b H] | [a [b H]]].
      * now exists "", b.
      * exists (String c a), b. simpl. now rewrite H.
    + intros [a [b H]]. destruct a as [|c' a]; simpl in H.
      * left. now exists b.
      * right. injection H as _ H. now exists a, b.
Qed.

(** ** The registry lookup on well-formed tag lists *)

Section RegistryLookup.

Import Registry.

Lemma with_keys_entries (es : list tag_entry) :
  with_keys (fun t => getitem t "created") (map entry_json es)
  = Ok (map keyed es).
Proof.
  induction es as [|e es IH]; [reflexivity|].
  cbn [map with_keys]. rewrite IH. reflexivity.
Qed.

Lemma insert_desc_entries (x : tag_entry) (acc : list tag_entry) :
  insert_desc (keyed x) (map keyed acc) = Ok (map keyed (insert_entry x acc)).
Proof.
  induction acc as [|y acc IH]; [reflexivity|].
  cbn [map insert_desc insert_entry]. cbn [keyed fst py_lt rbind].
  destruct (String.ltb (created y) (created x)); [reflexivity|].
  fold (keyed x). rewrite IH. reflexivity.
Qed.

Lemma sort_desc_entries (todo : list tag_entry) :
  forall acc : list tag_entry,
    sort_desc (map keyed todo) (map keyed acc)
    = Ok (map keyed (sort_entries todo acc)).
Proof.
  induction todo as [|x todo IH]; intros acc; [reflexivity|].
  cbn [map sort_desc sort_entries].
  rewrite insert_desc_entries. cbn [rbind]. apply IH.
Qed.

Lemma sorted_reverse_entries (es : list tag_entry) :
  sorted_reverse (map entry_json es) (fun t => getitem t "created")
  = Ok (map entry_json (sort_entries es [])).
Proof.
  unfold sorted_reverse. rewrite with_keys_entries. cbn [rbind].
  rewrite (sort_desc_entries es [] : sort_desc (map keyed es) [] = _).
  cbn [rbind].
  rewrite map_map. reflexivity.
Qed.

Lemma In_insert_entry (x e : tag_entry) (acc : list tag_entry) :
  In e (insert_entry x acc) <-> e = x \/ In e acc.
Proof.
  induction acc as [|y acc IH]; simpl.
  - intuition congruence.
  - destruct (String.ltb (created y) (created x)); simpl; [intuition congruence|].
    rewrite IH. intuition congruence.
Qed.

Lemma In_sort_entries (e : tag_entry) (todo : list tag_entry) :
  forall acc, In e (sort_entries todo acc) <-> In e todo \/ In e acc.
Proof.
  induction todo as [|x todo IH]; intros acc; simpl; [intuition|].
  rewrite IH, In_insert_entry. intuition congruence.
Qed.

Lemma insert_entry_sorted (x : tag_entry) (acc : list tag_entry) :
  StronglySorted no_older acc -> StronglySorted no_older (insert_entry x acc).
Proof.
  induction acc as [|y acc IH]; intros Hs; simpl.
  - constructor; constructor.
  - apply StronglySorted_inv in Hs. destruct Hs as [Hacc Hy].
    destruct (String.ltb (created y) (created x)) eqn:E.
    + constructor; [constructor; assumption|].
      constructor; [now apply string_ltb_asym|].
      rewrite Forall_forall in *. intros z Hz. specialize (Hy z Hz).
      unfold no_older in *.
      destruct (String.ltb (created x) (created z)) eqn:Exz; [|reflexivity].
      now rewrite (string_ltb_trans _ _ _ E Exz) in Hy.
    + constructor; [now apply IH|].
      rewrite Forall_forall in *. intros z Hz.
      apply In_insert_entry in Hz. destruct Hz as [-> | Hz]; [exact E | now apply Hy].
Qed.

Lemma sort_entries_sorted (todo : list tag_entry) :
  forall acc, StronglySorted no_older acc ->
              StronglySorted no_older (sort_entries todo acc).
Proof.
  induction todo as [|x todo IH]; intros acc Hs; simpl; [exact Hs|].
  now apply IH, insert_entry_sorted.
Qed.

Lemma snapshot_truthy (s : string) :
  str_contains "SNAPSHOT" s = true -> json_truthy (JStr s) = true.
Proof. destruct s; [discriminate | reflexivity]. Qed.

Lemma latest_tag_entries (l : list tag_entry) :
  forall latest : json,
    Postgresapp.latest_tag (map entry_json l) latest
    = Ok (match find (fun e => negb (is_snapshot e)) l with
          | Some e => JStr (name e)
          | None =>
              if json_truthy latest then latest
              else match l with
                   | [] => latest
                   | e :: _ => JStr (name e)
                   end
          end).
Proof.
  induction l as [|e l IH]; intros latest.
  - simpl. now destruct (json_truthy latest).
  - cbn [map Postgresapp.latest_tag find].
    change (getitem (entry_json e) "name") with (Ok (JStr (name e))).
    cbn [rbind py_in]. fold (is_snapshot e).
    destruct (is_snapshot e) eqn:Es; cbn [negb]; [|reflexivity].
    rewrite IH. destruct (find (fun e0 => negb (is_snapshot e0)) l); [reflexivity|].
    destruct (json_truthy latest) eqn:Et; [now rewrite Et|].
    now rewrite (snapshot_truthy _ Es).
Qed.

(** On a well-formed tag list the lookup returns the image address
    followed by the name the loop picks from the sorted entries. *)
Lemma get_latest_spilo_image_entries (container_text : json -> string)
    (entries : list tag_entry) (registry_url address : string) :
  Postgresapp.get_latest_spilo_image container_text (serving entries)
                                     registry_url address
  = (Postgresapp.SPILO_IMAGE_ADDRESS ++ ":"
     ++ match find (fun e => negb (is_snapshot e)) (sort_entries entries []) with
        | Some e => name e
        | None => match sort_entries entries [] with
                  | [] => "None"
                  | e :: _ => name e
                  end
        end)%string.
Proof.
  unfold Postgresapp.get_latest_spilo_image, Postgresapp.spilo_image_attempt,
    Postgresapp.select_latest, serving.
  cbn [rbind ok json_body py_iter].
  rewrite sorted_reverse_entries. cbn [rbind].
  rewrite latest_tag_entries. cbn [rbind json_truthy].
  destruct (find _ _); [reflexivity|].
  now destruct (sort_entries entries []).
Qed.

Lemma find_first_sorted (p : tag_entry -> bool) (l : list tag_entry) (e : tag_entry) :
  StronglySorted no_older l -> find p l = Some e ->
  In e l /\ p e = true
  /\ forall e', In e' l -> p e' = true -> e' = e \/ no_older e e'.
Proof.
  induction l as [|x l IH]; intros Hs Hf; simpl in Hf; [discriminate|].
  apply StronglySorted_inv in Hs. destruct Hs as [Hl Hx].
  destruct (p x) eqn:Ex.
  - injection Hf as <-. split; [now left|]. split; [exact Ex|].
    intros e' [<- | Hin] _; [now left|].
    right. rewrite Forall_forall in Hx. now apply Hx.
  - destruct (IH Hl Hf) as [Hin [Hp Hmax]].
    split; [now right|]. split; [exact Hp|].
    intros e' [<- | Hin'] Hp'; [congruence|]. now apply Hmax.
Qed.

Lemma no_older_leb (e e' : tag_entry) :
  e' = e \/ no_older e e' -> String.leb (created e') (created e) = true.
Proof.
  intros [-> | H].
  - apply string_ltb_false_leb, string_ltb_irrefl.
  - now apply string_ltb_false_leb.
Qed.

(** C1. For every sequence of registry tag entries,
    [get_latest_spilo_image] selects the most recently created entry
    whose name does not contain "SNAPSHOT"; if every name contains
    "SNAPSHOT", it selects the most recently created entry overall.  In
    particular, for the entries 1.0 (created [t1]) and 2.0-SNAPSHOT
    (created [t2 > t1]) the selected tag is 1.0. *)
Theorem get_latest_spilo_image_selects (container_text : json -> string)
    (entries : list tag_entry) (registry_url address : string) :
  let selected (tag : string) :=
    Postgresapp.get_latest_spilo_image container_text (serving entries)
                                       registry_url address
    = (Postgresapp.SPILO_IMAGE_ADDRESS ++ ":" ++ tag)%string in
  ((exists e, In e entries /\ is_snapshot e = false) ->
   exists e, newest_among (fun e => negb (is_snapshot e)) entries e
             /\ selected (name e))
  /\ (entries <> [] -> (forall e, In e entries -> is_snapshot e = true) ->
      exists e, newest_among (fun _ => true) entries e /\ selected (name e))
  /\ (forall t1 t2 : string,
        String.ltb t1 t2 = true ->
        Postgresapp.get_latest_spilo_image container_text
          (serving [ {| name := "1.0"; created := t1 |};
                     {| name := "2.0-SNAPSHOT"; created := t2 |} ])
          registry_url address
        = (Postgresapp.SPILO_IMAGE_ADDRESS ++ ":" ++ "1.0")%string).
Proof.
  intros selected. unfold selected.
  assert (Hsorted : StronglySorted no_older (sort_entries entries []))
    by (apply sort_entries_sorted; constructor).
  assert (Hin : forall e, In e (sort_entries entries []) <-> In e entries).
  { intros e. rewrite In_sort_entries. simpl. tauto. }
  split; [|split].
  - intros [e0 [Hin0 Hsnap0]].
    rewrite get_latest_spilo_image_entries.
    destruct (find (fun e => negb (is_snapshot e)) (sort_entries entries []))
      as [e|] eqn:Hf.
    + destruct (find_first_sorted _ _ _ Hsorted Hf) as [He [Hp Hmax]].
      exists e. split; [|reflexivity].
      split; [now apply Hin|]. split; [exact Hp|].
      intros e' He' Hp'. apply no_older_leb, Hmax; [now apply Hin | exact Hp'].
    + pose proof (find_none _ _ Hf e0 (proj2 (Hin e0) Hin0)) as Hn.
      cbn beta in Hn. rewrite Hsnap0 in Hn. discriminate.
  - intros Hne Hall.
    rewrite get_latest_spilo_image_entries.
    destruct (find (fun e => negb (is_snapshot e)) (sort_entries entries []))
      as [e|] eqn:Hf.
    + apply find_some in Hf. destruct Hf as [He Hp].
      rewrite (Hall e) in Hp by now apply Hin. discriminate.
    + destruct (sort_entries entries []) as [|e l] eqn:Hs.
      * destruct entries as [|e es]; [contradiction|].
        exfalso. apply (proj2 (Hin e)). now left.
      * exists e. split; [|reflexivity].
        split; [apply Hin; now left|]. split; [reflexivity|].
        intros e' He' _. apply no_older_leb.
        apply Hin in He'. destruct He' as [<- | He']; [now left|].
        right. apply StronglySorted_inv in Hsorted.
        destruct Hsorted as [_ Hall']. rewrite Forall_forall in Hall'.
        now apply Hall'.
  - intros t1 t2 Hlt.
    rewrite get_latest_spilo_image_entries.
    cbn [sort_entries insert_entry created]. rewrite Hlt.
    reflexivity.
Qed.

Lemma get_latest_spilo_image_selects_witness :
  exists e,
    newest_among (fun e => negb (is_snapshot e))
      [ {| name := "1.0"; created := "2015-06-01T14:12:03" |};
        {| name := "2.0-SNAPSHOT"; created := "2015-07-01T09:00:00" |} ] e
    /\ Postgresapp.get_latest_spilo_image (fun _ => "")
         (serving [ {| name := "1.0"; created := "2015-06-01T14:12:03" |};
                    {| name := "2.0-SNAPSHOT"; created := "2015-07-01T09:00:00" |} ])
         Postgresapp.DEFAULT_REGISTRY_URL Postgresapp.DEFAULT_ADDRESS
       = (Postgresapp.SPILO_IMAGE_ADDRESS ++ ":" ++ name e)%string.
Proof.
  apply (proj1 (get_latest_spilo_image_selects (fun _ => "")
     [ {| name := "1.0"; created := "2015-06-01T14:12:03" |};
       {| name := "2.0-SNAPSHOT"; created := "2015-07-01T09:00:00" |} ]
     Postgresapp.DEFAULT_REGISTRY_URL Postgresapp.DEFAULT_ADDRESS)).
  exists {| name := "1.0"; created := "2015-06-01T14:12:03" |}.
  split; [left; reflexivity | reflexivity].
Defined.

(** With no tag at all the loop leaves [latest] at [None], and the
    image address is followed by the text of [None]. *)
Lemma get_latest_spilo_image_no_tags (container_text : json -> string)
    (registry_url address : string) :
  Postgresapp.get_latest_spilo_image container_text (serving [])
                                     registry_url address
  = "registry.opensource.zalan.do/acid/spilo-9.4:None".
Proof. reflexivity. Qed.

End RegistryLookup.

(** ** Failures of the registry lookup *)

Lemma with_keys_raises {A : Type} (key : A -> result json) (items : list A) :
  (exists x, In x items /\ exists e, key x = Raise e) ->
  exists e, with_keys key items = Raise e.
Proof.
  induction items as [|y items IH]; intros [x [Hin [e He]]];
    [contradiction|].
  cbn [with_keys]. destruct (key y) as [k|e'] eqn:Ey; [|now exists e'].
  cbn [rbind]. destruct Hin as [-> | Hin]; [congruence|].
  destruct IH as [e'' He'']; [now exists x; split; [|exists e]|].
  rewrite He''. now exists e''.
Qed.

(** A body that is not iterable makes the selection raise. *)
Lemma select_latest_scalar (body : json) :
  match body with JNull | JBool _ | JNum _ => True | _ => False end ->
  Postgresapp.select_latest body = Raise TypeError.
Proof. destruct body; intros H; try contradiction; reflexivity. Qed.

(** So does a list with an item that has no ['created'] field, or that
    is not an object at all. *)
Lemma select_latest_bad_item (items : list json) (x : json) :
  In x items -> (exists e, getitem x "created" = Raise e) ->
  exists e, Postgresapp.select_latest (JArr items) = Raise e.
Proof.
  intros Hin He. unfold Postgresapp.select_latest, sorted_reverse.
  cbn [py_iter rbind].
  destruct (with_keys_raises (fun t => getitem t "created") items) as [e Hw];
    [now exists x|].
  rewrite Hw. now exists e.
Qed.

(** A list has an item on which the key function raises as soon as
    one of its items lacks ['created']. *)
Lemma select_latest_trips (body : json) :
  trips_the_block body = true ->
  exists e, Postgresapp.select_latest body = Raise e.
Proof.
  destruct body as [| b | z | s | items | fields]; cbn [trips_the_block].
  - intros _. now exists TypeError.
  - intros _. now exists TypeError.
  - intros _. now exists TypeError.
  - destruct s as [|x s]; [discriminate|]. intros _.
    unfold Postgresapp.select_latest, sorted_reverse.
    cbn [py_iter list_ascii_of_string map rbind with_keys getitem].
    now exists TypeError.
  - intros H. apply existsb_exists in H. destruct H as [x [Hin Hx]].
    apply (select_latest_bad_item items x Hin).
    unfold lacks_created in Hx.
    destruct (getitem x "created") as [v|e]; [discriminate | now exists e].
  - destruct fields as [|[k v] fields]; [discriminate|]. intros _.
    unfold Postgresapp.select_latest, sorted_reverse.
    cbn [py_iter map fst rbind with_keys getitem].
    now exists TypeError.
Qed.

Lemma image_not_empty (tag : string) :
  (Postgresapp.SPILO_IMAGE_ADDRESS ++ ":" ++ tag)%string <> "".
Proof. discriminate. Qed.

Lemma empty_object_run (container_text : json -> string)
    (registry_url address : string) :
  Postgresapp.get_latest_spilo_image container_text
    (fun _ => Ok {| ok := true; json_body := Ok (JObj []) |})
    registry_url address
  = "registry.opensource.zalan.do/acid/spilo-9.4:None".
Proof. reflexivity. Qed.

(** C2, as stated: a malformed body does not always give the empty
    string.  The body [{}] is no list of tags; iterating over it gives
    nothing, no step raises, and the function returns the address
    with the text of [None]. *)
Lemma malformed_body_gives_empty_counterexample : ~ malformed_body_gives_empty.
Proof.
  intros H.
  pose proof (H (fun _ => "") (JObj []) Postgresapp.DEFAULT_REGISTRY_URL
                Postgresapp.DEFAULT_ADDRESS eq_refl) as E.
  rewrite empty_object_run in E. discriminate E.
Qed.

(** C2, as amended. [get_latest_spilo_image] returns the empty string
    when [requests.get] raises, when the response is not OK, when the
    body cannot be decoded, and when the decoded body is one of those
    on which a step of the [try] block raises ([null], a boolean, a
    number, a string or an object that is not empty, a list with an
    item that is not an object or has no ['created'] field); being a
    total function to strings, it never passes an exception on.  But
    for a body that was decoded the result is empty only if a step
    raised: a malformed body on which none does is not noticed, [{}]
    gives the address followed by [None], an entry whose name is a
    list is selected as any other, and so is a single entry whose
    creation date is [null]. *)
Theorem get_latest_spilo_image_failure (container_text : json -> string)
    (requests_get : string -> result response)
    (registry_url address : string) :
  let image :=
    Postgresapp.get_latest_spilo_image container_text requests_get
                                       registry_url address in
  (forall e, requests_get (registry_url ++ address) = Raise e -> image = "")
  /\ (forall r, requests_get (registry_url ++ address) = Ok r ->
                ok r = false -> image = "")
  /\ (forall r e, requests_get (registry_url ++ address) = Ok r ->
                  ok r = true -> json_body r = Raise e -> image = "")
  /\ (forall r body,
         requests_get (registry_url ++ address) = Ok r ->
         ok r = true -> json_body r = Ok body ->
         (trips_the_block body = true -> image = "")
         /\ (image = "" <-> exists e, Postgresapp.select_latest body = Raise e)
         /\ (body = JObj [] ->
             image = (Postgresapp.SPILO_IMAGE_ADDRESS ++ ":None")%string)
         /\ (forall (name : list json) (created : string),
                body = JArr [ JObj [ ("name", JArr name);
                                     ("created", JStr created) ] ] ->
                image = (Postgresapp.SPILO_IMAGE_ADDRESS ++ ":"
                         ++ container_text (JArr name))%string)
         /\ (forall name : string,
                body = JArr [ JObj [ ("name", JStr name);
                                     ("created", JNull) ] ] ->
                image = (Postgresapp.SPILO_IMAGE_ADDRESS ++ ":" ++ name)%string)).
Proof.
  intros image. unfold image, Postgresapp.get_latest_spilo_image,
    Postgresapp.spilo_image_attempt.
  split; [|split; [|split]].
  - intros e ->. reflexivity.
  - intros r -> Hok. cbn [rbind]. now rewrite Hok.
  - intros r e -> Hok Hbody. cbn [rbind]. now rewrite Hok, Hbody.
  - intros r body -> Hok Hbody. cbn [rbind]. rewrite Hok, Hbody.
    cbn [rbind]. split; [|split; [|split; [|split]]].
    + intros Ht. destruct (select_latest_trips body Ht) as [e He].
      now rewrite He.
    + destruct (Postgresapp.select_latest body) as [latest|e]; cbn [rbind].
      * split; [intros H; now apply image_not_empty in H|].
        intros [e He]. discriminate He.
      * split; [intros _; now exists e | reflexivity].
    + intros ->. reflexivity.
    + intros name created ->.
      unfold Postgresapp.select_latest, sorted_reverse.
      cbn [py_iter rbind with_keys getitem lookup String.eqb Ascii.eqb
           Bool.eqb sort_desc insert_desc map snd fst
           Postgresapp.latest_tag py_in].
      destruct (existsb (py_eq (JStr "SNAPSHOT")) name); cbn [negb rbind];
        reflexivity.
    + intros name ->.
      unfold Postgresapp.select_latest, sorted_reverse.
      cbn [py_iter rbind with_keys getitem lookup String.eqb Ascii.eqb
           Bool.eqb sort_desc insert_desc map snd fst
           Postgresapp.latest_tag py_in].
      destruct (str_contains "SNAPSHOT" name); cbn [negb rbind];
        reflexivity.
Qed.

Lemma get_latest_spilo_image_failure_witness :
  Postgresapp.get_latest_spilo_image (fun _ => "")
    (fun _ => Raise (External "ConnectionError")) "dont.exist.url"
    Postgresapp.DEFAULT_ADDRESS
  = "".
Proof.
  apply (proj1 (get_latest_spilo_image_failure (fun _ => "")
           (fun _ => Raise (External "ConnectionError")) "dont.exist.url"
           Postgresapp.DEFAULT_ADDRESS) (External "ConnectionError")).
  reflexivity.
Defined.

(** ** Rendering *)

Lemma string_app_assoc (a b c : string) : ((a ++ b) ++ c = a ++ b ++ c)%string.
Proof. induction a as [|x a IH]; simpl; [reflexivity | now rewrite IH]. Qed.

Lemma str_contains_app (s a x b : string) :
  str_contains s x = true -> str_contains s (a ++ x ++ b) = true.
Proof.
  rewrite !str_contains_spec. intros [a' [b' ->]].
  exists (a ++ a')%string, (b' ++ b)%string.
  now rewrite !string_app_assoc.
Qed.

Lemma str_contains_app_l (s x b : string) :
  str_contains s x = true -> str_contains s (x ++ b) = true.
Proof. intros H. exact (str_contains_app s "" x b H). Qed.

Lemma str_contains_app_r (s a x : string) :
  str_contains s x = true -> str_contains s (a ++ x) = true.
Proof.
  rewrite !str_contains_spec. intros [a' [b' ->]].
  exists (a ++ a')%string, b'. now rewrite !string_app_assoc.
Qed.

Lemma render_node_section (variables : dict) (k : string) (body : list node) :
  render_node variables (Section k body)
  = if truthy_at k variables then render_nodes variables body else "".
Proof.
  cbn [render_node]. destruct (truthy_at k variables); [|reflexivity].
  induction body as [|n body IH]; [reflexivity|].
  cbn [render_nodes]. now rewrite <- IH.
Qed.

Lemma render_node_inverted (variables : dict) (k : string) (body : list node) :
  render_node variables (Inverted k body)
  = if truthy_at k variables then "" else render_nodes variables body.
Proof.
  cbn [render_node]. destruct (truthy_at k variables); [reflexivity|].
  induction body as [|n body IH]; [reflexivity|].
  cbn [render_nodes]. now rewrite <- IH.
Qed.

(** A section that is not rendered contributes nothing, whatever its
    body. *)
Lemma render_drop_body (variables : dict) (inverted : bool) (k : string)
    (nodes : list node) :
  truthy_at k variables = inverted ->
  render_nodes variables (drop_body inverted k nodes)
  = render_nodes variables nodes.
Proof.
  intros Hk. induction nodes as [|n nodes IH]; [reflexivity|].
  cbn [drop_body map render_nodes]. fold (drop_body inverted k nodes).
  rewrite IH. f_equal.
  destruct n as [s|k'|k' body|k' body]; try reflexivity.
  - destruct inverted; cbn [negb andb]; [reflexivity|].
    destruct (String.eqb k k') eqn:E; [|reflexivity].
    apply String.eqb_eq in E. subst k'.
    now rewrite !render_node_section, Hk.
  - destruct inverted; cbn [negb andb]; [|reflexivity].
    destruct (String.eqb k k') eqn:E; [|reflexivity].
    apply String.eqb_eq in E. subst k'.
    now rewrite !render_node_inverted, Hk.
Qed.

(** Two templates that differ in the bodies of such sections only
    render to the same text. *)
Lemma render_same_outside (variables : dict) (inverted : bool) (k : string)
    (t t' : string) :
  truthy_at k variables = inverted ->
  option_map (drop_body inverted k) (parse t')
  = option_map (drop_body inverted k) (parse t) ->
  pystache_render t' variables = pystache_render t variables.
Proof.
  intros Hk Hp. unfold pystache_render.
  destruct (parse t) as [n|], (parse t') as [n'|]; try discriminate;
    [|reflexivity].
  injection Hp as Hp. f_equal.
  rewrite <- (render_drop_body variables inverted k n Hk).
  rewrite <- (render_drop_body variables inverted k n' Hk).
  now rewrite Hp.
Qed.

(** The text of a node of the template is part of the rendered text. *)
Lemma render_nth (variables : dict) (nodes : list node) :
  forall (i : nat) (n : node) (s : string),
    nth_error nodes i = Some n ->
    str_contains s (render_node variables n) = true ->
    str_contains s (render_nodes variables nodes) = true.
Proof.
  induction nodes as [|m nodes IH]; intros [|i] n s Hn Hs; try discriminate.
  - injection Hn as ->. cbn [render_nodes]. now apply str_contains_app_l.
  - cbn [render_nodes].
    apply str_contains_app_r. exact (IH i n s Hn Hs).
Qed.

(** ** The sections of the database template *)

Lemma parse_TEMPLATE :
  parse Postgresapp.TEMPLATE = Some (nodes_of Postgresapp.TEMPLATE).
Proof.
  unfold nodes_of.
  destruct (parse Postgresapp.TEMPLATE) eqn:E; [reflexivity|].
  vm_compute in E. discriminate.
Qed.

Lemma generate_definition_nodes (variables : dict) :
  Postgresapp.generate_definition variables
  = Ok (render_nodes variables (nodes_of Postgresapp.TEMPLATE)).
Proof.
  unfold Postgresapp.generate_definition, pystache_render.
  now rewrite parse_TEMPLATE.
Qed.

(** Picks the [i]-th node of the template and states that the text [s]
    is part of what this node renders to. *)
Ltac in_node i :=
  match goal with
  | |- str_contains ?s (render_nodes ?v (nodes_of ?t)) = true =>
      let E := fresh "E" in
      let n := fresh "n" in
      destruct (nth_error (nodes_of t) i) as [n|] eqn:E;
      [ apply (render_nth v (nodes_of t) i n s E);
        vm_compute in E; injection E as E; subst n
      | vm_compute in E; discriminate E ]
  end.

(** C6. Rendering the database template with [use_ebs] false gives a
    text without the [Ebs:] block (the same text as the template
    without that block renders to) and with [VirtualName: ephemeral0];
    rendering it with [use_ebs] true gives a text with the [Ebs:]
    block and without the [VirtualName: ephemeral0] line.  For the
    default variables the two texts are also checked as texts. *)
Theorem use_ebs_section :
  (forall variables : dict,
      truthy_at "use_ebs" variables = false ->
      exists text,
        Postgresapp.generate_definition variables = Ok text
        /\ pystache_render Postgresapp.TEMPLATE_without_ebs variables = Ok text
        /\ str_contains "VirtualName: ephemeral0" text = true)
  /\ (forall variables : dict,
      truthy_at "use_ebs" variables = true ->
      exists text,
        Postgresapp.generate_definition variables = Ok text
        /\ pystache_render Postgresapp.TEMPLATE_without_ephemeral variables
           = Ok text
        /\ str_contains "Ebs:" text = true)
  /\ (let text :=
        text_of (Postgresapp.generate_definition
                   (setitem "use_ebs" (VBool false)
                            (Postgresapp.set_default_variables []))) in
      str_contains "Ebs:" text = false
      /\ str_contains "VirtualName: ephemeral0" text = true)
  /\ (let text :=
        text_of (Postgresapp.generate_definition
                   (setitem "use_ebs" (VBool true)
                            (Postgresapp.set_default_variables []))) in
      str_contains "Ebs:" text = true
      /\ str_contains "VirtualName: ephemeral0" text = false).
Proof.
  split; [|split; [|split]].
  - intros variables Hk.
    exists (render_nodes variables (nodes_of Postgresapp.TEMPLATE)).
    split; [apply generate_definition_nodes|]. split.
    + rewrite <- generate_definition_nodes.
      apply (render_same_outside variables false "use_ebs"); [exact Hk|].
      vm_compute. reflexivity.
    + in_node 38. rewrite render_node_inverted, Hk.
      vm_compute. reflexivity.
  - intros variables Hk.
    exists (render_nodes variables (nodes_of Postgresapp.TEMPLATE)).
    split; [apply generate_definition_nodes|]. split.
    + rewrite <- generate_definition_nodes.
      apply (render_same_outside variables true "use_ebs"); [exact Hk|].
      vm_compute. reflexivity.
    + in_node 35. rewrite render_node_section, Hk.
      cbn [render_nodes render_node].
      apply str_contains_app_r, str_contains_app_l. vm_compute. reflexivity.
  - vm_compute. split; reflexivity.
  - vm_compute. split; reflexivity.
Qed.

Lemma use_ebs_section_witness :
  exists text,
    Postgresapp.generate_definition [("use_ebs", VBool false)] = Ok text
    /\ pystache_render Postgresapp.TEMPLATE_without_ebs [("use_ebs", VBool false)]
       = Ok text
    /\ str_contains "VirtualName: ephemeral0" text = true.
Proof.
  apply (proj1 use_ebs_section [("use_ebs", VBool false)]). reflexivity.
Defined.

(** C7. Rendering the database template with [docker_image] absent or
    [None] gives a text with the [ImageVersion] parameter block;
    rendering it with a non-empty [docker_image] gives a text without
    that block (the same text as the template without the bodies of
    its [{{^docker_image}}] sections renders to), in which the image is
    the Taupage source. *)
Theorem docker_image_section :
  (forall variables : dict,
      truthy_at "docker_image" variables = false ->
      exists text,
        Postgresapp.generate_definition variables = Ok text
        /\ str_contains (unlines Postgresapp.TEMPLATE_image_version) text = true)
  /\ (forall (variables : dict) (image : string),
      get "docker_image" variables = Some (VStr image) -> image <> "" ->
      exists text,
        Postgresapp.generate_definition variables = Ok text
        /\ pystache_render Postgresapp.TEMPLATE_without_image_version variables
           = Ok text
        /\ str_contains ("source: " ++ image) text = true)
  /\ (let text :=
        text_of (Postgresapp.generate_definition
                   (Postgresapp.set_default_variables [])) in
      str_contains "ImageVersion:" text = true)
  /\ (let text :=
        text_of (Postgresapp.generate_definition
                   (Postgresapp.set_default_variables
                      [("docker_image",
                        VStr "registry.opensource.zalan.do/acid/spilo-9.4:0.7")])) in
      str_contains "ImageVersion:" text = false
      /\ str_contains "Parameters:" text = false
      /\ str_contains
           "source: registry.opensource.zalan.do/acid/spilo-9.4:0.7" text = true).
Proof.
  split; [|split; [|split]].
  - intros variables Hk.
    exists (render_nodes variables (nodes_of Postgresapp.TEMPLATE)).
    split; [apply generate_definition_nodes|].
    in_node 5. rewrite render_node_inverted, Hk.
    vm_compute. reflexivity.
  - intros variables image Hget Hne.
    assert (Hk : truthy_at "docker_image" variables = true).
    { unfold truthy_at. rewrite Hget. now destruct image. }
    exists (render_nodes variables (nodes_of Postgresapp.TEMPLATE)).
    split; [apply generate_definition_nodes|]. split.
    + rewrite <- generate_definition_nodes.
      apply (render_same_outside variables true "docker_image"); [exact Hk|].
      vm_compute. reflexivity.
    + in_node 56. rewrite render_node_section, Hk.
      cbn [render_nodes render_node]. unfold interpolate. rewrite Hget.
      cbn [py_str]. apply str_contains_spec.
      exists (nl ++ "        ")%string.
      eexists. cbn. reflexivity.
  - vm_compute. reflexivity.
  - vm_compute. repeat split; reflexivity.
Qed.

Lemma docker_image_section_witness :
  exists text,
    Postgresapp.generate_definition [("docker_image", VNone)] = Ok text
    /\ str_contains (unlines Postgresapp.TEMPLATE_image_version) text = true.
Proof.
  apply (proj1 docker_image_section [("docker_image", VNone)]). reflexivity.
Defined.

(** ** Computations *)

Section Computations.

Context {W : Type}.

Local Open Scope monad_scope.

Lemma bind_ok {A B : Type} (m : M W A) (k : A -> M W B) (st st' : state W) (b : B) :
  bind m k st = (Ok b, st') ->
  exists a st1, m st = (Ok a, st1) /\ k a st1 = (Ok b, st').
Proof.
  unfold bind. destruct (m st) as [[a|e] st1]; [|discriminate].
  intros H. now exists a, st1.
Qed.

Lemma bind_raise {A B : Type} (m : M W A) (k : A -> M W B) (st st' : state W)
    (e : exn) :
  m st = (Raise e, st') -> bind m k st = (Raise e, st').
Proof. unfold bind. now intros ->. Qed.

Lemma bind_step {A B : Type} (m : M W A) (k : A -> M W B) (st st1 : state W)
    (a : A) :
  m st = (Ok a, st1) -> bind m k st = k a st1.
Proof. unfold bind. now intros ->. Qed.

Variable I : dict -> Prop.

Lemma keeps_ret {A : Type} (a : A) : keeps I (ret a : M W A).
Proof. intros st H. exact H. Qed.

Lemma keeps_raise {A : Type} (e : exn) : keeps I (raise e : M W A).
Proof. intros st H. exact H. Qed.

Lemma keeps_lift {A : Type} (r : result A) : keeps I (lift r : M W A).
Proof. intros st H. exact H. Qed.

Lemma keeps_call {A : Type} (f : W -> result A * W) : keeps I (call f).
Proof. intros st H. unfold call. now destruct (f (world st)). Qed.

Lemma keeps_random {A : Type} (f : rng -> result A * rng) :
  keeps I (random f : M W A).
Proof. intros st H. unfold random. now destruct (f (entropy st)). Qed.

Lemma keeps_getvar (k : string) : keeps I (getvar k : M W value).
Proof. intros st H. unfold getvar. now destruct (get k (variables st)). Qed.

Lemma keeps_getvars : keeps I (getvars : M W dict).
Proof. intros st H. exact H. Qed.

Lemma keeps_echo (line : string) : keeps I (echo line : M W unit).
Proof. intros st H. exact H. Qed.

Lemma keeps_store (path content : string) : keeps I (store path content : M W unit).
Proof. intros st H. exact H. Qed.

Lemma keeps_update (f : dict -> dict) :
  (forall d, I d -> I (f d)) -> keeps I (update f : M W unit).
Proof. intros Hf st H. apply Hf, H. Qed.

Lemma keeps_bind {A B : Type} (m : M W A) (k : A -> M W B) :
  keeps I m -> (forall a, keeps I (k a)) -> keeps I (bind m k).
Proof.
  intros Hm Hk st H. unfold bind. specialize (Hm st H).
  destruct (m st) as [[a|e] st1]; cbn [snd] in *; [now apply Hk | exact Hm].
Qed.

End Computations.

(** Frame rules for the hosted zone. *)
Section HostedZone.

Context {W : Type} (c : collaborators W).

Lemma last_char_dot (s : string) : last_char s = "." -> ends_with_dot s.
Proof.
  induction s as [|x s IH]; [discriminate|].
  destruct s as [|y s].
  - cbn. intros [= ->]. now exists "".
  - intros H. destruct (IH H) as [t Ht]. exists (String x t).
    cbn. now rewrite <- Ht.
Qed.

Lemma dotted_zone_setitem (k : string) (v : value) (d : dict) :
  k <> "hosted_zone" -> dotted_zone d -> dotted_zone (setitem k v d).
Proof.
  intros Hk [s [Hs Hd]]. exists s. split; [|exact Hd].
  rewrite get_setitem_other; [exact Hs | congruence].
Qed.

Lemma keeps_setvar (k : string) (v : value) :
  k <> "hosted_zone" -> keeps dotted_zone (setvar k v : M W unit).
Proof. intros Hk. apply keeps_update. intros d. now apply dotted_zone_setitem. Qed.

Lemma keeps_prompt (k text : string) (d : default_arg) (args : value -> prompt_args) :
  k <> "hosted_zone" ->
  match d with Literal _ => True | Callable f => keeps dotted_zone f end ->
  keeps dotted_zone (prompt c k text d args).
Proof.
  intros Hk Hd. unfold prompt.
  apply keeps_bind; [destruct d; [apply keeps_ret | exact Hd]|].
  intros dv. apply keeps_bind; [apply keeps_call|].
  intros v. now apply keeps_setvar.
Qed.

Lemma keeps_prompt_bare (k text : string) :
  k <> "hosted_zone" -> keeps dotted_zone (prompt_bare c k text).
Proof.
  intros Hk. unfold prompt_bare. apply keeps_bind; [apply keeps_call|].
  intros v. now apply keeps_setvar.
Qed.

Lemma keeps_choice_var (k text : string) (options : list (string * string))
    (d : string) :
  k <> "hosted_zone" -> keeps dotted_zone (choice_var c k text options d).
Proof.
  intros Hk. unfold choice_var. apply keeps_bind; [apply keeps_call|].
  intros v. now apply keeps_setvar.
Qed.

End HostedZone.

(** Walks through a computation, one step at a time. *)
Ltac keeps_step :=
  match goal with
  | |- keeps _ (bind _ _) => apply keeps_bind; [|intros ?]
  | |- keeps _ (ret _) => apply keeps_ret
  | |- keeps _ (raise _) => apply keeps_raise
  | |- keeps _ (lift _) => apply keeps_lift
  | |- keeps _ (call _) => apply keeps_call
  | |- keeps _ (random _) => apply keeps_random
  | |- keeps _ (getvar _) => apply keeps_getvar
  | |- keeps _ getvars => apply keeps_getvars
  | |- keeps _ (echo _) => apply keeps_echo
  | |- keeps _ (store _ _) => apply keeps_store
  | |- keeps _ (setvar _ _) => apply keeps_setvar; discriminate
  | |- keeps _ (prompt _ _ _ _ _) =>
      apply keeps_prompt; [discriminate | first [exact I | cbv beta iota]]
  | |- keeps _ (prompt_bare _ _ _) => apply keeps_prompt_bare; discriminate
  | |- keeps _ (choice_var _ _ _ _ _) => apply keeps_choice_var; discriminate
  | |- keeps _ (confirm _ _) => unfold confirm
  | |- keeps _ (warning _) => unfold warning
  | |- keeps _ (info _) => unfold info
  | |- keeps _ (Action _ _) => unfold Action
  | |- keeps _ (write_file _ _ _) => unfold write_file
  | |- keeps _ (if ?b then _ else _) => destruct b
  | |- keeps _ (match ?x with _ => _ end) => destruct x
  end.

Ltac keeps_auto := repeat keeps_step.

(** ** The hosted zone *)

Section HostedZoneInvariant.

Context {W : Type} (c : collaborators W).

Local Open Scope monad_scope.

(** The assignment of the hosted zone followed by the test of its last
    character leaves a dotted zone. *)
Lemma dotting_establishes (v : value) (st : state W) :
  match
    (setvar "hosted_zone" v ;;
     zone <- getvar "hosted_zone" ;;
     last <- lift (slice_last zone) ;;
     if negb (String.eqb last ".") then
       zone <- getvar "hosted_zone" ;;
       dotted <- lift (add_str zone ".") ;;
       setvar "hosted_zone" dotted
     else ret tt) st
  with
  | (Ok _, st') => dotted_zone (variables st')
  | (Raise _, _) => True
  end.
Proof.
  unfold bind, setvar, update, getvar, lift, ret. cbn [variables].
  rewrite get_setitem_same.
  destruct v as [| | |s]; cbn [slice_last]; trivial.
  destruct (String.eqb (last_char s) ".") eqn:E; cbn [negb variables].
  - apply String.eqb_eq in E. exists s. split; [apply get_setitem_same|].
    now apply last_char_dot.
  - rewrite get_setitem_same. cbn [add_str variables].
    exists (s ++ ".")%string. split; [apply get_setitem_same|]. now exists s.
Qed.

Lemma postgres_hosted_zone (account : account_info) (defaults : dict)
    (st : state W) :
  match Postgresapp.choose_hosted_zone account defaults st with
  | (Ok _, st') => dotted_zone (variables st')
  | (Raise _, _) => True
  end.
Proof.
  unfold Postgresapp.choose_hosted_zone.
  set (zone := match Domain account with
               | Some d => if String.eqb d "" then lift _ else ret _
               | None => lift _
               end).
  assert (Hz : (exists v, zone st = (Ok v, st)) \/ (exists e, zone st = (Raise e, st))).
  { unfold zone, lift, ret, Postgresapp.item.
    destruct (Domain account) as [d|]; [destruct (String.eqb d "")|];
      try (left; eexists; reflexivity);
      destruct (get "hosted_zone" defaults);
      (left; eexists; reflexivity) || (right; eexists; reflexivity). }
  destruct Hz as [[v Hv] | [e He]].
  - rewrite (bind_step _ _ _ _ _ Hv). apply dotting_establishes.
  - now rewrite (bind_raise _ _ _ _ _ He).
Qed.

Lemma webapp_hosted_zone (account : account_info) (st : state W) :
  match Webappmultiregion.choose_hosted_zone account st with
  | (Ok _, st') => dotted_zone (variables st')
  | (Raise _, _) => True
  end.
Proof. unfold Webappmultiregion.choose_hosted_zone. apply dotting_establishes. Qed.

Lemma keeps_choose_network (region : string) (account : account_info) :
  keeps dotted_zone (Postgresapp.choose_network c region account).
Proof. unfold Postgresapp.choose_network. keeps_auto. Qed.

Lemma keeps_choose_security_groups (region : string) :
  keeps dotted_zone (Postgresapp.choose_security_groups c region).
Proof.
  unfold Postgresapp.choose_security_groups, warning. cbv zeta. keeps_auto.
Qed.

Lemma keeps_choose_storage (defaults : dict) :
  keeps dotted_zone (Postgresapp.choose_storage c defaults).
Proof. unfold Postgresapp.choose_storage. keeps_auto. Qed.

Lemma keeps_choose_passwords (defaults : dict) :
  keeps dotted_zone (Postgresapp.choose_passwords c defaults).
Proof.
  unfold Postgresapp.choose_passwords, Postgresapp.random_password.
  keeps_auto.
Qed.

Lemma keeps_encrypt_each (region kms_keyid : string) (names : list string) :
  Forall (fun k => k <> "hosted_zone") names ->
  keeps dotted_zone (Postgresapp.encrypt_each c region kms_keyid names).
Proof.
  induction 1 as [|k names Hk _ IH]; cbn [Postgresapp.encrypt_each].
  - apply keeps_ret.
  - apply keeps_bind; [apply keeps_getvar|]. intros plaintext.
    apply keeps_bind; [apply keeps_call|]. intros encrypted.
    apply keeps_bind; [now apply keeps_setvar|]. intros _. exact IH.
Qed.

Lemma keeps_encrypt_passwords (region : string) :
  keeps dotted_zone (Postgresapp.encrypt_passwords c region).
Proof.
  unfold Postgresapp.encrypt_passwords. cbv zeta. keeps_auto.
  apply keeps_encrypt_each, Forall_forall. intros name Hin.
  apply filter_In in Hin. destruct Hin as [_ Hin]. intros ->. discriminate.
Qed.

Lemma keeps_set_default_variables :
  keeps dotted_zone (update Postgresapp.set_default_variables : M W unit).
Proof.
  apply keeps_update. intros d [s [Hs Hd]]. exists s. split; [|exact Hd].
  rewrite (set_default_variables_fold d).
  exact (apply_defaults_kept _ _ _ _ Hs).
Qed.

Lemma keeps_write_base_definition (account : account_info) :
  keeps dotted_zone (Webappmultiregion.write_base_definition c account).
Proof.
  unfold Webappmultiregion.write_base_definition, Action, info, write_file.
  cbv zeta. keeps_auto.
Qed.

(** C10. After [gather_user_variables] has completed, in the database
    pattern and in the multi-region HTTP pattern alike, the value of
    ['hosted_zone'] ends with a dot, whether it came from the domain
    of the account or from the default. *)
Theorem hosted_zone_ends_with_dot (region : string) (account : account_info)
    (st st' : state W) (vars : dict) :
  (Postgresapp.gather_user_variables c region account st = (Ok vars, st') ->
   exists zone, get "hosted_zone" vars = Some (VStr zone)
                /\ exists t, zone = (t ++ ".")%string)
  /\ (Webappmultiregion.gather_user_variables c region account st = (Ok vars, st') ->
      exists zone, get "hosted_zone" vars = Some (VStr zone)
                   /\ exists t, zone = (t ++ ".")%string).
Proof.
  split; intros H.
  - unfold Postgresapp.gather_user_variables in H. cbv zeta in H.
    apply bind_ok in H. destruct H as (u0 & st6 & H0 & H).
    unfold Postgresapp.choose_settings in H0.
    apply bind_ok in H0. destruct H0 as (u1 & st1 & _ & H0).
    apply bind_ok in H0. destruct H0 as (u2 & st2 & H2 & H0).
    pose proof (postgres_hosted_zone account
                  (Postgresapp.set_default_variables []) st1) as Hz.
    rewrite H2 in Hz.
    apply bind_ok in H0. destruct H0 as (u3 & st3 & H3 & H0).
    pose proof (keeps_choose_network region account st2 Hz) as K3.
    rewrite H3 in K3. cbn [snd] in K3.
    apply bind_ok in H0. destruct H0 as (u4 & st4 & H4 & H0).
    pose proof (keeps_choose_security_groups region st3 K3) as K4.
    rewrite H4 in K4. cbn [snd] in K4.
    apply bind_ok in H0. destruct H0 as (u5 & st5 & H5 & H6).
    pose proof (keeps_choose_storage (Postgresapp.set_default_variables []) st4 K4)
      as K5.
    rewrite H5 in K5. cbn [snd] in K5.
    pose proof (keeps_choose_passwords (Postgresapp.set_default_variables []) st5 K5)
      as K6.
    rewrite H6 in K6. cbn [snd] in K6.
    apply bind_ok in H. destruct H as (u7 & st7 & H7 & H).
    pose proof (keeps_encrypt_passwords region st6 K6) as K7.
    rewrite H7 in K7. cbn [snd] in K7.
    apply bind_ok in H. destruct H as (u8 & st8 & H8 & H).
    pose proof (keeps_set_default_variables st7 K7) as K8.
    rewrite H8 in K8. cbn [snd] in K8.
    apply bind_ok in H. destruct H as (bucket & st9 & H9 & H).
    pose proof (keeps_getvar dotted_zone "wal_s3_bucket" st8 K8) as K9.
    rewrite H9 in K9. cbn [snd] in K9.
    apply bind_ok in H. destruct H as (u9 & st10 & H10 & H).
    pose proof (keeps_call dotted_zone (check_s3_bucket c bucket region) st9 K9)
      as K10.
    rewrite H10 in K10. cbn [snd] in K10.
    unfold getvars in H. injection H as <- _. exact K10.
  - unfold Webappmultiregion.gather_user_variables in H.
    apply bind_ok in H. destruct H as (u10 & st1 & _ & H).
    apply bind_ok in H. destruct H as (u11 & st2 & H2 & H).
    pose proof (webapp_hosted_zone account st1) as Hz. rewrite H2 in Hz.
    apply bind_ok in H. destruct H as (u12 & st3 & H3 & H).
    pose proof (keeps_write_base_definition account st2 Hz) as K3.
    rewrite H3 in K3. cbn [snd] in K3.
    unfold getvars in H. injection H as <- _. exact K3.
Qed.

End HostedZoneInvariant.

Lemma hosted_zone_ends_with_dot_witness :
  exists zone,
    get "hosted_zone"
        (Example.returned
           (Postgresapp.gather_user_variables (Example.scripted Example.plain)
              "eu-west-1" Example.account (Example.start "myapp.yaml")) [])
    = Some (VStr zone)
    /\ exists t, zone = (t ++ ".")%string.
Proof.
  apply (proj1 (hosted_zone_ends_with_dot (Example.scripted Example.plain)
                  "eu-west-1" Example.account (Example.start "myapp.yaml")
                  (snd (Postgresapp.gather_user_variables
                          (Example.scripted Example.plain)
                          "eu-west-1" Example.account
                          (Example.start "myapp.yaml")))
                  (Example.returned
                     (Postgresapp.gather_user_variables
                        (Example.scripted Example.plain)
                        "eu-west-1" Example.account
                        (Example.start "myapp.yaml")) []))).
  vm_compute. reflexivity.
Defined.

(** ** The hard failures of the database pattern *)

Section HardFailures.

Context {W : Type} (c : collaborators W).

Local Open Scope monad_scope.

Lemma call_run {A : Type} (f : W -> result A * W) (st : state W)
    (r : result A) (w : W) :
  f (world st) = (r, w) -> call f st = (r, with_world st w).
Proof. unfold call. now intros ->. Qed.

(** With encryption requested and no usable key, the encryption step
    raises the usage error. *)
Lemma encrypt_passwords_no_key (region : string) (st : state W) (w2 w3 : W)
    (ks : list kms_key) :
  click_confirm c "Do you wish to encrypt these passwords using KMS?" false
                (world st) = (Ok true, w2) ->
  list_kms_keys c region w2 = (Ok ks, w3) ->
  Postgresapp.usable_keys ks = [] ->
  Postgresapp.encrypt_passwords c region st
  = (Raise (UsageError Postgresapp.NO_KMS_KEY), with_world st w3).
Proof.
  intros Hc Hl Hu. unfold Postgresapp.encrypt_passwords.
  rewrite (bind_step _ _ _ _ _ (call_run _ st _ _ Hc)).
  rewrite (bind_step _ _ _ _ _
             (call_run (list_kms_keys c region) (with_world st w2) _ _ Hl)).
  cbv zeta. rewrite Hu. reflexivity.
Qed.

(** C3, as amended.  If the operator requests the encryption of the
    passwords and no usable KMS key is available, then
    [gather_user_variables] aborts with the usage error; and it is not
    the only way in which it aborts: an exception raised by
    [check_s3_bucket] passes through it to the caller as well. *)
Theorem kms_usage_error_and_bucket_failure (region : string)
    (account : account_info) (st st1 : state W) :
  Postgresapp.choose_settings c region account
    (Postgresapp.set_default_variables []) st = (Ok tt, st1) ->
  (forall (w2 w3 : W) (ks : list kms_key),
      click_confirm c "Do you wish to encrypt these passwords using KMS?" false
                    (world st1) = (Ok true, w2) ->
      list_kms_keys c region w2 = (Ok ks, w3) ->
      Postgresapp.usable_keys ks = [] ->
      fst (Postgresapp.gather_user_variables c region account st)
      = Raise (UsageError Postgresapp.NO_KMS_KEY))
  /\ (forall (st2 : state W) (bucket : value) (e : exn) (w : W),
      Postgresapp.encrypt_passwords c region st1 = (Ok tt, st2) ->
      get "wal_s3_bucket" (Postgresapp.set_default_variables (variables st2))
      = Some bucket ->
      check_s3_bucket c bucket region (world st2) = (Raise e, w) ->
      fst (Postgresapp.gather_user_variables c region account st) = Raise e).
Proof.
  intros Hs. split.
  - intros w2 w3 ks Hc Hl Hu.
    unfold Postgresapp.gather_user_variables. cbv zeta.
    rewrite (bind_step _ _ _ _ _ Hs).
    rewrite (bind_raise _ _ _ _ _ (encrypt_passwords_no_key region st1 w2 w3 ks Hc Hl Hu)).
    reflexivity.
  - intros st2 bucket e w He Hb Hf.
    unfold Postgresapp.gather_user_variables. cbv zeta.
    rewrite (bind_step _ _ _ _ _ Hs).
    rewrite (bind_step _ _ _ _ _ He).
    unfold bind at 1. unfold update. cbv beta iota.
    unfold bind at 1. unfold getvar. cbn [variables].
    rewrite Hb.
    unfold bind at 1. unfold call. cbn [world].
    rewrite Hf. reflexivity.
Qed.

End HardFailures.

Lemma kms_usage_error_and_bucket_failure_witness :
  fst (Postgresapp.gather_user_variables (Example.scripted Example.no_usable_key)
         "eu-west-1" Example.account (Example.start "myapp.yaml"))
  = Raise (UsageError Postgresapp.NO_KMS_KEY).
Proof.
  apply (proj1 (kms_usage_error_and_bucket_failure
                  (Example.scripted Example.no_usable_key)
                  "eu-west-1" Example.account (Example.start "myapp.yaml")
                  (snd (Postgresapp.choose_settings
                          (Example.scripted Example.no_usable_key)
                          "eu-west-1" Example.account
                          (Postgresapp.set_default_variables [])
                          (Example.start "myapp.yaml")))
                  ltac:(vm_compute; reflexivity))
               tt tt (Example.keys_offered Example.no_usable_key));
    vm_compute; reflexivity.
Defined.

(** With no encryption requested and a bucket check that fails, the
    run aborts with the exception of the bucket check. *)
Lemma broken_bucket_run :
  fst (Postgresapp.gather_user_variables (Example.scripted Example.broken_bucket)
         "eu-west-1" Example.account (Example.start "myapp.yaml"))
  = Raise (External "S3").
Proof. vm_compute. reflexivity. Qed.

(** C3, as stated: the usage error is not the only hard failure. *)
Lemma raises_usage_errors_only_counterexample : ~ raises_usage_errors_only.
Proof.
  intros H.
  destruct (H unit (Example.scripted Example.broken_bucket) "eu-west-1"
              Example.account (Example.start "myapp.yaml") (External "S3")
              broken_bucket_run) as [msg Hmsg].
  discriminate Hmsg.
Qed.

(** ** The files of the multi-region pattern *)

Section Files.

Context {W : Type} (c : collaborators W).

Local Open Scope monad_scope.

Lemma leaves_files_ret {A : Type} (a : A) : leaves_files (ret a : M W A).
Proof. intros st. reflexivity. Qed.

Lemma leaves_files_lift {A : Type} (r : result A) : leaves_files (lift r : M W A).
Proof. intros st. reflexivity. Qed.

Lemma leaves_files_call {A : Type} (f : W -> result A * W) : leaves_files (call f).
Proof. intros st. unfold call. now destruct (f (world st)). Qed.

Lemma leaves_files_getvar (k : string) : leaves_files (getvar k : M W value).
Proof. intros st. unfold getvar. now destruct (get k (variables st)). Qed.

Lemma leaves_files_setvar (k : string) (v : value) :
  leaves_files (setvar k v : M W unit).
Proof. intros st. reflexivity. Qed.

Lemma leaves_files_bind {A B : Type} (m : M W A) (k : A -> M W B) :
  leaves_files m -> (forall a, leaves_files (k a)) -> leaves_files (bind m k).
Proof.
  intros Hm Hk st. unfold bind. specialize (Hm st).
  destruct (m st) as [[a|e] st1]; cbn [snd] in *; [|exact Hm].
  now rewrite Hk.
Qed.

Lemma leaves_files_prompt (k text : string) (d : default_arg)
    (args : value -> prompt_args) :
  match d with Literal _ => True | Callable f => leaves_files f end ->
  leaves_files (prompt c k text d args).
Proof.
  intros Hd. unfold prompt.
  apply leaves_files_bind; [destruct d; [apply leaves_files_ret | exact Hd]|].
  intros dv. apply leaves_files_bind; [apply leaves_files_call|].
  intros v. apply leaves_files_setvar.
Qed.





(** The last dot of [s ++ ".yaml"] is the one before [yaml]. *)
Lemma rfind_yaml (s : string) :
  rfind "." (s ++ ".yaml") = Z.of_nat (String.length s).
Proof.
  induction s as [|x s IH]; [reflexivity|].
  cbn [append rfind String.length]. rewrite IH.
  destruct (Z.eqb_spec (Z.of_nat (String.length s)) (-1)); lia.
Qed.

Lemma substring_app (s t : string) :
  String.substring 0 (String.length s) (s ++ t) = s.
Proof.
  induction s as [|x s IH]; cbn.
  - now destruct t.
  - now rewrite IH.
Qed.

Lemma length_app (s t : string) :
  String.length (s ++ t) = String.length s + String.length t.
Proof. induction s as [|x s IH]; cbn; [reflexivity | now rewrite IH]. Qed.

Lemma stem_yaml (s : string) :
  s <> "" -> Webappmultiregion.stem (s ++ ".yaml") = s.
Proof.
  intros Hs. unfold Webappmultiregion.stem, take. rewrite rfind_yaml.
  destruct s as [|x s]; [contradiction|].
  destruct (Z.ltb_spec 0 (Z.of_nat (String.length (String x s))));
    [|cbn [String.length] in *; lia].
  rewrite Nat2Z.id. apply substring_app.
Qed.

End Files.


(** For the definition file [myapp.yaml] the one file written during
    the gathering is [myapp-base.yaml]. *)
Lemma base_definition_example :
  map fst (files (snd (Webappmultiregion.gather_user_variables
                         (Example.scripted Example.plain) "eu-west-1"
                         Example.account (Example.start "myapp.yaml"))))
  = ["myapp-base.yaml"].
Proof. vm_compute. reflexivity. Qed.

(** ** The examples of the source's docstrings *)

Example ebs_optimized_supported_c3_xlarge :
  Postgresapp.ebs_optimized_supported (VStr "c3.xlarge") = true.
Proof. reflexivity. Qed.

Example ebs_optimized_supported_t2_micro :
  Postgresapp.ebs_optimized_supported (VStr "t2.micro") = false.
Proof. reflexivity. Qed.

Example generate_random_password_61 :
  String.length
    (text_of (fst (Postgresapp.generate_random_password 61
                     {| draws := fun i => 31 * i + 7; pos := 0 |})))
  = 61.
Proof. vm_compute. reflexivity. Qed.

Example generate_definition_defaults :
  Nat.ltb 300
    (String.length
       (text_of (Postgresapp.generate_definition
                   (Postgresapp.set_default_variables []))))
  = true.
Proof. vm_compute. reflexivity. Qed.

(* ================================================================== *)
(** * Part III. Further properties of the code *)
(* ================================================================== *)

(** ** The defaulting step on any mapping *)

Lemma get_setdefault_absent (k k' : string) (v' : value) (d : dict) :
  get k d = None ->
  get k (setdefault k' v' d) = if String.eqb k k' then Some v' else None.
Proof.
  intros Hk. unfold setdefault, contains_key.
  destruct (String.eqb k k') eqn:E.
  - apply String.eqb_eq in E. subst k'. rewrite Hk. apply get_setitem_same.
  - apply String.eqb_neq in E.
    destruct (get k' d); [exact Hk|].
    now rewrite get_setitem_other.
Qed.

Lemma apply_defaults_lookup (tbl : list (string * value)) :
  forall (d : dict) (k : string),
    get k (apply_defaults tbl d)
    = match get k d with
      | Some v => Some v
      | None => get k tbl
      end.
Proof.
  induction tbl as [|[k' v'] tbl IH]; intros d k.
  - cbn. now destruct (get k d).
  - cbn [apply_defaults fold_left fst snd]. fold (apply_defaults tbl).
    rewrite IH. destruct (get k d) as [v|] eqn:Hk.
    + now rewrite (get_setdefault_kept _ _ _ _ _ Hk).
    + rewrite (get_setdefault_absent _ _ _ _ Hk). cbn [get].
      now destruct (String.eqb k k').
Qed.

(** After [set_default_variables] a key has the value it had in the
    input, and the default of the table if it had none; a key that is
    in neither is not bound. *)
Theorem set_default_variables_lookup (variables : dict) (k : string) :
  get k (Postgresapp.set_default_variables variables)
  = match get k variables with
    | Some v => Some v
    | None => get k Postgresapp.default_table
    end.
Proof.
  rewrite (set_default_variables_fold variables).
  exact (apply_defaults_lookup Postgresapp.default_table variables k).
Qed.

(** ** The registry lookup: edge cases and ties *)

(** An answer that is OK but holds no entry at all, an empty list or
    an empty object, does not give the empty string: the loop never
    runs, [latest] stays [None], and the image address is followed by
    the text of [None]. *)
Theorem get_latest_spilo_image_no_entries (container_text : json -> string)
    (requests_get : string -> result response)
    (registry_url address : string) (r : response) :
  requests_get (registry_url ++ address) = Ok r ->
  ok r = true ->
  json_body r = Ok (JArr []) \/ json_body r = Ok (JObj []) ->
  Postgresapp.get_latest_spilo_image container_text requests_get
                                     registry_url address
  = "registry.opensource.zalan.do/acid/spilo-9.4:None".
Proof.
  intros Hr Hok Hbody.
  unfold Postgresapp.get_latest_spilo_image, Postgresapp.spilo_image_attempt.
  rewrite Hr. cbn [rbind]. rewrite Hok.
  destruct Hbody as [-> | ->]; reflexivity.
Qed.

Lemma get_latest_spilo_image_no_entries_witness :
  Postgresapp.get_latest_spilo_image (fun _ => "")
    (fun _ => Ok {| ok := true; json_body := Ok (JObj []) |})
    Postgresapp.DEFAULT_REGISTRY_URL Postgresapp.DEFAULT_ADDRESS
  = "registry.opensource.zalan.do/acid/spilo-9.4:None".
Proof.
  apply (get_latest_spilo_image_no_entries (fun _ => "")
           (fun _ => Ok {| ok := true; json_body := Ok (JObj []) |})
           Postgresapp.DEFAULT_REGISTRY_URL Postgresapp.DEFAULT_ADDRESS
           {| ok := true; json_body := Ok (JObj []) |});
    [reflexivity | reflexivity | right; reflexivity].
Defined.

(** One entry without a ['created'] field, or one item that is not an
    object, anywhere in the list makes the whole lookup return the
    empty string, whatever the other entries are: the sort keys are
    computed for all items before any tag is looked at. *)
Theorem get_latest_spilo_image_bad_entry (container_text : json -> string)
    (requests_get : string -> result response)
    (registry_url address : string) (r : response)
    (items : list json) (x : json) :
  requests_get (registry_url ++ address) = Ok r ->
  ok r = true ->
  json_body r = Ok (JArr items) ->
  In x items ->
  match x with
  | JObj fields => lookup "created" fields = None
  | _ => True
  end ->
  Postgresapp.get_latest_spilo_image container_text requests_get
                                     registry_url address
  = "".
Proof.
  intros Hr Hok Hbody Hin Hx.
  destruct (select_latest_bad_item items x Hin) as [e He].
  { destruct x as [| | | | |fields]; try (now exists TypeError).
    exists (KeyError "created"). cbn [getitem]. now rewrite Hx. }
  unfold Postgresapp.get_latest_spilo_image, Postgresapp.spilo_image_attempt.
  rewrite Hr. cbn [rbind]. rewrite Hok, Hbody. cbn [rbind].
  now rewrite He.
Qed.

Lemma get_latest_spilo_image_bad_entry_witness :
  Postgresapp.get_latest_spilo_image (fun _ => "")
    (fun _ => Ok {| ok := true;
                    json_body :=
                      Ok (JArr [ JObj [("name", JStr "1.0");
                                       ("created", JStr "2015-06-01")];
                                 JObj [("name", JStr "0.9")] ]) |})
    Postgresapp.DEFAULT_REGISTRY_URL Postgresapp.DEFAULT_ADDRESS
  = "".
Proof.
  apply (get_latest_spilo_image_bad_entry (fun _ => "")
           (fun _ => Ok {| ok := true;
                           json_body :=
                             Ok (JArr [ JObj [("name", JStr "1.0");
                                              ("created", JStr "2015-06-01")];
                                        JObj [("name", JStr "0.9")] ]) |})
           Postgresapp.DEFAULT_REGISTRY_URL Postgresapp.DEFAULT_ADDRESS
           {| ok := true;
              json_body :=
                Ok (JArr [ JObj [("name", JStr "1.0");
                                 ("created", JStr "2015-06-01")];
                           JObj [("name", JStr "0.9")] ]) |}
           [ JObj [("name", JStr "1.0"); ("created", JStr "2015-06-01")];
             JObj [("name", JStr "0.9")] ]
           (JObj [("name", JStr "0.9")]));
    [reflexivity | reflexivity | reflexivity
    | right; left; reflexivity | reflexivity].
Defined.

Section Ties.

Import Registry.

Lemma string_leb_ltb_false (a b : string) :
  String.leb b a = true -> String.ltb a b = false.
Proof.
  unfold String.ltb, String.leb. rewrite (String.compare_antisym a b).
  now destruct (String.compare b a).
Qed.

(** From [b] no newer than [y] and [y] older than [x]: [b] is older
    than [x]. *)
Lemma string_ge_lt_trans (y b x : string) :
  String.ltb y b = false -> String.ltb y x = true -> String.ltb b x = true.
Proof.
  intros Hyb Hyx. unfold String.ltb in *.
  destruct (String.compare b y) eqn:E.
  - apply String.compare_eq_iff in E. now subst.
  - destruct (String.compare y x) eqn:E'; try discriminate.
    now rewrite (string_compare_lt_trans _ _ _ E E').
  - rewrite (String.compare_antisym y b), E in Hyb. discriminate.
Qed.

Lemma find_insert_entry (p : tag_entry -> bool) (x : tag_entry)
    (acc : list tag_entry) :
  StronglySorted no_older acc ->
  find p (insert_entry x acc) = newer_or_first p (find p acc) x.
Proof.
  induction acc as [|y acc IH]; intros Hs.
  - cbn. unfold newer_or_first. now destruct (p x).
  - apply StronglySorted_inv in Hs. destruct Hs as [Hacc Hy].
    cbn [insert_entry].
    destruct (String.ltb (created y) (created x)) eqn:E.
    + cbn [find]. unfold newer_or_first.
      destruct (p x) eqn:Px; [|reflexivity].
      destruct (p y) eqn:Py; [now rewrite E|].
      destruct (find p acc) as [b|] eqn:Hf; [|reflexivity].
      apply find_some in Hf. destruct Hf as [Hb _].
      rewrite Forall_forall in Hy.
      now rewrite (string_ge_lt_trans _ _ _ (Hy b Hb) E).
    + cbn [find]. destruct (p y) eqn:Py.
      * unfold newer_or_first. rewrite E. now destruct (p x).
      * now apply IH.
Qed.

Lemma find_sort_entries (p : tag_entry -> bool) (todo : list tag_entry) :
  forall acc,
    StronglySorted no_older acc ->
    find p (sort_entries todo acc)
    = fold_left (newer_or_first p) todo (find p acc).
Proof.
  induction todo as [|x todo IH]; intros acc Hs; [reflexivity|].
  cbn [sort_entries fold_left].
  rewrite IH by now apply insert_entry_sorted.
  now rewrite find_insert_entry.
Qed.

Lemma fold_newer_kept (p : tag_entry -> bool) (e : tag_entry)
    (l : list tag_entry) :
  (forall e', In e' l -> p e' = true ->
              String.ltb (created e) (created e') = false) ->
  fold_left (newer_or_first p) l (Some e) = Some e.
Proof.
  induction l as [|x l IH]; intros H; [reflexivity|].
  cbn [fold_left]. unfold newer_or_first at 2.
  destruct (p x) eqn:Px.
  - rewrite (H x (or_introl eq_refl) Px). apply IH.
    intros e' He'. apply H. now right.
  - apply IH. intros e' He'. apply H. now right.
Qed.

Lemma fold_newer_older (p : tag_entry -> bool) (e : tag_entry)
    (l : list tag_entry) :
  forall best,
    match best with
    | Some b => String.ltb (created b) (created e) = true
    | None => True
    end ->
    (forall e', In e' l -> p e' = true ->
                String.ltb (created e') (created e) = true) ->
    match fold_left (newer_or_first p) l best with
    | Some b => String.ltb (created b) (created e) = true
    | None => True
    end.
Proof.
  induction l as [|x l IH]; intros best Hb H; [exact Hb|].
  cbn [fold_left]. apply IH; [|intros e' He'; apply H; now right].
  unfold newer_or_first. destruct (p x) eqn:Px; [|exact Hb].
  pose proof (H x (or_introl eq_refl) Px) as Hx.
  destruct best as [b|]; [|exact Hx].
  now destruct (String.ltb (created b) (created x)).
Qed.

Lemma first_newest_split (p : tag_entry -> bool) (l1 l2 : list tag_entry)
    (e : tag_entry) :
  p e = true ->
  (forall e', In e' l1 -> p e' = true ->
              String.ltb (created e') (created e) = true) ->
  (forall e', In e' l2 -> p e' = true ->
              String.leb (created e') (created e) = true) ->
  first_newest p (l1 ++ e :: l2) = Some e.
Proof.
  intros Pe H1 H2. unfold first_newest.
  rewrite fold_left_app. cbn [fold_left].
  pose proof (fold_newer_older p e l1 None I H1) as Hb.
  assert (Hstep : newer_or_first p (fold_left (newer_or_first p) l1 None) e
                  = Some e).
  { unfold newer_or_first at 1. rewrite Pe. revert Hb.
    destruct (fold_left (newer_or_first p) l1 None);
      [intros Hb; now rewrite Hb | reflexivity]. }
  rewrite Hstep. apply fold_newer_kept.
  intros e' He' Pe'. now apply string_leb_ltb_false, H2.
Qed.

(** Ties are broken by the order of the registry's answer: the entry
    selected is the non-snapshot entry that is strictly newer than
    every non-snapshot entry before it and at least as new as every
    non-snapshot entry after it. *)
Theorem get_latest_spilo_image_first_of_newest
    (container_text : json -> string) (before after : list tag_entry)
    (e : tag_entry) (registry_url address : string) :
  is_snapshot e = false ->
  (forall e', In e' before -> is_snapshot e' = false ->
              String.ltb (created e') (created e) = true) ->
  (forall e', In e' after -> is_snapshot e' = false ->
              String.leb (created e') (created e) = true) ->
  Postgresapp.get_latest_spilo_image container_text
    (serving (before ++ e :: after)) registry_url address
  = (Postgresapp.SPILO_IMAGE_ADDRESS ++ ":" ++ name e)%string.
Proof.
  intros He H1 H2.
  rewrite get_latest_spilo_image_entries.
  rewrite (find_sort_entries (fun e0 => negb (is_snapshot e0))
             (before ++ e :: after) []) by constructor.
  cbn [find].
  change (fold_left (newer_or_first (fun e0 => negb (is_snapshot e0)))
            (before ++ e :: after) None)
    with (first_newest (fun e0 => negb (is_snapshot e0)) (before ++ e :: after)).
  rewrite (first_newest_split (fun e0 => negb (is_snapshot e0)) before after e).
  - reflexivity.
  - now rewrite He.
  - intros e' Hin Hp. apply H1; [exact Hin|]. now destruct (is_snapshot e').
  - intros e' Hin Hp. apply H2; [exact Hin|]. now destruct (is_snapshot e').
Qed.

End Ties.

Lemma get_latest_spilo_image_first_of_newest_witness :
  Postgresapp.get_latest_spilo_image (fun _ => "")
    (Registry.serving
       ([ {| Registry.name := "0.9"; Registry.created := "2015-05-01" |} ]
        ++ {| Registry.name := "1.0"; Registry.created := "2015-06-01" |}
        :: [ {| Registry.name := "1.0-hotfix"; Registry.created := "2015-06-01" |};
             {| Registry.name := "1.1-SNAPSHOT"; Registry.created := "2015-07-01" |} ]))
    Postgresapp.DEFAULT_REGISTRY_URL Postgresapp.DEFAULT_ADDRESS
  = (Postgresapp.SPILO_IMAGE_ADDRESS ++ ":" ++ "1.0")%string.
Proof.
  apply (get_latest_spilo_image_first_of_newest (fun _ => "")
           [ {| Registry.name := "0.9"; Registry.created := "2015-05-01" |} ]
           [ {| Registry.name := "1.0-hotfix"; Registry.created := "2015-06-01" |};
             {| Registry.name := "1.1-SNAPSHOT"; Registry.created := "2015-07-01" |} ]
           {| Registry.name := "1.0"; Registry.created := "2015-06-01" |}).
  - reflexivity.
  - intros e' [<- | []] _. reflexivity.
  - intros e' [<- | [<- | []]] H; [reflexivity | discriminate H].
Defined.

(** ** Frame rules for one key *)

Section Frame.

Context {W : Type} (c : collaborators W).

Variable k0 : string.
Variable Q : option value -> Prop.

Lemma about_setitem (k : string) (v : value) (d : dict) :
  k <> k0 -> about k0 Q d -> about k0 Q (setitem k v d).
Proof.
  intros Hk H. unfold about in *.
  rewrite get_setitem_other; [exact H | congruence].
Qed.

Lemma about_setvar (k : string) (v : value) :
  k <> k0 -> keeps (about k0 Q) (setvar k v : M W unit).
Proof. intros Hk. apply keeps_update. intros d. now apply about_setitem. Qed.

Lemma about_prompt (k text : string) (d : default_arg) (args : value -> prompt_args) :
  k <> k0 ->
  match d with Literal _ => True | Callable f => keeps (about k0 Q) f end ->
  keeps (about k0 Q) (prompt c k text d args).
Proof.
  intros Hk Hd. unfold prompt.
  apply keeps_bind; [destruct d; [apply keeps_ret | exact Hd]|].
  intros dv. apply keeps_bind; [apply keeps_call|].
  intros v. now apply about_setvar.
Qed.

Lemma about_prompt_bare (k text : string) :
  k <> k0 -> keeps (about k0 Q) (prompt_bare c k text).
Proof.
  intros Hk. unfold prompt_bare. apply keeps_bind; [apply keeps_call|].
  intros v. now apply about_setvar.
Qed.

Lemma about_choice_var (k text : string) (options : list (string * string))
    (d : string) :
  k <> k0 -> keeps (about k0 Q) (choice_var c k text options d).
Proof.
  intros Hk. unfold choice_var. apply keeps_bind; [apply keeps_call|].
  intros v. now apply about_setvar.
Qed.

Lemma about_encrypt_each (region kms_keyid : string) (names : list string) :
  Forall (fun k => k <> k0) names ->
  keeps (about k0 Q) (Postgresapp.encrypt_each c region kms_keyid names).
Proof.
  induction 1 as [|k names Hk _ IH]; cbn [Postgresapp.encrypt_each].
  - apply keeps_ret.
  - apply keeps_bind; [apply keeps_getvar|]. intros plaintext.
    apply keeps_bind; [apply keeps_call|]. intros encrypted.
    apply keeps_bind; [now apply about_setvar|]. intros _. exact IH.
Qed.

End Frame.

(** Walks through a computation that leaves one key alone. *)
Ltac about_step :=
  match goal with
  | |- keeps _ (bind _ _) => apply keeps_bind; [|intros ?]
  | |- keeps _ (ret _) => apply keeps_ret
  | |- keeps _ (raise _) => apply keeps_raise
  | |- keeps _ (lift _) => apply keeps_lift
  | |- keeps _ (call _) => apply keeps_call
  | |- keeps _ (random _) => apply keeps_random
  | |- keeps _ (getvar _) => apply keeps_getvar
  | |- keeps _ getvars => apply keeps_getvars
  | |- keeps _ (echo _) => apply keeps_echo
  | |- keeps _ (store _ _) => apply keeps_store
  | |- keeps _ (setvar _ _) => apply about_setvar; discriminate
  | |- keeps _ (prompt _ _ _ _ _) =>
      apply about_prompt; [discriminate | first [exact I | cbv beta iota]]
  | |- keeps _ (prompt_bare _ _ _) => apply about_prompt_bare; discriminate
  | |- keeps _ (choice_var _ _ _ _ _) => apply about_choice_var; discriminate
  | |- keeps _ (confirm _ _) => unfold confirm
  | |- keeps _ (warning _) => unfold warning
  | |- keeps _ (info _) => unfold info
  | |- keeps _ (Action _ _) => unfold Action
  | |- keeps _ (write_file _ _ _) => unfold write_file
  | |- keeps _ (if ?b then _ else _) => destruct b
  | |- keeps _ (match ?x with _ => _ end) => destruct x
  end.

Ltac about_auto := repeat about_step.

(** ** The value of the hosted zone *)

Section HostedZoneValue.

Context {W : Type} (c : collaborators W).

Local Open Scope monad_scope.

Lemma dotting_value (s : string) (st : state W) :
  exists st',
    (setvar "hosted_zone" (VStr s) ;;
     zone <- getvar "hosted_zone" ;;
     last <- lift (slice_last zone) ;;
     if negb (String.eqb last ".") then
       zone <- getvar "hosted_zone" ;;
       dotted <- lift (add_str zone ".") ;;
       setvar "hosted_zone" dotted
     else ret tt) st = (Ok tt, st')
    /\ zone_is (dotted s) (variables st').
Proof.
  unfold bind, setvar, update, getvar, lift, ret. cbn [variables].
  rewrite get_setitem_same. cbn [slice_last]. unfold dotted, zone_is, about.
  destruct (String.eqb (last_char s) "."); cbn [negb variables].
  - eexists. split; [reflexivity|]. apply get_setitem_same.
  - rewrite get_setitem_same. cbn [add_str variables].
    eexists. split; [reflexivity|]. cbn [variables]. apply get_setitem_same.
Qed.

Lemma postgres_zone_value (account : account_info) (st st' : state W) (u : unit) :
  Postgresapp.choose_hosted_zone account (Postgresapp.set_default_variables []) st
  = (Ok u, st') ->
  zone_is (dotted (zone_of account)) (variables st').
Proof.
  unfold Postgresapp.choose_hosted_zone.
  set (zone := match Domain account with
               | Some d => if String.eqb d "" then lift _ else ret _
               | None => lift _
               end).
  assert (Hz : zone st = (Ok (VStr (zone_of account)), st)).
  { unfold zone, zone_of, lift, ret.
    assert (Hd : Postgresapp.item (Postgresapp.set_default_variables [])
                                  "hosted_zone" = Ok (VStr "example.com"))
      by (vm_compute; reflexivity).
    rewrite Hd.
    destruct (Domain account) as [d|]; [destruct (String.eqb d "")|];
      reflexivity. }
  rewrite (bind_step _ _ _ _ _ Hz).
  destruct (dotting_value (zone_of account) st) as [st1 [Hrun Hzone]].
  rewrite Hrun. intros [= _ <-]. exact Hzone.
Qed.

Lemma webapp_zone_value (account : account_info) (st st' : state W) (u : unit) :
  Webappmultiregion.choose_hosted_zone account st = (Ok u, st') ->
  zone_is (dotted (zone_of account)) (variables st').
Proof.
  unfold Webappmultiregion.choose_hosted_zone.
  assert (Hv : match Domain account with
               | Some d => if String.eqb d "" then VStr "example.com" else VStr d
               | None => VStr "example.com"
               end = VStr (zone_of account)).
  { unfold zone_of. destruct (Domain account) as [d|];
      [destruct (String.eqb d "")|]; reflexivity. }
  rewrite Hv.
  destruct (dotting_value (zone_of account) st) as [st1 [Hrun Hzone]].
  rewrite Hrun. intros [= _ <-]. exact Hzone.
Qed.

Lemma zone_is_set_default_variables (z : string) :
  keeps (zone_is z) (update Postgresapp.set_default_variables : M W unit).
Proof.
  apply keeps_update. intros d H. unfold zone_is, about in *.
  rewrite (set_default_variables_fold d).
  exact (apply_defaults_kept _ _ _ _ H).
Qed.

Lemma zone_is_after_hosted_zone (z : string) (region : string)
    (account : account_info) (defaults : dict) :
  keeps (zone_is z)
    (Postgresapp.choose_network c region account ;;
     Postgresapp.choose_security_groups c region ;;
     Postgresapp.choose_storage c defaults ;;
     Postgresapp.choose_passwords c defaults).
Proof.
  unfold Postgresapp.choose_network, Postgresapp.choose_security_groups,
    Postgresapp.choose_storage, Postgresapp.choose_passwords,
    Postgresapp.random_password, zone_is.
  cbv zeta. about_auto.
Qed.

Lemma zone_is_encrypt_passwords (z : string) (region : string) :
  keeps (zone_is z) (Postgresapp.encrypt_passwords c region).
Proof.
  unfold Postgresapp.encrypt_passwords, zone_is. cbv zeta. about_auto.
  apply about_encrypt_each, Forall_forall. intros name Hin.
  apply filter_In in Hin. destruct Hin as [_ Hin]. intros ->. discriminate.
Qed.

Lemma zone_is_write_base_definition (z : string) (account : account_info) :
  keeps (zone_is z) (Webappmultiregion.write_base_definition c account).
Proof.
  unfold Webappmultiregion.write_base_definition, zone_is. cbv zeta.
  about_auto.
Qed.

(** When [gather_user_variables] returns, in either pattern, the
    hosted zone is the domain of the account, or [example.com] if the
    account has no domain or an empty one, with exactly one dot added
    at the end unless it already ends with a dot; nothing the operator
    answers changes it. *)
Theorem hosted_zone_value (region : string) (account : account_info)
    (st st' : state W) (vars : dict) :
  Postgresapp.gather_user_variables c region account st = (Ok vars, st')
  \/ Webappmultiregion.gather_user_variables c region account st = (Ok vars, st') ->
  get "hosted_zone" vars = Some (VStr (dotted (zone_of account))).
Proof.
  intros [H | H].
  - unfold Postgresapp.gather_user_variables in H. cbv zeta in H.
    apply bind_ok in H. destruct H as (u0 & st6 & H0 & H).
    unfold Postgresapp.choose_settings in H0.
    apply bind_ok in H0. destruct H0 as (u1 & st1 & _ & H0).
    apply bind_ok in H0. destruct H0 as (u2 & st2 & H2 & H0).
    pose proof (postgres_zone_value account st1 st2 u2 H2) as Hz.
    pose proof (zone_is_after_hosted_zone (dotted (zone_of account)) region
                  account (Postgresapp.set_default_variables []) st2 Hz) as K6.
    rewrite H0 in K6. cbn [snd] in K6.
    apply bind_ok in H. destruct H as (u7 & st7 & H7 & H).
    pose proof (zone_is_encrypt_passwords _ region st6 K6) as K7.
    rewrite H7 in K7. cbn [snd] in K7.
    apply bind_ok in H. destruct H as (u8 & st8 & H8 & H).
    pose proof (zone_is_set_default_variables _ st7 K7) as K8.
    rewrite H8 in K8. cbn [snd] in K8.
    apply bind_ok in H. destruct H as (bucket & st9 & H9 & H).
    pose proof (keeps_getvar (zone_is (dotted (zone_of account)))
                  "wal_s3_bucket" st8 K8) as K9.
    rewrite H9 in K9. cbn [snd] in K9.
    apply bind_ok in H. destruct H as (u9 & st10 & H10 & H).
    pose proof (keeps_call (zone_is (dotted (zone_of account)))
                  (check_s3_bucket c bucket region) st9 K9) as K10.
    rewrite H10 in K10. cbn [snd] in K10.
    unfold getvars in H. injection H as <- _. exact K10.
  - unfold Webappmultiregion.gather_user_variables in H.
    apply bind_ok in H. destruct H as (u1 & st1 & _ & H).
    apply bind_ok in H. destruct H as (u2 & st2 & H2 & H).
    pose proof (webapp_zone_value account st1 st2 u2 H2) as Hz.
    apply bind_ok in H. destruct H as (u3 & st3 & H3 & H).
    pose proof (zone_is_write_base_definition _ account st2 Hz) as K3.
    rewrite H3 in K3. cbn [snd] in K3.
    unfold getvars in H. injection H as <- _. exact K3.
Qed.

End HostedZoneValue.

Lemma hosted_zone_value_witness :
  get "hosted_zone"
      (Example.returned
         (Webappmultiregion.gather_user_variables (Example.scripted Example.plain)
            "eu-west-1" Example.account (Example.start "myapp.yaml")) [])
  = Some (VStr (dotted (zone_of Example.account))).
Proof.
  apply (hosted_zone_value (Example.scripted Example.plain)
           "eu-west-1" Example.account (Example.start "myapp.yaml")
           (snd (Webappmultiregion.gather_user_variables
                   (Example.scripted Example.plain)
                   "eu-west-1" Example.account
                   (Example.start "myapp.yaml")))).
  right. vm_compute. reflexivity.
Defined.

(** ** What the database pattern leaves alone and what it binds *)

Section PostgresEffects.

Context {W : Type} (c : collaborators W).

Local Open Scope monad_scope.

Lemma leaves_files_raise {A : Type} (e : exn) : leaves_files (raise e : M W A).
Proof. intros st. reflexivity. Qed.

Lemma leaves_files_random {A : Type} (f : rng -> result A * rng) :
  leaves_files (random f : M W A).
Proof. intros st. unfold random. now destruct (f (entropy st)). Qed.

Lemma leaves_files_getvars : leaves_files (getvars : M W dict).
Proof. intros st. reflexivity. Qed.

Lemma leaves_files_echo (line : string) : leaves_files (echo line : M W unit).
Proof. intros st. reflexivity. Qed.

Lemma leaves_files_update (f : dict -> dict) : leaves_files (update f : M W unit).
Proof. intros st. reflexivity. Qed.

Lemma leaves_files_prompt_bare (k text : string) :
  leaves_files (prompt_bare c k text).
Proof.
  unfold prompt_bare. apply leaves_files_bind; [apply leaves_files_call|].
  intros v. apply leaves_files_setvar.
Qed.

Lemma leaves_files_encrypt_each (region kms_keyid : string) (names : list string) :
  leaves_files (Postgresapp.encrypt_each c region kms_keyid names).
Proof.
  induction names as [|k names IH]; cbn [Postgresapp.encrypt_each].
  - apply leaves_files_ret.
  - apply leaves_files_bind; [apply leaves_files_getvar|]. intros plaintext.
    apply leaves_files_bind; [apply leaves_files_call|]. intros encrypted.
    apply leaves_files_bind; [apply leaves_files_setvar|]. intros _. exact IH.
Qed.

(** The database pattern writes no file: whatever the operator and the
    services answer, and whether [gather_user_variables] returns or
    raises, the files are those of before. *)
Theorem postgres_gather_writes_no_file (region : string)
    (account : account_info) (st : state W) :
  files (snd (Postgresapp.gather_user_variables c region account st)) = files st.
Proof.
  revert st. change (leaves_files (Postgresapp.gather_user_variables c region account)).
  unfold Postgresapp.gather_user_variables, Postgresapp.choose_settings,
    Postgresapp.choose_image_and_bucket, Postgresapp.choose_hosted_zone,
    Postgresapp.choose_network, Postgresapp.choose_security_groups,
    Postgresapp.choose_storage, Postgresapp.choose_passwords,
    Postgresapp.encrypt_passwords, Postgresapp.latest_spilo_image,
    Postgresapp.random_password, warning.
  cbv zeta.
  repeat
    match goal with
    | |- leaves_files (bind _ _) => apply leaves_files_bind; [|intros ?]
    | |- leaves_files (ret _) => apply leaves_files_ret
    | |- leaves_files (raise _) => apply leaves_files_raise
    | |- leaves_files (lift _) => apply leaves_files_lift
    | |- leaves_files (call _) => apply leaves_files_call
    | |- leaves_files (random _) => apply leaves_files_random
    | |- leaves_files (getvar _) => apply leaves_files_getvar
    | |- leaves_files getvars => apply leaves_files_getvars
    | |- leaves_files (echo _) => apply leaves_files_echo
    | |- leaves_files (update _) => apply leaves_files_update
    | |- leaves_files (setvar _ _) => apply leaves_files_setvar
    | |- leaves_files (prompt _ _ _ _ _) =>
        apply leaves_files_prompt; first [exact I | cbv beta iota]
    | |- leaves_files (prompt_bare _ _ _) => apply leaves_files_prompt_bare
    | |- leaves_files (Postgresapp.encrypt_each _ _ _ _) =>
        apply leaves_files_encrypt_each
    | |- leaves_files (if ?b then _ else _) => destruct b
    | |- leaves_files (match ?x with _ => _ end) => destruct x
    end.
Qed.

(** What the last four statements of [gather_user_variables] return,
    for any function in the place of [set_default_variables]. *)
Lemma update_then_check (f : dict -> dict) (region : string)
    (st st' : state W) (vars : dict) :
  (update f ;;
   bucket <- getvar "wal_s3_bucket" ;;
   call (check_s3_bucket c bucket region) ;;
   getvars) st = (Ok vars, st') ->
  vars = f (variables st).
Proof.
  unfold bind, update, getvar, call, getvars.
  cbn [variables files terminal entropy world].
  destruct (get "wal_s3_bucket" (f (variables st))) as [bucket|];
    [|discriminate].
  cbn [variables files terminal entropy world].
  destruct (check_s3_bucket c bucket region (world st)) as [[u|e] w];
    cbv beta iota; cbn [variables]; intros H; [|discriminate H].
  injection H as <- _. reflexivity.
Qed.

(** The mapping that [gather_user_variables] returns is one that
    [set_default_variables] gave, the defaults applied in the order of
    the table. *)
Lemma postgres_gather_defaulted (region : string) (account : account_info)
    (st st' : state W) (vars : dict) :
  Postgresapp.gather_user_variables c region account st = (Ok vars, st') ->
  exists d, vars = apply_defaults Postgresapp.default_table d.
Proof.
  intros H. unfold Postgresapp.gather_user_variables in H. cbv zeta in H.
  apply bind_ok in H. destruct H as (u0 & st6 & _ & H).
  apply bind_ok in H. destruct H as (u7 & st7 & _ & H).
  exists (variables st7).
  exact (eq_trans
           (update_then_check Postgresapp.set_default_variables region
              st7 st' vars H)
           (set_default_variables_fold (variables st7))).
Qed.

Lemma apply_defaults_bound (tbl : list (string * value)) (d : dict)
    (k : string) :
  In k (map fst tbl) -> exists v, get k (apply_defaults tbl d) = Some v.
Proof.
  intros Hin. pose proof (apply_defaults_contains tbl d k Hin) as Hc.
  unfold contains_key in Hc.
  destruct (get k (apply_defaults tbl d)) as [v|];
    [exists v; reflexivity | discriminate Hc].
Qed.

Lemma in_by_eqb (k : string) (l : list string) :
  existsb (String.eqb k) l = true -> In k l.
Proof.
  intros H. apply existsb_exists in H. destruct H as [k' [Hin Heq]].
  apply String.eqb_eq in Heq. now subst k'.
Qed.

Lemma template_keys_defaulted :
  forallb (fun k => existsb (String.eqb k) (map fst Postgresapp.default_table))
          (template_keys Postgresapp.TEMPLATE)
  = true.
Proof. vm_compute. reflexivity. Qed.

(** When [gather_user_variables] returns, every key that a tag of
    [TEMPLATE] names is bound in the mapping returned, so that the
    rendering of the template meets no missing key. *)
Theorem postgres_gather_binds_template_keys (region : string)
    (account : account_info) (st st' : state W) (vars : dict) (k : string) :
  Postgresapp.gather_user_variables c region account st = (Ok vars, st') ->
  In k (template_keys Postgresapp.TEMPLATE) ->
  exists v, get k vars = Some v.
Proof.
  intros H Hk.
  destruct (postgres_gather_defaulted region account st st' vars H) as [d ->].
  pose proof template_keys_defaulted as Hall.
  rewrite forallb_forall in Hall. specialize (Hall k Hk).
  apply existsb_exists in Hall. destruct Hall as [k' [Hin Heq]].
  apply String.eqb_eq in Heq. subst k'.
  exact (apply_defaults_bound Postgresapp.default_table d k Hin).
Qed.

End PostgresEffects.

Lemma postgres_gather_binds_template_keys_witness :
  exists v,
    get "volume_iops"
        (Example.returned
           (Postgresapp.gather_user_variables (Example.scripted Example.plain)
              "eu-west-1" Example.account (Example.start "myapp.yaml")) [])
    = Some v.
Proof.
  apply (postgres_gather_binds_template_keys (Example.scripted Example.plain)
           "eu-west-1" Example.account (Example.start "myapp.yaml")
           (snd (Postgresapp.gather_user_variables
                   (Example.scripted Example.plain)
                   "eu-west-1" Example.account (Example.start "myapp.yaml")))).
  - vm_compute. reflexivity.
  - apply in_by_eqb. vm_compute. reflexivity.
Defined.

(** ** The name of the base definition file *)

Lemma rfind_lacks (s : string) : lacks "." s = true -> rfind "." s = (-1)%Z.
Proof.
  induction s as [|x s IH]; [reflexivity|].
  cbn [lacks rfind]. intros H. apply andb_prop in H. destruct H as [Hx Hs].
  rewrite (IH Hs). cbn [Z.eqb Pos.eqb].
  destruct (Ascii.eqb x "."); [discriminate Hx | reflexivity].
Qed.

Lemma rfind_last_dot (s ext : string) :
  lacks "." ext = true ->
  rfind "." (s ++ String "." ext) = Z.of_nat (String.length s).
Proof.
  intros H. induction s as [|x s IH].
  - cbn [append rfind String.length]. rewrite (rfind_lacks ext H).
    reflexivity.
  - cbn [append rfind String.length]. rewrite IH.
    destruct (Z.eqb_spec (Z.of_nat (String.length s)) (-1)); lia.
Qed.

Lemma substring_all (s : string) : String.substring 0 (String.length s) s = s.
Proof. induction s as [|x s IH]; cbn; [reflexivity | now rewrite IH]. Qed.

Lemma stem_last_dot (s ext : string) :
  s <> "" -> lacks "." ext = true ->
  Webappmultiregion.stem (s ++ "." ++ ext) = s.
Proof.
  intros Hs Hext. unfold Webappmultiregion.stem, take. cbn [append].
  rewrite (rfind_last_dot s ext Hext).
  destruct s as [|x s]; [contradiction|].
  destruct (Z.ltb_spec 0 (Z.of_nat (String.length (String x s))));
    [|cbn [String.length] in *; lia].
  rewrite Nat2Z.id. apply substring_app.
Qed.

Lemma stem_whole (name : string) :
  lacks "." (String.substring 1 (String.length name) name) = true ->
  Webappmultiregion.stem name = name.
Proof.
  intros H. unfold Webappmultiregion.stem, take.
  assert (Hr : (rfind "." name <= 0)%Z).
  { destruct name as [|x rest]; [cbn; lia|].
    cbn [String.length String.substring] in H.
    assert (Hrest : String.substring 0 (S (String.length rest)) rest = rest).
    { clear H. induction rest as [|y rest IH]; [reflexivity|].
      cbn [String.length String.substring]. f_equal. exact IH. }
    rewrite Hrest in H. cbn [rfind]. rewrite (rfind_lacks rest H).
    cbn [Z.eqb Pos.eqb]. destruct (Ascii.eqb x "."); lia. }
  destruct (Z.ltb_spec 0 (rfind "." name)); [lia|].
  rewrite Nat2Z.id. apply substring_all.
Qed.

(** The base file takes the name of the definition file up to its last
    dot, whatever the extension is and however many dots come before:
    for a name [s.ext], [s] not empty and [ext] without a dot, the base
    file is [s-base.yaml]. *)
Theorem base_file_name_drops_last_extension (s ext : string) :
  s <> "" -> lacks "." ext = true ->
  Webappmultiregion.base_file_name_of (s ++ "." ++ ext) = s ++ "-base.yaml".
Proof.
  intros Hs Hext. unfold Webappmultiregion.base_file_name_of. f_equal.
  now apply stem_last_dot.
Qed.

Lemma base_file_name_drops_last_extension_witness :
  Webappmultiregion.base_file_name_of ("my.app.v2" ++ "." ++ "json")
  = "my.app.v2" ++ "-base.yaml".
Proof.
  apply (base_file_name_drops_last_extension "my.app.v2" "json").
  - discriminate.
  - reflexivity.
Defined.

(** A name whose only dot, if any, is its first character is kept
    whole: a definition file without an extension, or a hidden file
    such as [.senza], gives the base file [<name>-base.yaml], and the
    empty name gives [-base.yaml]. *)
Theorem base_file_name_keeps_name_without_extension (name : string) :
  lacks "." (String.substring 1 (String.length name) name) = true ->
  Webappmultiregion.base_file_name_of name = name ++ "-base.yaml".
Proof.
  intros H. unfold Webappmultiregion.base_file_name_of. f_equal.
  now apply stem_whole.
Qed.

Lemma base_file_name_keeps_name_without_extension_witness :
  Webappmultiregion.base_file_name_of ".senza" = ".senza" ++ "-base.yaml".
Proof.
  apply (base_file_name_keeps_name_without_extension ".senza").
  reflexivity.
Defined.

(** ** The web application pattern without a definition file *)

Section MissingDefinitionFile.

Context {W : Type} (c : collaborators W).

Local Open Scope monad_scope.


Lemma unbound_choose_hosted_zone (k0 : string) (account : account_info) :
  k0 <> "hosted_zone" ->
  forall Q,
    keeps (about k0 Q) (Webappmultiregion.choose_hosted_zone account : M W unit).
Proof.
  intros H1 Q. unfold Webappmultiregion.choose_hosted_zone.
  repeat
    match goal with
    | |- keeps _ (setvar _ _) => apply about_setvar; congruence
    | _ => about_step
    end.
Qed.


End MissingDefinitionFile.


(** ** The identifier in camel case *)

Lemma lacks_app (c : ascii) (s t : string) :
  lacks c (s ++ t) = lacks c s && lacks c t.
Proof.
  induction s as [|x s IH]; [reflexivity|].
  cbn [append lacks]. rewrite IH. apply andb_assoc.
Qed.

Lemma lacks_string_of_list (c : ascii) (l : list ascii) :
  lacks c (string_of_list_ascii l) = forallb (fun x => negb (Ascii.eqb x c)) l.
Proof. induction l as [|x l IH]; [reflexivity|]. cbn. now rewrite IH. Qed.

Lemma lacks_list_of_string (c : ascii) (s : string) :
  forallb (fun x => negb (Ascii.eqb x c)) (list_ascii_of_string s) = lacks c s.
Proof. induction s as [|x s IH]; [reflexivity|]. cbn. now rewrite IH. Qed.

Lemma lacks_rev_string (c : ascii) (s : string) :
  lacks c (rev_string s) = lacks c s.
Proof.
  unfold rev_string. rewrite lacks_string_of_list, <- lacks_list_of_string.
  generalize (list_ascii_of_string s) as l. intros l.
  induction l as [|x l IH]; [reflexivity|].
  cbn [rev forallb]. rewrite forallb_app, IH. cbn [forallb].
  rewrite andb_true_r. apply andb_comm.
Qed.

(** No part of [s.split(sep)] holds the separator. *)
Lemma split_from_lacks (sep : ascii) (s : string) :
  forall part, lacks sep part = true ->
    forallb (lacks sep) (split_from sep s part) = true.
Proof.
  induction s as [|x s IH]; intros part Hp; cbn [split_from forallb].
  - now rewrite lacks_rev_string, Hp.
  - destruct (Ascii.eqb x sep) eqn:E; cbn [forallb].
    + rewrite lacks_rev_string, Hp. now apply IH.
    + apply IH. cbn [lacks]. now rewrite E, Hp.
Qed.

Lemma case_change_keeps_hyphen (x : ascii) :
  Ascii.eqb x "-" = false ->
  Ascii.eqb (to_lower x) "-" = false /\ Ascii.eqb (to_upper x) "-" = false.
Proof.
  destruct x as [[] [] [] [] [] [] [] []]; intros H;
    first [discriminate H | split; reflexivity].
Qed.

Lemma title_from_lacks_hyphen (s : string) :
  forall b, lacks "-" s = true -> lacks "-" (title_from b s) = true.
Proof.
  induction s as [|x s IH]; intros b H; [reflexivity|].
  cbn [lacks] in H. apply andb_prop in H. destruct H as [Hx Hs].
  apply negb_true_iff in Hx.
  destruct (case_change_keeps_hyphen x Hx) as [Hl Hu].
  cbn [title_from lacks]. cbv zeta. rewrite (IH _ Hs), andb_true_r.
  destruct b; [now rewrite Hl | now rewrite Hu].
Qed.

Lemma concat_lacks (c : ascii) (l : list string) :
  forallb (lacks c) l = true -> lacks c (String.concat "" l) = true.
Proof.
  induction l as [|s l IH]; [reflexivity|].
  cbn [forallb]. intros H. apply andb_prop in H. destruct H as [Hs Hl].
  destruct l as [|t l]; [now cbn|].
  cbn [String.concat]. rewrite lacks_app, Hs. cbn [append andb].
  exact (IH Hl).
Qed.

Lemma camel_lacks_hyphen (id : string) :
  lacks "-" (join (map title (split "-" id))) = true.
Proof.
  unfold join. apply concat_lacks. rewrite forallb_forall.
  intros t Ht. apply in_map_iff in Ht. destruct Ht as [p [<- Hp]].
  apply title_from_lacks_hyphen.
  pose proof (split_from_lacks "-" id "" eq_refl) as Hall.
  rewrite forallb_forall in Hall. now apply Hall.
Qed.

Section CamelCase.

Context {W : Type} (c : collaborators W).

Local Open Scope monad_scope.

Lemma choose_application_camel (region : string) (st st' : state W) (u : unit) :
  Webappmultiregion.choose_application c region st = (Ok u, st') ->
  exists id,
    get "application_id" (variables st') = Some (VStr id)
    /\ get "application_id_camel" (variables st')
       = Some (VStr (join (map title (split "-" id)))).
Proof.
  intros H. unfold Webappmultiregion.choose_application in H.
  do 10 (apply bind_ok in H; destruct H as (? & ? & _ & H)).
  unfold bind, getvar, lift, setvar, update, as_str in H.
  match type of H with
  | context [get "application_id" (variables ?s)] =>
      destruct (get "application_id" (variables s)) as [[| | |id]|] eqn:Hid;
        try discriminate H
  end.
  injection H as _ <-. cbn [variables]. exists id. split.
  - rewrite get_setitem_other; [exact Hid | discriminate].
  - apply get_setitem_same.
Qed.

Lemma about_write_base_definition (k0 : string) (Q : option value -> Prop)
    (account : account_info) :
  keeps (about k0 Q) (Webappmultiregion.write_base_definition c account).
Proof.
  unfold Webappmultiregion.write_base_definition. cbv zeta. about_auto.
Qed.

(** When the web application pattern returns with an [application_id]
    made of ASCII characters, as the pattern asked of the prompt
    requires, [application_id_camel] is made of its parts between the
    hyphens, each in title case, and holds no hyphen itself; nothing
    asked or done after that statement changes either of them. *)
Theorem webapp_gather_camel_case (region : string) (account : account_info)
    (st st' : state W) (vars : dict) (id : string) :
  Webappmultiregion.gather_user_variables c region account st = (Ok vars, st') ->
  get "application_id" vars = Some (VStr id) ->
  is_ascii id = true ->
  get "application_id_camel" vars
  = Some (VStr (join (map title (split "-" id))))
  /\ lacks "-" (join (map title (split "-" id))) = true.
Proof.
  intros H Hvars _. unfold Webappmultiregion.gather_user_variables in H.
  apply bind_ok in H. destruct H as (u1 & st1 & H1 & H).
  destruct (choose_application_camel region st st1 u1 H1) as (id' & Hid & Hcamel).
  apply bind_ok in H. destruct H as (u2 & st2 & H2 & H).
  apply bind_ok in H. destruct H as (u3 & st3 & H3 & H).
  unfold getvars in H. injection H as <- _.
  assert (id' = id) as ->.
  { pose proof (unbound_choose_hosted_zone "application_id" account
                  ltac:(discriminate) (fun o => o = Some (VStr id')) st1 Hid)
      as K.
    rewrite H2 in K. cbn [snd] in K.
    pose proof (about_write_base_definition "application_id" _ account st2 K)
      as K'.
    rewrite H3 in K'. unfold about in K'. cbn [snd] in K'. congruence. }
  split; [|apply camel_lacks_hyphen].
  pose proof (unbound_choose_hosted_zone "application_id_camel" account
                ltac:(discriminate)
                (fun o => o = Some (VStr (join (map title (split "-" id)))))
                st1 Hcamel) as K.
  rewrite H2 in K. cbn [snd] in K.
  pose proof (about_write_base_definition "application_id_camel" _ account
                st2 K) as K'.
  rewrite H3 in K'. exact K'.
Qed.

End CamelCase.

Lemma webapp_gather_camel_case_witness :
  get "application_id_camel"
      (Example.returned
         (Webappmultiregion.gather_user_variables
            (Example.scripted Example.plain)
            "eu-west-1" Example.account (Example.start "myapp.yaml")) [])
  = Some (VStr (join (map title (split "-" "hello-world"))))
  /\ lacks "-" (join (map title (split "-" "hello-world"))) = true.
Proof.
  apply (webapp_gather_camel_case (Example.scripted Example.plain)
           "eu-west-1" Example.account (Example.start "myapp.yaml")
           (snd (Webappmultiregion.gather_user_variables
                   (Example.scripted Example.plain)
                   "eu-west-1" Example.account (Example.start "myapp.yaml")))).
  - vm_compute. reflexivity.
  - vm_compute. reflexivity.
  - reflexivity.
Defined.

(** ** The encryption of the passwords *)

Lemma get_in (k : string) (v : value) (d : dict) :
  get k d = Some v -> In (k, v) d.
Proof.
  induction d as [|[k' v'] d IH]; cbn [get]; [discriminate|].
  destruct (String.eqb k k') eqn:E.
  - apply String.eqb_eq in E. subst k'. intros [= ->]. now left.
  - intros H. right. exact (IH H).
Qed.

Lemma get_in_keys (k : string) (d : dict) : get k d <> None -> In k (keys d).
Proof.
  destruct (get k d) as [v|] eqn:E; [|congruence]. intros _.
  apply get_in in E. unfold keys. apply in_map_iff. now exists (k, v).
Qed.

Lemma password_defaults (k : string) (v : value) :
  startswith "pgpassword_" k = true ->
  get k Postgresapp.default_table = Some v ->
  In k ["pgpassword_superuser"; "pgpassword_standby"; "pgpassword_admin"].
Proof.
  intros Hp Hk. apply get_in in Hk.
  assert (Hall :
    forallb (fun kv : string * value =>
               implb (startswith "pgpassword_" (fst kv))
                     (existsb (String.eqb (fst kv))
                        ["pgpassword_superuser"; "pgpassword_standby";
                         "pgpassword_admin"]))
            Postgresapp.default_table = true) by (vm_compute; reflexivity).
  rewrite forallb_forall in Hall. specialize (Hall (k, v) Hk).
  cbn [fst] in Hall. rewrite Hp in Hall. cbn [implb] in Hall.
  apply existsb_exists in Hall. destruct Hall as [k' [Hin Heq]].
  apply String.eqb_eq in Heq. now subst k'.
Qed.

Section Encryption.

Context {W : Type} (c : collaborators W).

Local Open Scope monad_scope.

Lemma getvar_ok (k : string) (st st' : state W) (v : value) :
  getvar k st = (Ok v, st') -> st' = st /\ get k (variables st) = Some v.
Proof.
  unfold getvar. destruct (get k (variables st)) as [v0|]; intros H;
    [|discriminate H].
  injection H as <- <-. now split.
Qed.

Lemma call_ok {A : Type} (f : W -> result A * W) (st st' : state W) (a : A) :
  call f st = (Ok a, st') -> variables st' = variables st.
Proof.
  unfold call. destruct (f (world st)) as [r w]. intros H.
  injection H as _ <-. reflexivity.
Qed.

Lemma keeps_ok {A : Type} (I : dict -> Prop) (m : M W A) (st st' : state W)
    (a : A) :
  keeps I m -> m st = (Ok a, st') -> I (variables st) -> I (variables st').
Proof. intros K Hm H. specialize (K st H). now rewrite Hm in K. Qed.

Lemma bound_setitem (k0 k : string) (v : value) (d : dict) :
  bound k0 d -> bound k0 (setitem k v d).
Proof.
  unfold bound, about. intros H. destruct (string_dec k0 k) as [<-|Hne].
  - now rewrite get_setitem_same.
  - now rewrite get_setitem_other.
Qed.

Lemma bound_setvar (k0 k : string) (v : value) :
  keeps (bound k0) (setvar k v : M W unit).
Proof. apply keeps_update. intros d. apply bound_setitem. Qed.

Lemma bound_prompt (k0 k text : string) (d : default_arg)
    (args : value -> prompt_args) :
  match d with Literal _ => True | Callable f => keeps (bound k0) f end ->
  keeps (bound k0) (prompt c k text d args).
Proof.
  intros Hd. unfold prompt.
  apply keeps_bind; [destruct d; [apply keeps_ret | exact Hd]|].
  intros dv. apply keeps_bind; [apply keeps_call|].
  intros v. apply bound_setvar.
Qed.

Lemma bound_encrypt_each (k0 region kms_keyid : string) (names : list string) :
  keeps (bound k0) (Postgresapp.encrypt_each c region kms_keyid names).
Proof.
  induction names as [|k names IH]; cbn [Postgresapp.encrypt_each].
  - apply keeps_ret.
  - apply keeps_bind; [apply keeps_getvar|]. intros plaintext.
    apply keeps_bind; [apply keeps_call|]. intros encrypted.
    apply keeps_bind; [apply bound_setvar|]. intros _. exact IH.
Qed.

Lemma bound_encrypt_passwords (k0 region : string) :
  keeps (bound k0) (Postgresapp.encrypt_passwords c region).
Proof.
  unfold Postgresapp.encrypt_passwords. cbv zeta.
  repeat
    match goal with
    | |- keeps _ (setvar _ _) => apply bound_setvar
    | |- keeps _ (Postgresapp.encrypt_each _ _ _ _) => apply bound_encrypt_each
    | _ => about_step
    end.
Qed.

Lemma prompt_binds (k text : string) (d : default_arg)
    (args : value -> prompt_args) (st st' : state W) (u : unit) :
  prompt c k text d args st = (Ok u, st') -> bound k (variables st').
Proof.
  unfold prompt. intros H.
  apply bind_ok in H. destruct H as (dv & st1 & _ & H).
  apply bind_ok in H. destruct H as (v & st2 & _ & H).
  unfold setvar, update in H. injection H as _ <-.
  unfold bound, about. cbn [variables]. now rewrite get_setitem_same.
Qed.

Lemma random_password_keeps (I : dict -> Prop) :
  keeps I (Postgresapp.random_password : M W value).
Proof.
  unfold Postgresapp.random_password.
  apply keeps_bind; [apply keeps_random|]. intros s. apply keeps_ret.
Qed.

(** When the questions have been answered the three passwords are
    bound. *)
Lemma choose_settings_binds_passwords (region : string)
    (account : account_info) (defaults : dict) (st st' : state W) (u : unit) :
  Postgresapp.choose_settings c region account defaults st = (Ok u, st') ->
  forall k,
    In k ["pgpassword_superuser"; "pgpassword_standby"; "pgpassword_admin"] ->
    bound k (variables st').
Proof.
  intros H. unfold Postgresapp.choose_settings in H.
  do 5 (apply bind_ok in H; destruct H as (? & ? & _ & H)).
  unfold Postgresapp.choose_passwords in H.
  apply bind_ok in H. destruct H as (u1 & s1 & P1 & H).
  apply bind_ok in H. destruct H as (u2 & s2 & P2 & H).
  apply bind_ok in H. destruct H as (d & s3 & P3 & H).
  unfold lift in P3. injection P3 as _ <-.
  pose proof (prompt_binds _ _ _ _ _ _ _ P1) as B1.
  pose proof (prompt_binds _ _ _ _ _ _ _ P2) as B2.
  pose proof (prompt_binds _ _ _ _ _ _ _ H) as B3.
  assert (B1' : bound "pgpassword_superuser" (variables s2)).
  { refine (keeps_ok _ _ _ _ _ _ P2 B1).
    apply bound_prompt, random_password_keeps. }
  assert (B1'' : bound "pgpassword_superuser" (variables st')).
  { refine (keeps_ok _ _ _ _ _ _ H B1'). apply bound_prompt. exact I. }
  assert (B2' : bound "pgpassword_standby" (variables st')).
  { refine (keeps_ok _ _ _ _ _ _ H B2). apply bound_prompt. exact I. }
  intros k [<- | [<- | [<- | []]]]; assumption.
Qed.

Lemma kms_arn_choose_settings (Q : option value -> Prop) (region : string)
    (account : account_info) (defaults : dict) :
  keeps (about "kms_arn" Q)
    (Postgresapp.choose_settings c region account defaults).
Proof.
  unfold Postgresapp.choose_settings, Postgresapp.choose_image_and_bucket,
    Postgresapp.choose_hosted_zone, Postgresapp.choose_network,
    Postgresapp.choose_security_groups, Postgresapp.choose_storage,
    Postgresapp.choose_passwords, Postgresapp.latest_spilo_image,
    Postgresapp.random_password.
  cbv zeta. about_auto.
Qed.

Lemma call_result {A : Type} (f : W -> result A * W) (st st' : state W) (a : A) :
  call f st = (Ok a, st') ->
  exists w', f (world st) = (Ok a, w') /\ variables st' = variables st.
Proof.
  unfold call. destruct (f (world st)) as [r w] eqn:E. intros H.
  injection H as -> <-. now exists w.
Qed.

Lemma in_keys_setitem (x k : string) (v : value) (d : dict) :
  In x (keys (setitem k v d)) -> x = k \/ In x (keys d).
Proof.
  unfold keys. induction d as [|[k' v'] d IH]; cbn [setitem map fst In].
  - intros [<- | []]. now left.
  - destruct (String.eqb k k'); cbn [map fst In].
    + intros H. now right.
    + intros [<- | H]; [right; now left|].
      destruct (IH H) as [-> | Hin]; [now left | right; now right].
Qed.

Lemma nodup_setitem (k : string) (v : value) (d : dict) :
  NoDup (keys d) -> NoDup (keys (setitem k v d)).
Proof.
  induction d as [|[k' v'] d IH]; cbn [setitem]; intros H.
  - repeat constructor. intros [].
  - destruct (String.eqb k k') eqn:E; [exact H|].
    change (NoDup (k' :: keys (setitem k v d))).
    change (NoDup (k' :: keys d)) in H. inversion H as [|? ? Hnot Hd]. subst.
    constructor; [|exact (IH Hd)].
    intros Hin. destruct (in_keys_setitem _ _ _ _ Hin) as [-> | Hin'].
    + now rewrite String.eqb_refl in E.
    + contradiction.
Qed.

(** What the loop does for names that are all different: each is
    bound to [aws:kms:] followed by what [encrypt] returned for the
    value it was bound to; every other key is left as it was. *)
Lemma encrypt_each_calls (region kms_keyid : string) (names : list string) :
  NoDup names ->
  forall (st st' : state W) (u : unit),
    Postgresapp.encrypt_each c region kms_keyid names st = (Ok u, st') ->
    forall k,
      (In k names ->
       exists plaintext s w w',
         get k (variables st) = Some plaintext
         /\ encrypt c region kms_keyid plaintext w = (Ok s, w')
         /\ get k (variables st') = Some (VStr ("aws:kms:" ++ s)))
      /\ (~ In k names -> get k (variables st') = get k (variables st)).
Proof.
  induction 1 as [|key rest Hnot Hrest IH]; intros st st' u H k.
  - cbn [Postgresapp.encrypt_each] in H. unfold ret in H.
    injection H as _ <-. split; [intros []|reflexivity].
  - cbn [Postgresapp.encrypt_each] in H.
    apply bind_ok in H. destruct H as (plaintext & st1 & H1 & H).
    apply getvar_ok in H1. destruct H1 as [-> Hplain].
    apply bind_ok in H. destruct H as (encrypted & st2 & H2 & H).
    apply call_result in H2. destruct H2 as (w' & Hcall & H2).
    apply bind_ok in H. destruct H as (u3 & st3 & H3 & H).
    unfold setvar, update in H3. injection H3 as _ <-.
    destruct (IH _ _ _ H k) as [Hin Hout]. cbn [variables] in Hin, Hout.
    split.
    + intros Hk. destruct (in_dec string_dec k rest) as [Hr|Hr].
      * destruct (Hin Hr) as (p & s & w1 & w2 & Hp & He & Hs).
        exists p, s, w1, w2. split; [|now split].
        rewrite get_setitem_other in Hp; [now rewrite H2 in Hp|].
        intros ->. contradiction.
      * destruct Hk as [<-|Hk]; [|contradiction].
        exists plaintext, encrypted, (world st), w'.
        split; [exact Hplain|]. split; [exact Hcall|].
        rewrite (Hout Hr). apply get_setitem_same.
    + intros Hk. rewrite Hout; [|intros Hr; apply Hk; now right].
      rewrite get_setitem_other; [now rewrite H2|].
      intros ->. apply Hk. now left.
Qed.

(** What the encryption step leaves when it returns: the variables as
    they were, if the operator declined; else, for a key of the
    account that can be used, its ARN under [kms_arn] and, under every
    [pgpassword_] key, [aws:kms:] followed by what [encrypt] returned
    for that key and the value the variable had. *)
Lemma encrypt_passwords_calls (region : string) (st st' : state W) (u : unit) :
  NoDup (keys (variables st)) ->
  Postgresapp.encrypt_passwords c region st = (Ok u, st') ->
  variables st' = variables st
  \/ (exists ks key w w',
        list_kms_keys c region w = (Ok ks, w')
        /\ In key (Postgresapp.usable_keys ks)
        /\ get "kms_arn" (variables st') = Some (VStr (Arn key))
        /\ forall k, startswith "pgpassword_" k = true ->
             get k (variables st') <> None ->
             exists plaintext s w1 w2,
               get k (variables st) = Some plaintext
               /\ encrypt c region (KeyId key) plaintext w1 = (Ok s, w2)
               /\ get k (variables st') = Some (VStr ("aws:kms:" ++ s))).
Proof.
  intros Hdup H. unfold Postgresapp.encrypt_passwords in H.
  apply bind_ok in H. destruct H as (wanted & st1 & H1 & H).
  apply call_ok in H1.
  destruct wanted.
  2: { left. unfold ret in H. injection H as _ <-. exact H1. }
  right.
  apply bind_ok in H. destruct H as (all_keys & st2 & H2 & H).
  apply call_result in H2. destruct H2 as (w2 & Hlist & H2).
  cbv zeta in H.
  destruct (Postgresapp.usable_keys all_keys) as [|key0 keys0] eqn:Hkeys;
    [unfold raise in H; discriminate H|].
  apply bind_ok in H. destruct H as (kms_key & st3 & H3 & H).
  apply call_ok in H3.
  destruct (filter (fun k => String.eqb (KeyId k) (hd "" (split ":" kms_key)))
                   (key0 :: keys0)) as [|key more] eqn:F;
    [unfold raise in H; discriminate H|].
  cbn [map] in H.
  assert (Hkey : In key (key0 :: keys0)
                 /\ String.eqb (KeyId key) (hd "" (split ":" kms_key)) = true).
  { refine (proj1 (filter_In
                     (fun k => String.eqb (KeyId k) (hd "" (split ":" kms_key)))
                     key (key0 :: keys0)) _).
    rewrite F. now left. }
  destruct Hkey as [Hkey Hid]. apply String.eqb_eq in Hid.
  rewrite <- Hid in H.
  apply bind_ok in H. destruct H as (u4 & st4 & H4 & H).
  unfold setvar, update in H4. injection H4 as _ <-.
  apply bind_ok in H. destruct H as (vars & st5 & H5 & H).
  unfold getvars in H5. injection H5 as <- <-.
  cbn [variables] in H.
  assert (Hvars : variables st3 = variables st) by congruence.
  rewrite Hvars in H.
  assert (Hnames : NoDup (filter (startswith "pgpassword_")
                            (keys (setitem "kms_arn" (VStr (Arn key))
                                           (variables st)))))
    by (apply NoDup_filter, nodup_setitem, Hdup).
  pose proof (encrypt_each_calls _ _ _ Hnames _ _ _ H) as E.
  cbn [variables] in E.
  exists all_keys, key, (world st1), w2.
  split; [exact Hlist|]. split; [now rewrite Hkeys|]. split.
  - destruct (E "kms_arn") as [_ Hout]. rewrite Hout.
    + apply get_setitem_same.
    + intros Hin. apply filter_In in Hin. destruct Hin as [_ Hp].
      discriminate Hp.
  - intros k Hp Hb. destruct (E k) as [Hin Hout].
    match type of Hin with In k ?names -> _ =>
      destruct (in_dec string_dec k names) as [Hk|Hk]
    end.
    + destruct (Hin Hk) as (p & s & w1 & w1' & Hplain & He & Hs).
      exists p, s, w1, w1'. split; [|now split].
      rewrite get_setitem_other in Hplain; [exact Hplain|].
      intros ->. discriminate Hp.
    + exfalso. apply Hk. apply filter_In. split; [|exact Hp].
      apply get_in_keys. rewrite <- (Hout Hk). exact Hb.
Qed.

Lemma nodup_choose_settings (region : string) (account : account_info)
    (defaults : dict) :
  keeps (fun d => NoDup (keys d))
    (Postgresapp.choose_settings c region account defaults).
Proof.
  unfold Postgresapp.choose_settings, Postgresapp.choose_image_and_bucket,
    Postgresapp.choose_hosted_zone, Postgresapp.choose_network,
    Postgresapp.choose_security_groups, Postgresapp.choose_storage,
    Postgresapp.choose_passwords, Postgresapp.latest_spilo_image,
    Postgresapp.random_password, prompt, prompt_bare.
  cbv zeta.
  repeat
    match goal with
    | |- keeps _ (setvar _ _) =>
        apply keeps_update; intros d; apply nodup_setitem
    | _ => about_step
    end.
Qed.

(** When the database pattern returns from a mapping that had no
    [kms_arn], the three passwords are bound, and either the operator
    declined the encryption, [kms_arn] is [None] and every variable
    whose name starts with [pgpassword_] is what it was when the
    questions ended; or [kms_arn] is the ARN of a key that
    [list_kms_keys] returned and that has not the alias of EBS, and
    every such variable holds [aws:kms:] followed by what [encrypt]
    returned for the identifier of that key and the value the
    variable had when the questions ended: no password is left in
    clear beside a key. *)
Theorem postgres_gather_encrypts_every_password (region : string)
    (account : account_info) (st st1 st' : state W) (u : unit) (vars : dict) :
  NoDup (keys (variables st)) ->
  get "kms_arn" (variables st) = None ->
  Postgresapp.choose_settings c region account
    (Postgresapp.set_default_variables []) st = (Ok u, st1) ->
  Postgresapp.gather_user_variables c region account st = (Ok vars, st') ->
  (forall k, In k ["pgpassword_superuser"; "pgpassword_standby";
                   "pgpassword_admin"] -> get k vars <> None)
  /\ ((get "kms_arn" vars = Some VNone
       /\ forall k, startswith "pgpassword_" k = true ->
            get k vars = get k (variables st1))
      \/ (exists ks key w w',
            list_kms_keys c region w = (Ok ks, w')
            /\ In key (Postgresapp.usable_keys ks)
            /\ get "kms_arn" vars = Some (VStr (Arn key))
            /\ forall k, startswith "pgpassword_" k = true ->
                 get k vars <> None ->
                 exists plaintext s w1 w2,
                   get k (variables st1) = Some plaintext
                   /\ encrypt c region (KeyId key) plaintext w1 = (Ok s, w2)
                   /\ get k vars = Some (VStr ("aws:kms:" ++ s)))).
Proof.
  intros Hdup Hnone Hcs H. unfold Postgresapp.gather_user_variables in H.
  cbv zeta in H.
  apply bind_ok in H. destruct H as (u0 & st6 & H0 & H).
  assert (st6 = st1) as -> by congruence.
  pose proof (kms_arn_choose_settings (fun o => o = None) region account
                (Postgresapp.set_default_variables []) st Hnone) as K6.
  rewrite H0 in K6. cbn [snd] in K6. unfold about in K6.
  pose proof (nodup_choose_settings region account
                (Postgresapp.set_default_variables []) st Hdup) as D6.
  rewrite H0 in D6. cbn [snd] in D6.
  pose proof (choose_settings_binds_passwords _ _ _ _ _ _ H0) as B6.
  apply bind_ok in H. destruct H as (u7 & st7 & H7 & H).
  assert (B7 : forall k,
             In k ["pgpassword_superuser"; "pgpassword_standby";
                   "pgpassword_admin"] -> bound k (variables st7)).
  { intros k Hk.
    pose proof (bound_encrypt_passwords k region st1 (B6 k Hk)) as B.
    rewrite H7 in B. exact B. }
  pose proof (encrypt_passwords_calls region st1 st7 u7 D6 H7) as E.
  pose proof (eq_trans
                (update_then_check c Postgresapp.set_default_variables region
                   st7 st' vars H)
                (set_default_variables_fold (variables st7))) as Hv.
  subst vars.
  assert (Hall : forall k, startswith "pgpassword_" k = true ->
            get k (apply_defaults Postgresapp.default_table (variables st7))
            = get k (variables st7)).
  { intros k Hp. rewrite apply_defaults_lookup.
    destruct (get k (variables st7)) as [v|] eqn:Hk; [reflexivity|].
    destruct (get k Postgresapp.default_table) as [v|] eqn:Ht;
      [|reflexivity].
    exfalso. exact (B7 k (password_defaults k v Hp Ht) Hk). }
  split.
  { intros k Hk.
    assert (Hp : startswith "pgpassword_" k = true)
      by (destruct Hk as [<- | [<- | [<- | []]]]; reflexivity).
    rewrite (Hall k Hp). exact (B7 k Hk). }
  destruct E as [Esame | (ks & key & w & w' & Hlist & Hkey & Harn & Henc)].
  - left. split.
    + rewrite apply_defaults_lookup, Esame, K6. reflexivity.
    + intros k Hp. now rewrite (Hall k Hp), Esame.
  - right. exists ks, key, w, w'.
    split; [exact Hlist|]. split; [exact Hkey|]. split.
    + exact (apply_defaults_kept _ _ _ _ Harn).
    + intros k Hp Hb. rewrite (Hall k Hp) in Hb |- *.
      exact (Henc k Hp Hb).
Qed.

End Encryption.

Lemma postgres_gather_encrypts_every_password_witness :
  (forall k, In k ["pgpassword_superuser"; "pgpassword_standby";
                   "pgpassword_admin"] ->
     get k (Example.returned
              (Postgresapp.gather_user_variables
                 (Example.scripted with_kms_key)
                 "eu-west-1" Example.account (Example.start "myapp.yaml")) [])
     <> None)
  /\ ((get "kms_arn"
           (Example.returned
              (Postgresapp.gather_user_variables
                 (Example.scripted with_kms_key)
                 "eu-west-1" Example.account (Example.start "myapp.yaml")) [])
       = Some VNone
       /\ forall k, startswith "pgpassword_" k = true ->
            get k (Example.returned
                     (Postgresapp.gather_user_variables
                        (Example.scripted with_kms_key)
                        "eu-west-1" Example.account
                        (Example.start "myapp.yaml")) [])
            = get k (variables
                       (snd (Postgresapp.choose_settings
                               (Example.scripted with_kms_key)
                               "eu-west-1" Example.account
                               (Postgresapp.set_default_variables [])
                               (Example.start "myapp.yaml")))))
      \/ (exists ks key w w',
            list_kms_keys (Example.scripted with_kms_key) "eu-west-1" w
            = (Ok ks, w')
            /\ In key (Postgresapp.usable_keys ks)
            /\ get "kms_arn"
                   (Example.returned
                      (Postgresapp.gather_user_variables
                         (Example.scripted with_kms_key)
                         "eu-west-1" Example.account
                         (Example.start "myapp.yaml")) [])
               = Some (VStr (Arn key))
            /\ forall k, startswith "pgpassword_" k = true ->
                 get k (Example.returned
                          (Postgresapp.gather_user_variables
                             (Example.scripted with_kms_key)
                             "eu-west-1" Example.account
                             (Example.start "myapp.yaml")) []) <> None ->
                 exists plaintext s w1 w2,
                   get k (variables
                            (snd (Postgresapp.choose_settings
                                    (Example.scripted with_kms_key)
                                    "eu-west-1" Example.account
                                    (Postgresapp.set_default_variables [])
                                    (Example.start "myapp.yaml"))))
                   = Some plaintext
                   /\ encrypt (Example.scripted with_kms_key) "eu-west-1"
                              (KeyId key) plaintext w1 = (Ok s, w2)
                   /\ get k (Example.returned
                               (Postgresapp.gather_user_variables
                                  (Example.scripted with_kms_key)
                                  "eu-west-1" Example.account
                                  (Example.start "myapp.yaml")) [])
                      = Some (VStr ("aws:kms:" ++ s)))).
Proof.
  apply (postgres_gather_encrypts_every_password (Example.scripted with_kms_key)
           "eu-west-1" Example.account (Example.start "myapp.yaml")
           (snd (Postgresapp.choose_settings (Example.scripted with_kms_key)
                   "eu-west-1" Example.account
                   (Postgresapp.set_default_variables [])
                   (Example.start "myapp.yaml")))
           (snd (Postgresapp.gather_user_variables
                   (Example.scripted with_kms_key)
                   "eu-west-1" Example.account (Example.start "myapp.yaml")))
           tt).
  - repeat constructor. intros [].
  - reflexivity.
  - vm_compute. reflexivity.
  - vm_compute. reflexivity.
Defined.

(** ** The storage of the database *)

(** Carries the binding [Hget] of the key [k0] along the computation
    of [H], which leaves that key alone. *)
Ltac carry k0 Hget H :=
  cbv beta in H;
  match type of H with
  | ?m ?s = (Ok ?a, ?s') =>
      match type of Hget with
      | get _ (variables s) = ?o =>
          let K := fresh "K" in
          assert (K : keeps (about k0 (fun x => x = o)) m)
            by (cbv zeta; about_auto);
          let Hnew := fresh Hget in
          pose proof (keeps_ok _ _ _ _ _ K H Hget) as Hnew;
          unfold about in Hnew; clear K Hget; rename Hnew into Hget
      end
  end.

Section Storage.

Context {W : Type} (c : collaborators W).

Local Open Scope monad_scope.

Lemma about_choose_passwords (k0 : string) (Q : option value -> Prop)
    (defaults : dict) :
  startswith "pgpassword_" k0 = false ->
  keeps (about k0 Q) (Postgresapp.choose_passwords c defaults).
Proof.
  intros Hp. unfold Postgresapp.choose_passwords, Postgresapp.random_password.
  repeat
    match goal with
    | |- keeps _ (prompt _ _ _ _ _) =>
        apply about_prompt;
        [intros E; subst k0; vm_compute in Hp; discriminate Hp
        | first [exact I | cbv beta iota]]
    | _ => about_step
    end.
Qed.

Lemma about_encrypt_passwords (k0 : string) (Q : option value -> Prop)
    (region : string) :
  startswith "pgpassword_" k0 = false -> k0 <> "kms_arn" ->
  keeps (about k0 Q) (Postgresapp.encrypt_passwords c region).
Proof.
  intros Hp Hk. unfold Postgresapp.encrypt_passwords. cbv zeta.
  repeat
    match goal with
    | |- keeps _ (setvar _ _) => apply about_setvar; congruence
    | |- keeps _ (Postgresapp.encrypt_each _ _ _ _) =>
        apply about_encrypt_each, Forall_forall;
        intros name Hin; apply filter_In in Hin; destruct Hin as [_ Hin];
        intros ->; congruence
    | _ => about_step
    end.
Qed.

(** A binding made by the end of the storage questions, under a key
    that is neither a password nor [kms_arn], is the one returned. *)
Lemma kept_to_the_end (k0 : string) (v : value) (region : string)
    (defaults : dict) (st5 st6 st7 st' : state W) (u6 u7 : unit) (vars : dict) :
  startswith "pgpassword_" k0 = false -> k0 <> "kms_arn" ->
  Postgresapp.choose_passwords c defaults st5 = (Ok u6, st6) ->
  Postgresapp.encrypt_passwords c region st6 = (Ok u7, st7) ->
  (update Postgresapp.set_default_variables ;;
   bucket <- getvar "wal_s3_bucket" ;;
   call (check_s3_bucket c bucket region) ;;
   getvars) st7 = (Ok vars, st') ->
  get k0 (variables st5) = Some v ->
  get k0 vars = Some v.
Proof.
  intros Hp Hk H6 H7 H Hget.
  pose proof (keeps_ok _ _ _ _ _
                (about_choose_passwords k0 (fun o => o = Some v) defaults Hp)
                H6 Hget) as G6.
  pose proof (keeps_ok _ _ _ _ _
                (about_encrypt_passwords k0 (fun o => o = Some v) region Hp Hk)
                H7 G6) as G7.
  unfold about in G7.
  rewrite (eq_trans
             (update_then_check c Postgresapp.set_default_variables region
                st7 st' vars H)
             (set_default_variables_fold (variables st7))).
  exact (apply_defaults_kept _ _ _ _ G7).
Qed.

(** In the mapping that the database pattern returns, an instance type
    whose family is none of [c3], [g2], [hi1], [i2], [m3], [r3] goes
    with [use_ebs] set to [True]: for such a type the operator is not
    asked, and a [use_ebs] given beforehand is overwritten. *)
Theorem postgres_gather_forces_ebs (region : string) (account : account_info)
    (st st' : state W) (vars : dict) (t : string) :
  Postgresapp.gather_user_variables c region account st = (Ok vars, st') ->
  get "instance_type" vars = Some (VStr t) ->
  existsb (String.eqb (hd "" (split "." (lower t))))
          ["c3"; "g2"; "hi1"; "i2"; "m3"; "r3"] = false ->
  get "use_ebs" vars = Some (VBool true).
Proof.
  intros H Ht Hfam. unfold Postgresapp.gather_user_variables in H.
  cbv zeta in H.
  apply bind_ok in H. destruct H as (u6 & st6 & H0 & H).
  apply bind_ok in H. destruct H as (u7 & st7 & H7 & H). cbv beta in H.
  unfold Postgresapp.choose_settings in H0.
  do 4 (apply bind_ok in H0; destruct H0 as (? & ? & _ & H0)).
  apply bind_ok in H0. destruct H0 as (u5 & st5 & H5 & H6). cbv beta in H6.
  unfold Postgresapp.choose_storage in H5.
  apply bind_ok in H5. destruct H5 as (it & s0 & G & H5).
  apply getvar_ok in G. destruct G as [-> Hit].
  assert (it = VStr t) as ->.
  { carry "instance_type" Hit H5.
    pose proof (kept_to_the_end "instance_type" it region _ _ _ _ _ _ _ _
                  eq_refl ltac:(discriminate) H6 H7 H Hit) as E.
    congruence. }
  apply bind_ok in H5. destruct H5 as (name & s1 & G & H5).
  unfold lift, as_str in G. injection G as <- <-.
  apply bind_ok in H5. destruct H5 as (u1 & s2 & G & H5).
  rewrite Hfam in G. unfold setvar, update in G. injection G as _ <-.
  cbv beta in H5.
  match type of H5 with
  | _ ?s = _ =>
      assert (Hebs : get "use_ebs" (variables s) = Some (VBool true))
        by apply get_setitem_same
  end.
  carry "use_ebs" Hebs H5.
  exact (kept_to_the_end "use_ebs" _ region _ _ _ _ _ _ _ _
           eq_refl ltac:(discriminate) H6 H7 H Hebs).
Qed.

(** In the mapping that the database pattern returns, a true [use_ebs]
    next to an instance type for which [ebs_optimized_supported] holds
    goes with [ebs_optimized] set to [True]. *)
Theorem postgres_gather_ebs_optimized (region : string)
    (account : account_info) (st st' : state W) (vars : dict) (t : string)
    (v : value) :
  Postgresapp.gather_user_variables c region account st = (Ok vars, st') ->
  get "instance_type" vars = Some (VStr t) ->
  get "use_ebs" vars = Some v -> truthy v = true ->
  Postgresapp.ebs_optimized_supported (VStr t) = true ->
  get "ebs_optimized" vars = Some (VBool true).
Proof.
  intros H Ht Hv Htruthy Hsup. unfold Postgresapp.gather_user_variables in H.
  cbv zeta in H.
  apply bind_ok in H. destruct H as (u6 & st6 & H0 & H).
  apply bind_ok in H. destruct H as (u7 & st7 & H7 & H). cbv beta in H.
  unfold Postgresapp.choose_settings in H0.
  do 4 (apply bind_ok in H0; destruct H0 as (? & ? & _ & H0)).
  apply bind_ok in H0. destruct H0 as (u5 & st5 & H5 & H6). cbv beta in H6.
  unfold Postgresapp.choose_storage in H5.
  do 3 (apply bind_ok in H5; destruct H5 as (? & ? & _ & H5)).
  apply bind_ok in H5. destruct H5 as (ue & s1 & G & H5).
  apply getvar_ok in G. destruct G as [-> Hue].
  assert (ue = v) as ->.
  { carry "use_ebs" Hue H5.
    pose proof (kept_to_the_end "use_ebs" ue region _ _ _ _ _ _ _ _
                  eq_refl ltac:(discriminate) H6 H7 H Hue) as E.
    congruence. }
  apply bind_ok in H5. destruct H5 as (u2 & s2 & Hbody & H5).
  rewrite Htruthy in Hbody.
  do 7 (apply bind_ok in Hbody; destruct Hbody as (? & ? & _ & Hbody)).
  apply bind_ok in Hbody. destruct Hbody as (it & s3 & G & Hbody).
  apply getvar_ok in G. destruct G as [-> Hit].
  assert (it = VStr t) as ->.
  { carry "instance_type" Hit Hbody. carry "instance_type" Hit H5.
    pose proof (kept_to_the_end "instance_type" it region _ _ _ _ _ _ _ _
                  eq_refl ltac:(discriminate) H6 H7 H Hit) as E.
    congruence. }
  cbv beta in Hbody. rewrite Hsup in Hbody.
  unfold setvar, update in Hbody. injection Hbody as _ <-.
  cbv beta in H5.
  match type of H5 with
  | _ ?s = _ =>
      assert (Hopt : get "ebs_optimized" (variables s) = Some (VBool true))
        by apply get_setitem_same
  end.
  carry "ebs_optimized" Hopt H5.
  exact (kept_to_the_end "ebs_optimized" _ region _ _ _ _ _ _ _ _
           eq_refl ltac:(discriminate) H6 H7 H Hopt).
Qed.

End Storage.

Lemma postgres_gather_forces_ebs_witness :
  get "use_ebs"
      (Example.returned
         (Postgresapp.gather_user_variables (Example.scripted Example.plain)
            "eu-west-1" Example.account (Example.start "myapp.yaml")) [])
  = Some (VBool true).
Proof.
  apply (postgres_gather_forces_ebs (Example.scripted Example.plain)
           "eu-west-1" Example.account (Example.start "myapp.yaml")
           (snd (Postgresapp.gather_user_variables
                   (Example.scripted Example.plain)
                   "eu-west-1" Example.account (Example.start "myapp.yaml")))
           _ "t2.micro").
  - vm_compute. reflexivity.
  - vm_compute. reflexivity.
  - reflexivity.
Defined.

Lemma postgres_gather_ebs_optimized_witness :
  get "ebs_optimized"
      (Example.returned
         (Postgresapp.gather_user_variables
            (with_instance_type "c4.large" Example.plain)
            "eu-west-1" Example.account (Example.start "myapp.yaml")) [])
  = Some (VBool true).
Proof.
  apply (postgres_gather_ebs_optimized
           (with_instance_type "c4.large" Example.plain)
           "eu-west-1" Example.account (Example.start "myapp.yaml")
           (snd (Postgresapp.gather_user_variables
                   (with_instance_type "c4.large" Example.plain)
                   "eu-west-1" Example.account (Example.start "myapp.yaml")))
           _ "c4.large" (VBool true)).
  - vm_compute. reflexivity.
  - vm_compute. reflexivity.
  - vm_compute. reflexivity.
  - reflexivity.
  - reflexivity.
Defined.

(** ** The defaulting step, twice *)

(** [set_default_variables] on a mapping that it has returned changes
    nothing: the second call that [gather_user_variables] makes on a
    mapping already completed is harmless. *)
Theorem set_default_variables_idempotent (variables : dict) :
  Postgresapp.set_default_variables (Postgresapp.set_default_variables variables)
  = Postgresapp.set_default_variables variables.
Proof.
  rewrite (set_default_variables_fold
             (Postgresapp.set_default_variables variables)).
  rewrite (set_default_variables_fold variables).
  apply apply_defaults_fixed. intros k Hk.
  exact (apply_defaults_contains Postgresapp.default_table variables k Hk).
Qed.

(** ** The keys of the web application templates *)

(** Walks through a computation, which can bind keys but never
    unbinds one. *)
Ltac bound_step :=
  match goal with
  | |- keeps _ (setvar _ _) => apply bound_setvar
  | |- keeps _ (prompt _ _ _ _ _) =>
      apply bound_prompt; first [exact I | cbv beta iota]
  | |- keeps _ (choice_var _ _ _ _ _) =>
      unfold choice_var
  | _ => about_step
  end.

(** Carries the fact [Hb] that a key is bound along the computation of
    [H]. *)
Ltac carry_bound Hb H :=
  cbv beta in H;
  match type of H with
  | ?m ?s = (Ok ?a, ?s') =>
      match type of Hb with
      | bound ?k (variables s) =>
          let K := fresh "K" in
          assert (K : keeps (bound k) m) by (cbv zeta; repeat bound_step);
          let Hnew := fresh Hb in
          pose proof (keeps_ok _ _ _ _ _ K H Hb) as Hnew;
          clear K Hb; rename Hnew into Hb
      end
  end.

Section WebappKeys.

Context {W : Type} (c : collaborators W).

Local Open Scope monad_scope.

Lemma setvar_binds (k : string) (v : value) (st st' : state W) (u : unit) :
  setvar k v st = (Ok u, st') -> bound k (variables st').
Proof.
  unfold setvar, update. intros H. injection H as _ <-.
  unfold bound, about. cbn [variables]. now rewrite get_setitem_same.
Qed.

Lemma choice_var_binds (k text : string) (options : list (string * string))
    (d : string) (st st' : state W) (u : unit) :
  choice_var c k text options d st = (Ok u, st') -> bound k (variables st').
Proof.
  unfold choice_var. intros H.
  apply bind_ok in H. destruct H as (v & st1 & _ & H).
  exact (setvar_binds _ _ _ _ _ H).
Qed.

(** When the questions on the application have been answered, the
    eight keys they are about are bound. *)
Lemma choose_application_binds (region : string) (st st' : state W) (u : unit) :
  Webappmultiregion.choose_application c region st = (Ok u, st') ->
  forall k,
    In k [ "application_id"; "docker_image"; "http_port";
           "http_health_check_path"; "instance_type"; "mint_bucket";
           "loadbalancer_scheme"; "application_id_camel" ] ->
    bound k (variables st').
Proof.
  intros H. unfold Webappmultiregion.choose_application in H.
  apply bind_ok in H. destruct H as (u1 & s1 & P1 & H).
  apply prompt_binds in P1. carry_bound P1 H.
  apply bind_ok in H. destruct H as (u2 & s2 & P2 & H).
  apply prompt_binds in P2. carry_bound P2 H.
  apply bind_ok in H. destruct H as (u3 & s3 & P3 & H).
  apply prompt_binds in P3. carry_bound P3 H.
  apply bind_ok in H. destruct H as (u4 & s4 & P4 & H).
  apply prompt_binds in P4. carry_bound P4 H.
  apply bind_ok in H. destruct H as (u5 & s5 & P5 & H).
  apply prompt_binds in P5. carry_bound P5 H.
  apply bind_ok in H. destruct H as (docker_image & s6 & _ & H).
  apply bind_ok in H. destruct H as (pierone & s7 & _ & H).
  apply bind_ok in H. destruct H as (mint & s8 & _ & H).
  apply bind_ok in H. destruct H as (u9 & s9 & P9 & H).
  assert (B9 : bound "mint_bucket" (variables s9)).
  { cbv beta in P9. destruct mint;
      [exact (prompt_binds _ _ _ _ _ _ _ _ P9) | exact (setvar_binds _ _ _ _ _ P9)]. }
  carry_bound B9 H.
  apply bind_ok in H. destruct H as (u10 & s10 & P10 & H).
  apply choice_var_binds in P10. carry_bound P10 H.
  apply bind_ok in H. destruct H as (application_id & s11 & _ & H).
  apply bind_ok in H. destruct H as (id & s12 & _ & H).
  apply setvar_binds in H.
  intros k [<- | [<- | [<- | [<- | [<- | [<- | [<- | [<- | []]]]]]]]];
    assumption.
Qed.

Lemma webapp_template_keys :
  forallb (fun k =>
             existsb (String.eqb k)
               [ "hosted_zone"; "application_id"; "docker_image"; "http_port";
                 "http_health_check_path"; "instance_type"; "mint_bucket";
                 "loadbalancer_scheme"; "application_id_camel" ])
          (template_keys Webappmultiregion.TEMPLATE
           ++ template_keys Webappmultiregion.BASE_TEMPLATE)%list
  = true.
Proof. vm_compute. reflexivity. Qed.

(** When the web application pattern returns, every key that a tag or
    a section of [TEMPLATE] or of [BASE_TEMPLATE] names is bound in the
    mapping returned. *)
Theorem webapp_gather_binds_template_keys (region : string)
    (account : account_info) (st st' : state W) (vars : dict) (k : string) :
  Webappmultiregion.gather_user_variables c region account st = (Ok vars, st') ->
  In k (template_keys Webappmultiregion.TEMPLATE
        ++ template_keys Webappmultiregion.BASE_TEMPLATE)%list ->
  exists v, get k vars = Some v.
Proof.
  intros H Hk.
  pose proof webapp_template_keys as Hall.
  rewrite forallb_forall in Hall. specialize (Hall k Hk). clear Hk.
  apply in_by_eqb in Hall.
  unfold Webappmultiregion.gather_user_variables in H.
  apply bind_ok in H. destruct H as (u1 & st1 & H1 & H).
  pose proof (choose_application_binds region st st1 u1 H1) as B1.
  apply bind_ok in H. destruct H as (u2 & st2 & H2 & H).
  apply bind_ok in H. destruct H as (u3 & st3 & H3 & H).
  unfold getvars in H. injection H as <- _.
  unfold Webappmultiregion.write_base_definition in H3.
  assert (B : bound k (variables st3)).
  { destruct Hall as [<- | Hall].
    - pose proof (webapp_zone_value account st1 st2 u2 H2) as Hz.
      assert (B2 : bound "hosted_zone" (variables st2))
        by (unfold bound, about, zone_is in *; congruence).
      carry_bound B2 H3. exact B2.
    - specialize (B1 k Hall).
      unfold Webappmultiregion.choose_hosted_zone in H2.
      carry_bound B1 H2. carry_bound B1 H3. exact B1. }
  unfold bound, about in B.
  destruct (get k (variables st3)) as [v|]; [now exists v | congruence].
Qed.

End WebappKeys.

Lemma webapp_gather_binds_template_keys_witness :
  exists v,
    get "mint_bucket"
        (Example.returned
           (Webappmultiregion.gather_user_variables (Example.scripted Example.plain)
              "eu-west-1" Example.account (Example.start "myapp.yaml")) [])
    = Some v.
Proof.
  apply (webapp_gather_binds_template_keys (Example.scripted Example.plain)
           "eu-west-1" Example.account (Example.start "myapp.yaml")
           (snd (Webappmultiregion.gather_user_variables
                   (Example.scripted Example.plain)
                   "eu-west-1" Example.account (Example.start "myapp.yaml")))).
  - vm_compute. reflexivity.
  - apply in_by_eqb. vm_compute. reflexivity.
Defined.

(** ** The question on zmon *)

Section Zmon.

Context {W : Type} (c : collaborators W).

Local Open Scope monad_scope.

Lemma same_bind {A B : Type} (m m' : M W A) (k k' : A -> M W B) :
  same m m' -> (forall a, same (k a) (k' a)) -> same (bind m k) (bind m' k').
Proof.
  intros Hm Hk st. unfold bind. rewrite (Hm st).
  destruct (m' st) as [[a|e] st1]; [apply Hk | reflexivity].
Qed.

(** A call whose value is dropped can give any value. *)
Lemma same_bind_ignored {A B : Type} (f f' : W -> result A * W) (k k' : M W B) :
  (forall w,
     snd (f w) = snd (f' w)
     /\ match fst (f w), fst (f' w) with
        | Ok _, Ok _ => True
        | Raise e, Raise e' => e = e'
        | _, _ => False
        end) ->
  same k k' ->
  same (call f ;; k) (call f' ;; k').
Proof.
  intros Hf Hk st. unfold bind, call. specialize (Hf (world st)).
  destruct (f (world st)) as [[a|e] w], (f' (world st)) as [[a'|e'] w'];
    cbn [fst snd] in Hf; destruct Hf as [<- Hr];
    [apply Hk | contradiction | contradiction | now subst e'].
Qed.

Lemma same_encrypt_each (region kms_keyid : string) (names : list string) :
  same (Postgresapp.encrypt_each (contrary_on_zmon c) region kms_keyid names)
       (Postgresapp.encrypt_each c region kms_keyid names).
Proof.
  induction names as [|k names IH]; cbn [Postgresapp.encrypt_each].
  - intros st. reflexivity.
  - apply same_bind; [intros st; reflexivity|]. intros plaintext.
    apply same_bind; [intros st; reflexivity|]. intros encrypted.
    apply same_bind; [intros st; reflexivity|]. intros _. exact IH.
Qed.

Lemma contrary_confirm_zmon (d : bool) (w : W) :
  snd (click_confirm (contrary_on_zmon c) ZMON_QUESTION d w)
  = snd (click_confirm c ZMON_QUESTION d w)
  /\ match fst (click_confirm (contrary_on_zmon c) ZMON_QUESTION d w),
           fst (click_confirm c ZMON_QUESTION d w) with
     | Ok _, Ok _ => True
     | Raise e, Raise e' => e = e'
     | _, _ => False
     end.
Proof.
  cbn [click_confirm contrary_on_zmon].
  change (String.eqb ZMON_QUESTION ZMON_QUESTION) with true. cbv iota.
  destruct (click_confirm c ZMON_QUESTION d w) as [[b|e] w']; cbn [fst snd];
    now split.
Qed.

(** The answer to the question on zmon has no effect: an operator who
    answers it the other way, and everything else alike, gets the same
    result, the same variables ([zmon_sg_id] among them), the same
    terminal and the same calls to the services. *)
Theorem zmon_answer_is_ignored (region : string) (account : account_info)
    (st : state W) :
  Postgresapp.gather_user_variables (contrary_on_zmon c) region account st
  = Postgresapp.gather_user_variables c region account st.
Proof.
  revert st.
  change (same (Postgresapp.gather_user_variables (contrary_on_zmon c)
                  region account)
               (Postgresapp.gather_user_variables c region account)).
  unfold Postgresapp.gather_user_variables, Postgresapp.choose_settings,
    Postgresapp.choose_image_and_bucket, Postgresapp.choose_hosted_zone,
    Postgresapp.choose_network, Postgresapp.choose_security_groups,
    Postgresapp.choose_storage, Postgresapp.choose_passwords,
    Postgresapp.encrypt_passwords.
  cbv zeta.
  repeat
    match goal with
    | |- same (Postgresapp.encrypt_each _ _ _ _) _ => apply same_encrypt_each
    | |- same (bind (call (click_confirm _
                 "Do you want to allow access to the Spilo nodes from zmon?" _))
                 _) _ =>
        apply same_bind_ignored; [exact (contrary_confirm_zmon true)|]
    | |- same (bind _ _) (bind _ _) => apply same_bind; [|intros ?]
    | |- same (if ?b then _ else _) _ => destruct b
    | |- same (match ?x with _ => _ end) _ => destruct x
    | |- same _ _ => intros ?; reflexivity
    end.
Qed.

End Zmon.

(** ** The files that the web application pattern touches *)


Section OneFile.

Context {W : Type} (c : collaborators W).

Local Open Scope monad_scope.



End OneFile.


(** ** The outputs of the multi-region pattern *)






Section Outputs.

Context {W : Type} (c : collaborators W).

Local Open Scope monad_scope.


End Outputs.

